(** * bom-message: payload codec and entity messaging core

    A shallow embedding of [src/data-converters.ts] (the payload codec) and
    [src/bom-message.ts] (the entity registry and the per-entity
    request/response engine), with the properties of the specification
    stated and proved over it. *)

From Stdlib Require Import ZArith NArith Lia Ascii String List Permutation.
From Stdlib Require Import DecimalString ZifyNat.
From stdpp Require Import gmap strings list.

Local Open Scope string_scope.
Local Open Scope list_scope.

(** ** Results of fallible code

    A JavaScript [throw] is an [Err] carrying the error, a normal return
    is [Ok]. *)

Inductive js_error : Type :=
| InvalidBase64Format      (* Error("Invalid Base64 string format.") *)
| NoMimeType               (* Error("Could not extract MIME type.") *)
| InvalidCharacter         (* DOMException raised by atob *)
| NotAString               (* TypeError: base64String.split is not a function *)
| DuplicateEntityId (id : string)  (* Error("Entity with ID '...' already exists.") *)
| EntityDestroyed          (* Error("Entity is destroyed") *)
| NoTransportAvailable     (* Error("No valid message emitter found") *)
| NoEmitter                (* TypeError: Entity.messageEmitter is undefined *)
| NotCallable.             (* TypeError: cannot convert object to primitive value *)

Inductive result (A : Type) : Type :=
| Ok (a : A)
| Err (e : js_error).
Arguments Ok {A} a.
Arguments Err {A} e.

Definition bind {A B} (r : result A) (k : A -> result B) : result B :=
  match r with
  | Ok a => k a
  | Err e => Err e
  end.

Notation "'let*' x ':=' r 'in' k" := (bind r (fun x => k))
  (at level 10, x name, r at level 100, k at level 200).

Definition is_ok {A} (r : result A) : bool :=
  match r with Ok _ => true | Err _ => false end.

(** ** Platform primitives used by the codec *)

Module Base64.

(** The base64 alphabet of RFC 4648, as used by data URLs and [atob]. *)
Definition alphabet : list ascii :=
  list_ascii_of_string
    "ABCDEFGHIJKLMNOPQRSTUVWXYZabcdefghijklmnopqrstuvwxyz0123456789+/".

Definition digit (n : N) : ascii := nth (N.to_nat n) alphabet "A"%char.

Fixpoint index_from (i : N) (c : ascii) (l : list ascii) : option N :=
  match l with
  | [] => None
  | d :: l' => if Ascii.eqb c d then Some i else index_from (N.succ i) c l'
  end.

Definition index (c : ascii) : option N := index_from 0 c alphabet.

(** Three bytes make four sextets. *)
Definition enc3 (a b c : ascii) : list ascii :=
  let x := N_of_ascii a in
  let y := N_of_ascii b in
  let z := N_of_ascii c in
  [ digit (x / 4); digit ((x mod 4) * 16 + y / 16);
    digit ((y mod 16) * 4 + z / 64); digit (z mod 64) ]%N.

Definition enc2 (a b : ascii) : list ascii :=
  let x := N_of_ascii a in
  let y := N_of_ascii b in
  [ digit (x / 4); digit ((x mod 4) * 16 + y / 16); digit ((y mod 16) * 4) ]%N.

Definition enc1 (a : ascii) : list ascii :=
  let x := N_of_ascii a in
  [ digit (x / 4); digit ((x mod 4) * 16) ]%N.

(** The digits of the encoding, without padding. *)
Fixpoint body (bs : list ascii) : list ascii :=
  match bs with
  | [] => []
  | [a] => enc1 a
  | [a; b] => enc2 a b
  | a :: b :: c :: rest => enc3 a b c ++ body rest
  end.

Definition padding (bs : list ascii) : list ascii :=
  match (length bs mod 3)%nat with
  | 1%nat => ["="; "="]%char
  | 2%nat => ["="]%char
  | _ => []
  end.

(** Standard padded base64, what [FileReader.readAsDataURL] emits. *)
Definition encode (bs : list ascii) : list ascii := body bs ++ padding bs.

(** [atob]: the forgiving-base64 decode of the HTML standard. *)
Definition is_ascii_whitespace (c : ascii) : bool :=
  let n := N_of_ascii c in
  ((n =? 9) || (n =? 10) || (n =? 12) || (n =? 13) || (n =? 32))%N.

Definition is_pad (c : ascii) : bool := Ascii.eqb c "="%char.

(** Drops one or two trailing [=] of a reversed string. *)
Definition strip_rev (r : list ascii) : list ascii :=
  match r with
  | p :: q :: r' =>
      if is_pad p then (if is_pad q then r' else q :: r') else r
  | [p] => if is_pad p then [] else r
  | [] => []
  end.

Definition strip_padding (cs : list ascii) : list ascii :=
  rev (strip_rev (rev cs)).

Definition dec4 (s0 s1 s2 s3 : N) : list ascii :=
  [ ascii_of_N (s0 * 4 + s1 / 16);
    ascii_of_N ((s1 mod 16) * 16 + s2 / 4);
    ascii_of_N ((s2 mod 4) * 64 + s3) ]%N.

Definition dec3 (s0 s1 s2 : N) : list ascii :=
  [ ascii_of_N (s0 * 4 + s1 / 16);
    ascii_of_N ((s1 mod 16) * 16 + s2 / 4) ]%N.

Definition dec2 (s0 s1 : N) : list ascii :=
  [ ascii_of_N (s0 * 4 + s1 / 16) ]%N.

(** Decodes the digits; [None] on a character outside the alphabet or
    on a lone trailing digit. *)
Fixpoint decode_digits (cs : list ascii) : option (list ascii) :=
  match cs with
  | [] => Some []
  | [_] => None
  | [c0; c1] =>
      match index c0, index c1 with
      | Some s0, Some s1 => Some (dec2 s0 s1)
      | _, _ => None
      end
  | [c0; c1; c2] =>
      match index c0, index c1, index c2 with
      | Some s0, Some s1, Some s2 => Some (dec3 s0 s1 s2)
      | _, _, _ => None
      end
  | c0 :: c1 :: c2 :: c3 :: rest =>
      match index c0, index c1, index c2, index c3, decode_digits rest with
      | Some s0, Some s1, Some s2, Some s3, Some bs =>
          Some (dec4 s0 s1 s2 s3 ++ bs)
      | _, _, _, _, _ => None
      end
  end.

Definition atob (s : string) : option (list ascii) :=
  let cs := List.filter (fun c => negb (is_ascii_whitespace c))
                        (list_ascii_of_string s) in
  let cs := if (length cs mod 4 =? 0)%nat then strip_padding cs else cs in
  if (length cs mod 4 =? 1)%nat then None else decode_digits cs.

End Base64.

(** ** Payload values

    The JavaScript values the codec walks over.  Numbers are carried as
    integers (the codec never inspects them), strings as 8-bit character
    strings, a [File] by its name, MIME type and bytes, a [FormData] by
    its ordered entry list, and an ordinary object by its own enumerable
    properties in the order [Object.entries] lists them. *)

Record File : Type := mkFile {
  file_name : string;
  file_type : string;
  file_bytes : list ascii
}.

Inductive form_entry : Type :=
| FText (s : string)
| FFile (f : File).

Definition FormData : Type := list (string * form_entry).

#[local] Unset Elimination Schemes.
Inductive value : Type :=
| VUndefined
| VNull
| VBool (b : bool)
| VNum (n : Z)
| VStr (s : string)
| VFile (f : File)
| VForm (fd : FormData)
| VArr (l : list value)
| VObj (o : list (string * value)).
#[local] Set Elimination Schemes.

Definition props : Type := list (string * value).

(** *** Ordinary objects: own properties in enumeration order

    [Object.entries] lists array-index keys first, in ascending numeric
    order, then the other string keys in insertion order. *)

Fixpoint parse_digits (acc : N) (s : string) : option N :=
  match s with
  | EmptyString => Some acc
  | String c s' =>
      let n := N_of_ascii c in
      if ((48 <=? n) && (n <=? 57))%N
      then parse_digits (acc * 10 + (n - 48))%N s'
      else None
  end.

(** A canonical numeric string below 2^32 - 1. *)
Definition array_index (k : string) : option N :=
  match k with
  | EmptyString => None
  | String c k' =>
      if Ascii.eqb c "0"%char
      then (if String.eqb k' EmptyString then Some 0%N else None)
      else match parse_digits 0 k with
           | Some n => if (n <? 4294967295)%N then Some n else None
           | None => None
           end
  end.

Fixpoint obj_get (k : string) (o : props) : option value :=
  match o with
  | [] => None
  | (k', v) :: o' => if String.eqb k k' then Some v else obj_get k o'
  end.

Definition obj_has (k : string) (o : props) : bool :=
  match obj_get k o with Some _ => true | None => false end.

Fixpoint prop_update (k : string) (v : value) (o : props) : props :=
  match o with
  | [] => []
  | (k', v') :: o' =>
      if String.eqb k k' then (k', v) :: o' else (k', v') :: prop_update k v o'
  end.

Fixpoint prop_insert_index (i : N) (k : string) (v : value) (o : props) : props :=
  match o with
  | [] => [(k, v)]
  | (k', v') :: o' =>
      match array_index k' with
      | Some j =>
          if (i <? j)%N then (k, v) :: o
          else (k', v') :: prop_insert_index i k v o'
      | None => (k, v) :: o
      end
  end.

(** Defining or overwriting an own data property. *)
Definition obj_define (k : string) (v : value) (o : props) : props :=
  if obj_has k o then prop_update k v o
  else match array_index k with
       | Some i => prop_insert_index i k v o
       | None => o ++ [(k, v)]
       end.

(** [o[k] = v] on an object created by a literal: the key ["__proto__"]
    reaches the prototype setter and creates no own property.  The
    prototype the setter installs when [v] is an object is not
    represented, nor are the properties inherited from it; the
    statements below that would depend on them are stated for values
    without that key. *)
Definition obj_assign (k : string) (v : value) (o : props) : props :=
  if String.eqb k "__proto__" then o else obj_define k v o.

(** [Object.entries] of a value that is an object. *)
Definition index_key (i : nat) : string :=
  NilZero.string_of_uint (Nat.to_uint i).

Fixpoint indexed_from (i : nat) (l : list value) : props :=
  match l with
  | [] => []
  | v :: l' => (index_key i, v) :: indexed_from (S i) l'
  end.

Definition object_entries (v : value) : props :=
  match v with
  | VObj o => o
  | VArr l => indexed_from 0 l
  | _ => []
  end.

(** [typeof v === "object" && v !== null] *)
Definition is_object (v : value) : bool :=
  match v with
  | VFile _ | VForm _ | VArr _ | VObj _ => true
  | _ => false
  end.

(** [k in v] for the keys the library probes; none of them is inherited. *)
Definition has_property (k : string) (v : value) : bool :=
  match v with
  | VObj o => obj_has k o
  | _ => false
  end.

(** [v.k] *)
Definition get_property (k : string) (v : value) : value :=
  match v with
  | VObj o => match obj_get k o with Some x => x | None => VUndefined end
  | _ => VUndefined
  end.

(** JavaScript truthiness. *)
Definition truthy (v : value) : bool :=
  match v with
  | VUndefined | VNull => false
  | VBool b => b
  | VNum n => negb (n =? 0)%Z
  | VStr s => negb (String.eqb s EmptyString)
  | _ => true
  end.

(** [typeof v === "string"], [typeof v === "number"], [v === s] *)
Definition is_string (v : value) : bool :=
  match v with VStr _ => true | _ => false end.
Definition is_number (v : value) : bool :=
  match v with VNum _ => true | _ => false end.
Definition string_is (s : string) (v : value) : bool :=
  match v with VStr t => String.eqb t s | _ => false end.

(** *** String conversion

    [ToString] as the platform applies it to a file name or to a text
    field.  A number is printed in decimal, as JavaScript prints the
    integers below 10^21 in absolute value.  An object that carries an
    own ["toString"] property holds a value that is not callable, so the
    conversion raises a [TypeError]. *)

Definition string_of_Z (n : Z) : string :=
  NilZero.string_of_int (Z.to_int n).

Fixpoint join (sep : string) (l : list string) : string :=
  match l with
  | [] => EmptyString
  | [x] => x
  | x :: l' => x +:+ sep +:+ join sep l'
  end.

Fixpoint js_to_string (v : value) : result string :=
  match v with
  | VUndefined => Ok "undefined"
  | VNull => Ok "null"
  | VBool true => Ok "true"
  | VBool false => Ok "false"
  | VNum n => Ok (string_of_Z n)
  | VStr s => Ok s
  | VFile _ => Ok "[object File]"
  | VForm _ => Ok "[object FormData]"
  | VArr l =>
      let* parts :=
        (fix elems (l : list value) : result (list string) :=
           match l with
           | [] => Ok []
           | x :: l' =>
               let* sx := match x with
                          | VUndefined | VNull => Ok EmptyString
                          | _ => js_to_string x
                          end in
               let* rest := elems l' in
               Ok (sx :: rest)
           end) l in
      Ok (join "," parts)
  | VObj o =>
      if obj_has "toString" o then Err NotCallable else Ok "[object Object]"
  end.

(** ** data-converters.ts *)

(** [String.prototype.split] with a one-character separator. *)
Fixpoint split_on (sep : ascii) (s : string) : list string :=
  match s with
  | EmptyString => [EmptyString]
  | String c s' =>
      if Ascii.eqb c sep then EmptyString :: split_on sep s'
      else match split_on sep s' with
           | h :: t => String c h :: t
           | [] => [String c EmptyString]
           end
  end.

(** The regular expression [/:(.*?);/]: the capture of the leftmost
    match.  [.] matches anything but a line terminator. *)
Definition is_line_terminator (c : ascii) : bool :=
  Ascii.eqb c "010"%char || Ascii.eqb c "013"%char.

Fixpoint lazy_until_semicolon (s : string) : option string :=
  match s with
  | EmptyString => None
  | String c s' =>
      if Ascii.eqb c ";"%char then Some EmptyString
      else if is_line_terminator c then None
      else match lazy_until_semicolon s' with
           | Some m => Some (String c m)
           | None => None
           end
  end.

Fixpoint match_mime (s : string) : option string :=
  match s with
  | EmptyString => None
  | String c s' =>
      if Ascii.eqb c ":"%char
      then match lazy_until_semicolon s' with
           | Some m => Some m
           | None => match_mime s'
           end
      else match_mime s'
  end.

(** The [type] a [File] constructor stores: empty when the given type
    has a character outside U+0020..U+007E, else its ASCII lowercase. *)
Definition is_printable (c : ascii) : bool :=
  let n := N_of_ascii c in ((32 <=? n) && (n <=? 126))%N.

Definition ascii_lower (c : ascii) : ascii :=
  let n := N_of_ascii c in
  if ((65 <=? n) && (n <=? 90))%N then ascii_of_N (n + 32) else c.

Definition normalize_type (t : string) : string :=
  let cs := list_ascii_of_string t in
  if forallb is_printable cs
  then string_of_list_ascii (List.map ascii_lower cs)
  else EmptyString.

(** [new File([bytes], name, {type})]: the name is converted to a string. *)
Definition new_File (bytes : list ascii) (name : value) (type : string) : result File :=
  let* n := js_to_string name in
  Ok {| file_name := n; file_type := normalize_type type; file_bytes := bytes |}.

(** *** MIME types as [FileReader] writes them

    The test platform of the repository parses the type of the file as
    a MIME type and writes its serialization: the type and the subtype
    in lower case, then each parameter as [;name=value].  A type that
    does not parse is written as [application/octet-stream].  Engines
    that write the type as it is agree with this on every type of the
    form [type/subtype]. *)

Definition is_http_whitespace (c : ascii) : bool :=
  let n := N_of_ascii c in
  ((n =? 9) || (n =? 10) || (n =? 13) || (n =? 32))%N.

Definition is_http_token (c : ascii) : bool :=
  let n := N_of_ascii c in
  ((48 <=? n) && (n <=? 57))%N || ((65 <=? n) && (n <=? 90))%N
  || ((97 <=? n) && (n <=? 122))%N
  || existsb (Ascii.eqb c) (list_ascii_of_string "-!#$%&'*+.^_`|~").

Definition is_quoted_string_token (c : ascii) : bool :=
  let n := N_of_ascii c in
  ((n =? 9) || ((32 <=? n) && (n <=? 126)) || (128 <=? n))%N.

Fixpoint skip_while (p : ascii -> bool) (l : list ascii) : list ascii :=
  match l with
  | [] => []
  | c :: l' => if p c then skip_while p l' else l
  end.

Definition trim_end (l : list ascii) : list ascii :=
  rev (skip_while is_http_whitespace (rev l)).

(** The characters up to the first one that [stop] holds of, and the rest. *)
Fixpoint take_until (stop : ascii -> bool) (l : list ascii) : list ascii * list ascii :=
  match l with
  | [] => ([], [])
  | c :: l' =>
      if stop c then ([], l)
      else let '(a, r) := take_until stop l' in (c :: a, r)
  end.

Definition double_quote : ascii := ascii_of_N 34.
Definition backslash : ascii := ascii_of_N 92.

(** The value of a quoted string, read from behind its opening quote. *)
Fixpoint collect_quoted (l : list ascii) : list ascii * list ascii :=
  match l with
  | [] => ([], [])
  | c :: l' =>
      if Ascii.eqb c double_quote then ([], l')
      else if Ascii.eqb c backslash then
        match l' with
        | [] => ([backslash], [])
        | d :: l'' => let '(v, r) := collect_quoted l'' in (d :: v, r)
        end
      else let '(v, r) := collect_quoted l' in (c :: v, r)
  end.

Definition mime_parameter : Type := list ascii * list ascii.

Definition add_parameter (name value : list ascii) (ps : list mime_parameter)
    : list mime_parameter :=
  if negb (length name =? 0)%nat && forallb is_http_token name
     && forallb is_quoted_string_token value
     && negb (existsb (fun p => String.eqb (string_of_list_ascii (fst p))
                                           (string_of_list_ascii name)) ps)
  then ps ++ [(name, value)] else ps.

Definition is_semicolon (c : ascii) : bool := Ascii.eqb c ";"%char.

(** The parameters, read from the [;] that follows the subtype; each
    round consumes at least that one character. *)
Fixpoint mime_parameters (fuel : nat) (rest : list ascii) (ps : list mime_parameter)
    : list mime_parameter :=
  match fuel, rest with
  | S fuel', _ :: rest1 =>
      let rest2 := skip_while is_http_whitespace rest1 in
      let '(name0, rest3) :=
        take_until (fun c => is_semicolon c || Ascii.eqb c "="%char) rest2 in
      let name := List.map ascii_lower name0 in
      match rest3 with
      | c :: rest4 =>
          if is_semicolon c then mime_parameters fuel' rest3 ps
          else
            match rest4 with
            | q :: rest5 =>
                if Ascii.eqb q double_quote then
                  let '(value, rest6) := collect_quoted rest5 in
                  mime_parameters fuel' (snd (take_until is_semicolon rest6))
                                  (add_parameter name value ps)
                else
                  let '(value0, rest6) := take_until is_semicolon rest4 in
                  let value := trim_end value0 in
                  mime_parameters fuel' rest6
                    (if (length value =? 0)%nat then ps else add_parameter name value ps)
            | [] => ps
            end
      | [] => ps
      end
  | _, _ => ps
  end.

Record MIMEType : Type := mkMIMEType {
  mime_type : list ascii;
  mime_subtype : list ascii;
  mime_params : list mime_parameter
}.

(** Parsing a MIME type; [None] is the failure of the algorithm. *)
Definition parse_mime (input : string) : option MIMEType :=
  let input := trim_end (skip_while is_http_whitespace (list_ascii_of_string input)) in
  let '(type, rest) := take_until (fun c => Ascii.eqb c "/"%char) input in
  if (length type =? 0)%nat || negb (forallb is_http_token type) then None
  else
    match rest with
    | [] => None
    | _ :: rest1 =>
        let '(subtype0, rest2) := take_until is_semicolon rest1 in
        let subtype := trim_end subtype0 in
        if (length subtype =? 0)%nat || negb (forallb is_http_token subtype) then None
        else Some (mkMIMEType (List.map ascii_lower type) (List.map ascii_lower subtype)
                              (mime_parameters (length rest2) rest2 []))
    end.

Definition escape_quoted (value : list ascii) : list ascii :=
  flat_map (fun c => if Ascii.eqb c double_quote || Ascii.eqb c backslash
                     then [backslash; c] else [c]) value.

Definition serialize_parameter (p : mime_parameter) : list ascii :=
  let '(name, value) := p in
  [";"%char] ++ name ++ ["="%char]
  ++ (if negb (forallb is_http_token value) || (length value =? 0)%nat
      then [double_quote] ++ escape_quoted value ++ [double_quote]
      else value).

Definition serialize_mime (m : MIMEType) : string :=
  string_of_list_ascii
    (mime_type m ++ ["/"%char] ++ mime_subtype m
     ++ flat_map serialize_parameter (mime_params m)).

(** The media type [FileReader.readAsDataURL] writes for a file type. *)
Definition content_type (type : string) : string :=
  match parse_mime type with
  | Some m => serialize_mime m
  | None => "application/octet-stream"
  end.

(** [FileReader.readAsDataURL]: [data:<media type>;base64,<base64 of
    the bytes>].  For an empty file some engines return the bare string
    [data:] instead; [decodeFile] rejects that string as it rejects the
    one given here. *)
Definition readAsDataURL (f : File) : string :=
  "data:"
  +:+ content_type (file_type f)
  +:+ ";base64,"
  +:+ string_of_list_ascii (Base64.encode (file_bytes f)).

(** [encodeFile]: the promise resolves with the data URL of the file. *)
Definition encodeFile (file : File) : string := readAsDataURL file.

(** [decodeFile(base64String, fileName)].  A [base64String] that is not
    a string has no [split] method. *)
Definition decodeFile (base64String : value) (fileName : value) : result File :=
  match base64String with
  | VStr str =>
      let parts := split_on ","%char str in
      let prefix := nth 0 parts EmptyString in
      let base64Data := nth 1 parts EmptyString in
      if String.eqb prefix EmptyString || String.eqb base64Data EmptyString
      then Err InvalidBase64Format
      else match match_mime prefix with
           | None => Err NoMimeType
           | Some mimeType =>
               match Base64.atob base64Data with
               | None => Err InvalidCharacter
               | Some byteString => new_File byteString fileName mimeType
               end
           end
  | _ => Err NotAString
  end.

(** [isEncodedFormDataItem] *)
Definition isEncodedFormDataItem (item : value) : bool :=
  is_object item
  && has_property "dataType" item
  && (string_is "file" (get_property "dataType" item)
      || string_is "text" (get_property "dataType" item)).

(** [isEncodedFormData] *)
Definition isEncodedFormData (data : value) : bool :=
  is_object data
  && has_property "dataType" data
  && string_is "formData" (get_property "dataType" data)
  && has_property "items" data
  && is_object (get_property "items" data)
  && forallb isEncodedFormDataItem
       (List.map snd (object_entries (get_property "items" data))).

(** The item an entry of a [FormData] is encoded to. *)
Definition encode_text_item (s : string) : value :=
  VObj [("dataType", VStr "text"); ("content", VStr s)].

Definition encode_file_item (f : File) : value :=
  VObj [("dataType", VStr "file");
        ("fileName", VStr (file_name f));
        ("fileType", VStr (file_type f));
        ("fileSize", VNum (Z.of_nat (length (file_bytes f))));
        ("content", VStr (encodeFile f))].

(** [encodeFormData].  The callback of [formData.forEach] stores a text
    entry at once and a file entry only once its content has been read,
    so every text entry is stored before any file entry; the reads are
    taken to complete in the order they were started. *)
Fixpoint store_text_items (fd : FormData) (items : props) : props :=
  match fd with
  | [] => items
  | (key, FText s) :: fd' =>
      store_text_items fd' (obj_assign key (encode_text_item s) items)
  | (_, FFile _) :: fd' => store_text_items fd' items
  end.

Fixpoint store_file_items (fd : FormData) (items : props) : props :=
  match fd with
  | [] => items
  | (key, FFile f) :: fd' =>
      store_file_items fd' (obj_assign key (encode_file_item f) items)
  | (_, FText _) :: fd' => store_file_items fd' items
  end.

Definition encodeFormData (formData : FormData) : value :=
  VObj [("dataType", VStr "formData");
        ("items", VObj (store_file_items formData (store_text_items formData [])))].

(** [decodeFormData], on a value that passed [isEncodedFormData]. *)
Definition decode_item (key : string) (item : value) : result (string * form_entry) :=
  if string_is "file" (get_property "dataType" item) then
    let* file :=
      decodeFile (get_property "content" item) (get_property "fileName" item) in
    Ok (key, FFile file)
  else
    match get_property "content" item with
    | VFile f => Ok (key, FFile f)
    | content =>
        let* text := js_to_string content in
        Ok (key, FText text)
    end.

Fixpoint decode_items (items : props) : result FormData :=
  match items with
  | [] => Ok []
  | (key, item) :: items' =>
      let* entry := decode_item key item in
      let* rest := decode_items items' in
      Ok (entry :: rest)
  end.

Definition decodeFormData (encodedData : value) : result FormData :=
  decode_items (object_entries (get_property "items" encodedData)).

(** The loop [for (const [key, value] of Object.entries(data))
    result[key] = f(value)], for an [f] that returns and for one that may
    throw, and [data.map(f)] for an [f] that may throw. *)
Definition assign_entries (f : value -> value) : props -> props -> props :=
  fix entries (o : props) (encodedObject : props) : props :=
    match o with
    | [] => encodedObject
    | (key, v) :: o' => entries o' (obj_assign key (f v) encodedObject)
    end.

Definition try_assign_entries (f : value -> result value)
    : props -> props -> result props :=
  fix entries (o : props) (decodedObject : props) : result props :=
    match o with
    | [] => Ok decodedObject
    | (key, v) :: o' =>
        let* v' := f v in
        entries o' (obj_assign key v' decodedObject)
    end.

Definition try_map (f : value -> result value) : list value -> result (list value) :=
  fix items (l : list value) : result (list value) :=
    match l with
    | [] => Ok []
    | x :: l' =>
        let* x' := f x in
        let* rest := items l' in
        Ok (x' :: rest)
    end.

(** [encodeNestedFormData]: the value its promise resolves with. *)
Fixpoint encodeNestedFormData (data : value) : value :=
  match data with
  | VFile f => VStr (encodeFile f)
  | VForm fd => encodeFormData fd
  | VArr l => VArr (List.map encodeNestedFormData l)
  | VObj o => VObj (assign_entries encodeNestedFormData o [])
  | _ => data
  end.

(** [decodeNestedFormData] *)
Fixpoint decodeNestedFormData (data : value) : result value :=
  match data with
  | VStr s =>
      match decodeFile data (VStr "unknown-filename") with
      | Ok f => Ok (VFile f)
      | Err _ => Ok data
      end
  | VArr l =>
      let* decoded := try_map decodeNestedFormData l in
      Ok (VArr decoded)
  | VObj o =>
      if isEncodedFormData data
      then let* fd := decodeFormData data in Ok (VForm fd)
      else
        let* decodedObject := try_assign_entries decodeNestedFormData o [] in
        Ok (VObj decodedObject)
  | VFile _ | VForm _ => Ok (VObj [])
  | _ => Ok data
  end.

(** ** bom-message.ts

    The program state is threaded explicitly: the static members of
    [Entity], the heap of entity objects (an entity is known by its
    reference, so "the same instance" is equality of references), the
    promises returned by [sendMessage], the queue of continuations that
    run once the current call stack has returned, and the message
    transport.  An [await] queues the rest of its function as one
    continuation; how long the awaited encoding takes is not modelled,
    and neither is console logging. *)

Abbreviation entity_ref := nat (only parsing).
Abbreviation promise_ref := nat (only parsing).

Inductive promise_state : Type :=
| Pending
| Fulfilled (v : value)
| Rejected (e : js_error).

(** A subscribed handler: its identity as a function object, and the
    values it passes to [reply] when called with a sender id and a payload. *)
Record MessageHandler : Type := mkHandler {
  h_id : nat;
  h_replies : string -> value -> list value
}.

Record EntityObj : Type := mkEntity {
  e_id : string;
  e_messageHandlers : list MessageHandler;
  e_pendingRequests : gmap string promise_ref;
  e_verbose : bool
}.

(** The object the listener is attached to: an ambient global that
    implements the message API, or the emitter kept under a global key. *)
Inductive emitter : Type :=
| HostEmitter
| CustomEmitter (key : string).

Inductive message_type : Type := Request | Response.

(** Continuations waiting behind an [await]. *)
Inductive job : Type :=
| JPost (type : message_type) (messageId from to : string) (payload : value)
| JInvoke (this : entity_ref) (handler : MessageHandler)
          (from : string) (payload : value) (messageId : string)
| JResolve (this : entity_ref) (messageId : string)
           (resolver : promise_ref) (payload : value).

Inductive event : Type :=
| Invoked (this : entity_ref) (handler : nat) (sender : string) (payload : value)
| Unhandled (e : js_error).

Record Statics : Type := mkStatics {
  sourceEntityIdSet : gset string;
  instances : gmap string entity_ref;
  isInitialized : bool;
  globalVerbose : bool;
  messageEmitter : option emitter
}.

Record Platform : Type := mkPlatform {
  hostEmitter : bool;             (* an ambient global implements the message API *)
  listeners : list emitter;       (* where [Entity.onWindowMessage] is attached *)
  posted : list (emitter * value);(* messages posted and not yet delivered *)
  uuid_stream : nat -> string;    (* the results of [crypto.randomUUID] *)
  uuid_next : nat;
  clock : Z                       (* [Date.now()] *)
}.

Record World : Type := mkWorld {
  statics : Statics;
  heap : list EntityObj;
  promises : list promise_state;
  jobs : list job;
  platform : Platform;
  trace : list event
}.

Definition set_statics (s : Statics) (w : World) : World :=
  mkWorld s (heap w) (promises w) (jobs w) (platform w) (trace w).
Definition set_heap (h : list EntityObj) (w : World) : World :=
  mkWorld (statics w) h (promises w) (jobs w) (platform w) (trace w).
Definition set_promises (p : list promise_state) (w : World) : World :=
  mkWorld (statics w) (heap w) p (jobs w) (platform w) (trace w).
Definition set_jobs (j : list job) (w : World) : World :=
  mkWorld (statics w) (heap w) (promises w) j (platform w) (trace w).
Definition set_platform (p : Platform) (w : World) : World :=
  mkWorld (statics w) (heap w) (promises w) (jobs w) p (trace w).
Definition set_trace (t : list event) (w : World) : World :=
  mkWorld (statics w) (heap w) (promises w) (jobs w) (platform w) t.

Definition set_instances (m : gmap string entity_ref) (s : Statics) : Statics :=
  mkStatics (sourceEntityIdSet s) m (isInitialized s) (globalVerbose s)
            (messageEmitter s).
Definition set_messageEmitter (em : option emitter) (s : Statics) : Statics :=
  mkStatics (sourceEntityIdSet s) (instances s) (isInitialized s)
            (globalVerbose s) em.
Definition set_listeners (l : list emitter) (p : Platform) : Platform :=
  mkPlatform (hostEmitter p) l (posted p) (uuid_stream p) (uuid_next p) (clock p).
Definition set_posted (l : list (emitter * value)) (p : Platform) : Platform :=
  mkPlatform (hostEmitter p) (listeners p) l (uuid_stream p) (uuid_next p) (clock p).
Definition set_uuid_next (n : nat) (p : Platform) : Platform :=
  mkPlatform (hostEmitter p) (listeners p) (posted p) (uuid_stream p) n (clock p).
Definition set_clock (t : Z) (p : Platform) : Platform :=
  mkPlatform (hostEmitter p) (listeners p) (posted p) (uuid_stream p)
             (uuid_next p) t.

Definition enqueue (j : job) (w : World) : World := set_jobs (jobs w ++ [j]) w.
Definition record (ev : event) (w : World) : World := set_trace (trace w ++ [ev]) w.

Definition update_entity (this : entity_ref) (f : EntityObj -> EntityObj) (w : World) : World :=
  match heap w !! this with
  | Some e => set_heap (<[this := f e]> (heap w)) w
  | None => w
  end.

(** Settling a promise; a promise already settled stays as it is. *)
Definition settle (p : promise_ref) (s : promise_state) (w : World) : World :=
  match promises w !! p with
  | Some Pending => set_promises (<[p := s]> (promises w)) w
  | _ => w
  end.

Definition emitter_eqb (a b : emitter) : bool :=
  match a, b with
  | HostEmitter, HostEmitter => true
  | CustomEmitter k, CustomEmitter k' => String.eqb k k'
  | _, _ => false
  end.

(** [addEventListener]: an [EventTarget] keeps one registration per
    listener, the custom emitter's [on] keeps every registration. *)
Definition addEventListener (em : emitter) (l : list emitter) : list emitter :=
  match em with
  | HostEmitter => if existsb (emitter_eqb em) l then l else l ++ [em]
  | CustomEmitter _ => l ++ [em]
  end.

(** [removeEventListener]: removes one registration, if there is one. *)
Fixpoint removeEventListener (em : emitter) (l : list emitter) : list emitter :=
  match l with
  | [] => []
  | x :: l' => if emitter_eqb em x then l' else x :: removeEventListener em l'
  end.

(** [createMessageEmitter] *)
Definition createMessageEmitter (pf : Platform)
    (enableAutoCustomEmitter : bool) (globalEmitterKey : string) : result emitter :=
  if hostEmitter pf then Ok HostEmitter
  else if negb enableAutoCustomEmitter then Err NoTransportAvailable
  else Ok (CustomEmitter globalEmitterKey).

(** [isMessageData] *)
Definition isMessageData (data : value) : bool :=
  is_object data
  && has_property "via" data
  && is_string (get_property "via" data)
  && string_is "bom-message" (get_property "via" data)
  && has_property "type" data
  && is_string (get_property "type" data)
  && (string_is "request" (get_property "type" data)
      || string_is "response" (get_property "type" data))
  && has_property "messageId" data
  && is_string (get_property "messageId" data)
  && has_property "from" data
  && is_string (get_property "from" data)
  && has_property "to" data
  && is_string (get_property "to" data)
  && has_property "payload" data
  && has_property "timestamp" data
  && is_number (get_property "timestamp" data).

(** [generateUniqueId] *)
Definition generateUniqueId (w : World) : string * World :=
  let pf := platform w in
  (uuid_stream pf (uuid_next pf),
   set_platform (set_uuid_next (S (uuid_next pf)) pf) w).

Definition type_name (t : message_type) : string :=
  match t with Request => "request" | Response => "response" end.

(** The [MessageData] object literal. *)
Definition message_data (type : message_type) (messageId from to : string)
    (payload : value) (timestamp : Z) : value :=
  VObj [("via", VStr "bom-message");
        ("type", VStr (type_name type));
        ("messageId", VStr messageId);
        ("from", VStr from);
        ("to", VStr to);
        ("payload", payload);
        ("timestamp", VNum timestamp)].

(** The string a property holds, for properties [isMessageData] checked. *)
Definition string_property (k : string) (data : value) : string :=
  match get_property k data with VStr s => s | _ => EmptyString end.

(** *** Static members of [Entity] *)

Record InitProps : Type := mkInitProps {
  sourceEntityIds : option (list string);
  enableAutoCustomEmitter : option bool;
  globalEmitterKey : option string;
  verbose : option bool
}.

Definition no_props : InitProps := mkInitProps None None None None.

(** [Entity.init(props)].  It throws when [createMessageEmitter] does,
    after the assignments that precede that call. *)
Definition Entity_init (w : World) (props : InitProps) : World * result unit :=
  let enable := default true (enableAutoCustomEmitter props) in
  let key := default "bmCustomEventEmitter" (globalEmitterKey props) in
  let verb := default false (verbose props) in
  if isInitialized (statics w) then (w, Ok tt)
  else
    let s := mkStatics (list_to_set (default [] (sourceEntityIds props)))
                       ∅ true verb (messageEmitter (statics w)) in
    match createMessageEmitter (platform w) enable key with
    | Err e => (set_statics s w, Err e)
    | Ok em =>
        (set_platform
           (set_listeners (addEventListener em (listeners (platform w))) (platform w))
           (set_statics (set_messageEmitter (Some em) s) w),
         Ok tt)
    end.

(** [Entity.destroy()] *)
Definition Entity_destroy (w : World) : World :=
  let w1 :=
    match messageEmitter (statics w) with
    | Some em =>
        set_platform
          (set_listeners (removeEventListener em (listeners (platform w))) (platform w)) w
    | None => w
    end in
  set_statics
    (mkStatics ∅ ∅ false (globalVerbose (statics w)) (messageEmitter (statics w))) w1.

(** [Entity.getById(id)] *)
Definition Entity_getById (w : World) (id : string) : option entity_ref :=
  instances (statics w) !! id.

(** *** Instance members *)

Record EntityProps : Type := mkEntityProps {
  p_verbose : option bool;
  errorOnDuplicate : option bool
}.

Definition no_entity_props : EntityProps := mkEntityProps None None.

(** [new Entity(id, props)]: the object under construction is allocated
    first; on a duplicate id the constructor throws or returns the
    registered instance instead of it. *)
Definition constructor (w : World) (id : string) (props : EntityProps)
    : World * result entity_ref :=
  let this := length (heap w) in
  let verb := default (globalVerbose (statics w)) (p_verbose props) in
  let w1 := set_heap (heap w ++ [mkEntity id [] ∅ verb]) w in
  match instances (statics w1) !! id with
  | Some existing =>
      if default false (errorOnDuplicate props)
      then (w1, Err (DuplicateEntityId id))
      else (w1, Ok existing)
  | None =>
      (set_statics (set_instances (<[id := this]> (instances (statics w1))) (statics w1)) w1,
       Ok this)
  end.

(** [entity.destroy()] *)
Definition destroy (w : World) (this : entity_ref) : World :=
  match heap w !! this with
  | Some e =>
      set_statics (set_instances (delete (e_id e) (instances (statics w))) (statics w)) w
  | None => w
  end.

Definition set_handlers (l : list MessageHandler) (e : EntityObj) : EntityObj :=
  mkEntity (e_id e) l (e_pendingRequests e) (e_verbose e).
Definition set_pending (m : gmap string promise_ref) (e : EntityObj) : EntityObj :=
  mkEntity (e_id e) (e_messageHandlers e) m (e_verbose e).

(** [entity.subscribeMessage(handler)] and the closure it returns. *)
Definition subscribeMessage (w : World) (this : entity_ref) (handler : MessageHandler) : World :=
  update_entity this
    (fun e => set_handlers (e_messageHandlers e ++ [handler]) e) w.

Definition unsubscribe (w : World) (this : entity_ref) (handler : MessageHandler) : World :=
  update_entity this
    (fun e => set_handlers
                (List.filter (fun h => negb (h_id h =? h_id handler)%nat)
                             (e_messageHandlers e)) e) w.

(** [entity.sendMessage(targetId, message)]: the part of the executor
    that runs before its [await], and the promise it returns. *)
Definition sendMessage (w : World) (this : entity_ref) (targetId : string)
    (message : value) : World * promise_ref :=
  let p := length (promises w) in
  let w0 := set_promises (promises w ++ [Pending]) w in
  match heap w0 !! this with
  | None => (w0, p)
  | Some e =>
      let w1 := match Entity_getById w0 (e_id e) with
                | None => settle p (Rejected EntityDestroyed) w0
                | Some _ => w0
                end in
      let '(messageId, w2) := generateUniqueId w1 in
      let w3 := update_entity this
                  (fun e => set_pending (<[messageId := p]> (e_pendingRequests e)) e) w2 in
      (enqueue (JPost Request messageId (e_id e) targetId
                      (encodeNestedFormData message)) w3,
       p)
  end.

(** The [reply] callback handed to a handler, up to its [await]. *)
Definition reply (this_id from messageId : string) (w : World) (response : value) : World :=
  enqueue (JPost Response messageId this_id from (encodeNestedFormData response)) w.

(** [entity.handleIncomingMessage(data)], up to the first [await] of
    each of its asynchronous parts. *)
Definition handleIncomingMessage (w : World) (this : entity_ref) (data : value) : World :=
  match heap w !! this with
  | None => w
  | Some e =>
      if string_is (e_id e) (get_property "from" data) then w
      else if string_is "request" (get_property "type" data) then
        let from := string_property "from" data in
        let payload := get_property "payload" data in
        let messageId := string_property "messageId" data in
        fold_left
          (fun w handler =>
             match decodeNestedFormData payload with
             | Ok decoded => enqueue (JInvoke this handler from decoded messageId) w
             | Err err => record (Unhandled err) w
             end)
          (e_messageHandlers e) w
      else if string_is "response" (get_property "type" data) then
        match e_pendingRequests e !! string_property "messageId" data with
        | Some resolver =>
            match decodeNestedFormData (get_property "payload" data) with
            | Ok decoded =>
                enqueue (JResolve this (string_property "messageId" data)
                                  resolver decoded) w
            | Err err => record (Unhandled err) w
            end
        | None => w
        end
      else w
  end.

(** [Entity.onWindowMessage(event)] *)
Definition Entity_onWindowMessage (w : World) (event : value) : World :=
  if negb (truthy event) || negb (is_object event) || negb (has_property "data" event)
  then w
  else
    let data := get_property "data" event in
    if negb (truthy data) || negb (isMessageData data) then w
    else if bool_decide (string_property "from" data ∈ sourceEntityIdSet (statics w))
    then w
    else match Entity_getById w (string_property "to" data) with
         | None => w
         | Some targetEntity => handleIncomingMessage w targetEntity data
         end.

(** *** Running the continuations *)

Definition run_job (w : World) (j : job) : World :=
  match j with
  | JPost type messageId from to payload =>
      let data := message_data type messageId from to payload (clock (platform w)) in
      match messageEmitter (statics w) with
      | Some em =>
          set_platform (set_posted (posted (platform w) ++ [(em, data)]) (platform w)) w
      | None => record (Unhandled NoEmitter) w
      end
  | JInvoke this handler from payload messageId =>
      let this_id := match heap w !! this with Some e => e_id e | None => EmptyString end in
      fold_left (reply this_id from messageId)
                (h_replies handler from payload)
                (record (Invoked this (h_id handler) from payload) w)
  | JResolve this messageId resolver payload =>
      update_entity this
        (fun e => set_pending (delete messageId (e_pendingRequests e)) e)
        (settle resolver (Fulfilled payload) w)
  end.

Definition job_weight (j : job) : nat :=
  match j with
  | JInvoke _ handler from payload _ => S (length (h_replies handler from payload))
  | _ => 1
  end.

Fixpoint run_jobs (fuel : nat) (w : World) : World :=
  match fuel with
  | O => w
  | S fuel' =>
      match jobs w with
      | [] => w
      | j :: rest => run_jobs fuel' (run_job (set_jobs rest w) j)
      end
  end.

(** Runs the queue until it is empty. *)
Definition drain (w : World) : World :=
  run_jobs (list_sum (List.map job_weight (jobs w))) w.

(** *** The transport *)

(** Delivery of the oldest posted message to the listener, once per
    registration on the emitter it was posted to. *)
Definition deliver (w : World) : World :=
  match posted (platform w) with
  | [] => w
  | (em, msg) :: rest =>
      let w1 := set_platform (set_posted rest (platform w)) w in
      let n := length (List.filter (emitter_eqb em) (listeners (platform w1))) in
      drain (Nat.iter n (fun w => Entity_onWindowMessage w (VObj [("data", msg)])) w1)
  end.

(** An event raised on the shared channel, whatever its origin. *)
Definition dispatch (w : World) (event : value) : World :=
  drain (Entity_onWindowMessage w event).

Definition initial_statics : Statics := mkStatics ∅ ∅ false false None.

Definition initial_world (pf : Platform) : World :=
  mkWorld initial_statics [] [] [] pf [].

(** ** Predicates and sample states for the statements below *)

(** A character that is neither whitespace, nor padding, nor a comma. *)
Definition plain_char (c : ascii) : bool :=
  negb (Base64.is_ascii_whitespace c) && negb (Base64.is_pad c)
  && negb (Ascii.eqb c ","%char).

Fixpoint no_char (c : ascii) (s : string) : bool :=
  match s with
  | EmptyString => true
  | String x s' => negb (Ascii.eqb x c) && no_char c s'
  end.

(** A token character that is not an upper-case letter. *)
Definition is_lower_token (c : ascii) : bool :=
  is_http_token c && negb (((65 <=? N_of_ascii c) && (N_of_ascii c <=? 90))%N).

(** A MIME type that survives the way through a data URL: a [File] can
    carry it (it is not empty and in the form the constructor stores),
    [readAsDataURL] writes it as it is, and it holds neither of the two
    separators [decodeFile] cuts the data URL at.  These are the types
    [type/subtype] made of lower-case token characters. *)
Definition type_ok (t : string) : bool :=
  negb (String.eqb t EmptyString) && String.eqb (normalize_type t) t
  && no_char ","%char t && no_char ";"%char t
  && String.eqb (content_type t) t.

Definition blob_ok (f : File) : bool :=
  type_ok (file_type f)
  && match file_bytes f with [] => false | _ :: _ => true end.

(** The order in which [Object.entries] lists keys: [a] may precede [b]. *)
Definition key_before (a b : string) : bool :=
  match array_index a, array_index b with
  | Some i, Some j => (i <? j)%N
  | Some _, None => true
  | None, Some _ => false
  | None, None => negb (String.eqb a b)
  end.

(** Distinct keys, array indices first and ascending. *)
Fixpoint keys_in_order (ks : list string) : bool :=
  match ks with
  | [] => true
  | k :: ks' => forallb (key_before k) ks' && keys_in_order ks'
  end.

Definition plain_keys (ks : list string) : bool :=
  forallb (fun k => negb (String.eqb k "__proto__")) ks.

Fixpoint distinct (ks : list string) : bool :=
  match ks with
  | [] => true
  | k :: ks' => negb (existsb (String.eqb k) ks') && distinct ks'
  end.

Definition entry_ok (e : form_entry) : bool :=
  match e with
  | FText _ => true
  | FFile f => blob_ok f
  end.

Definition form_ok (fd : FormData) : bool :=
  distinct (List.map fst fd) && plain_keys (List.map fst fd)
  && forallb (fun kv => entry_ok (snd kv)) fd.

(** The payload values of the round-trip property: scalars, strings
    that [decodeFile] does not accept, blobs, form containers, and
    arrays and objects of those; an object lists its keys the way a
    JavaScript object does, owns no ["__proto__"] key, and its encoding
    does not pass [isEncodedFormData]. *)
Fixpoint supported (v : value) : bool :=
  match v with
  | VStr _ => negb (is_ok (decodeFile v (VStr "unknown-filename")))
  | VFile f => blob_ok f
  | VForm fd => form_ok fd
  | VArr l => forallb supported l
  | VObj o =>
      keys_in_order (List.map fst o) && plain_keys (List.map fst o)
      && negb (isEncodedFormData (encodeNestedFormData v))
      && forallb (fun '(_, x) => supported x) o
  | _ => true
  end.

(** Two payloads with the same structure and field values, blobs being
    compared by [B] and the fields of a form container up to their order. *)
#[local] Unset Elimination Schemes.
Inductive payload_equiv (B : File -> File -> Prop) : value -> value -> Prop :=
| equiv_undefined : payload_equiv B VUndefined VUndefined
| equiv_null : payload_equiv B VNull VNull
| equiv_bool b : payload_equiv B (VBool b) (VBool b)
| equiv_num n : payload_equiv B (VNum n) (VNum n)
| equiv_str s : payload_equiv B (VStr s) (VStr s)
| equiv_file f g : B f g -> payload_equiv B (VFile f) (VFile g)
| equiv_form a b : Permutation a b -> payload_equiv B (VForm a) (VForm b)
| equiv_arr l m :
    Forall2 (payload_equiv B) l m -> payload_equiv B (VArr l) (VArr m)
| equiv_obj o p :
    Forall2 (fun x y => fst x = fst y /\ payload_equiv B (snd x) (snd y)) o p ->
    payload_equiv B (VObj o) (VObj p).
#[local] Set Elimination Schemes.

(** Same bytes and MIME type, the name being the decoder's placeholder. *)
Definition same_content (f g : File) : Prop :=
  file_type g = file_type f /\ file_bytes g = file_bytes f
  /\ file_name g = "unknown-filename".

Definition encode_entry (e : form_entry) : value :=
  match e with
  | FText s => encode_text_item s
  | FFile f => encode_file_item f
  end.

Definition is_text (e : form_entry) : bool :=
  match e with FText _ => true | FFile _ => false end.

Definition encode_field (kv : string * form_entry) : string * value :=
  (fst kv, encode_entry (snd kv)).

(** Assigning a list of properties in turn. *)
Definition assign_all (l : props) (acc : props) : props :=
  fold_left (fun acc kv => obj_assign (fst kv) (snd kv) acc) l acc.

(** The handler calls recorded in a trace. *)
Definition is_invocation (ev : event) : bool :=
  match ev with Invoked _ _ _ _ => true | Unhandled _ => false end.

Definition invocations (t : list event) : list event :=
  List.filter is_invocation t.

Definition job_invocations (j : job) : list event :=
  match j with
  | JInvoke this handler from payload _ => [Invoked this (h_id handler) from payload]
  | _ => []
  end.

(** What is wrong with a candidate envelope that [isMessageData] turns down. *)
Definition envelope_defect (data : value) : Prop :=
  string_is "bom-message" (get_property "via" data) = false
  \/ (string_is "request" (get_property "type" data) = false
      /\ string_is "response" (get_property "type" data) = false)
  \/ is_string (get_property "messageId" data) = false
  \/ is_string (get_property "from" data) = false
  \/ is_string (get_property "to" data) = false
  \/ is_number (get_property "timestamp" data) = false
  \/ has_property "payload" data = false.

(** An entity object that the registry does not hold. *)
Definition unregistered (w : World) (this : entity_ref) : Prop :=
  exists e, heap w !! this = Some e /\ Entity_getById w (e_id e) <> Some this.

(** Delivery of the oldest posted message up to the continuations it
    leaves behind. *)
Definition receive (w : World) : World :=
  match posted (platform w) with
  | [] => w
  | (em, msg) :: rest =>
      let w1 := set_platform (set_posted rest (platform w)) w in
      let n := length (List.filter (emitter_eqb em) (listeners (platform w1))) in
      Nat.iter n (fun w => Entity_onWindowMessage w (VObj [("data", msg)])) w1
  end.

(** The calls of the public interface and the events of the platform.
    A call that starts an [await] either runs together with the
    continuations it leaves behind ([step_send], [step_deliver],
    [step_dispatch]) or returns with them waiting ([step_send_call],
    [step_receive], [step_event]); a waiting continuation runs at any
    later time, in any order with the others ([step_continue]). *)
Inductive step : World -> World -> Prop :=
| step_init w props : step w (fst (Entity_init w props))
| step_static_destroy w : step w (Entity_destroy w)
| step_new w id props : step w (fst (constructor w id props))
| step_destroy w this : step w (destroy w this)
| step_subscribe w this handler : step w (subscribeMessage w this handler)
| step_unsubscribe w this handler : step w (unsubscribe w this handler)
| step_send w this targetId message :
    step w (drain (fst (sendMessage w this targetId message)))
| step_deliver w : step w (deliver w)
| step_dispatch w event :
    listeners (platform w) <> [] -> step w (dispatch w event)
| step_tick w t :
    (clock (platform w) <= t)%Z ->
    step w (set_platform (set_clock t (platform w)) w)
| step_send_call w this targetId message :
    step w (fst (sendMessage w this targetId message))
| step_receive w : step w (receive w)
| step_event w event :
    listeners (platform w) <> [] -> step w (Entity_onWindowMessage w event)
| step_continue w before j after :
    jobs w = before ++ j :: after ->
    step w (run_job (set_jobs (before ++ after) w) j).

Inductive reachable : World -> Prop :=
| reach_initial pf :
    listeners pf = [] -> posted pf = [] -> reachable (initial_world pf)
| reach_step w w' : reachable w -> step w w' -> reachable w'.

(** The ids of the entity objects, by reference. *)
Definition heap_ids (w : World) : list string := List.map e_id (heap w).

(** The part of the state the registry invariants speak about. *)
Definition skeleton (w : World) : Statics * list emitter * list string :=
  (statics w, listeners (platform w), heap_ids w).

(** Every registered reference denotes an entity object with that id. *)
Definition registry_inv (w : World) : Prop :=
  forall id r, Entity_getById w id = Some r -> heap_ids w !! r = Some id.

(** The listener is attached only while the registry is initialized, at
    most once, and to the current emitter. *)
Definition listener_inv (w : World) : Prop :=
  (isInitialized (statics w) = false -> listeners (platform w) = [])
  /\ (listeners (platform w) = []
      \/ exists em, messageEmitter (statics w) = Some em
                    /\ listeners (platform w) = [em]).

(** *** A sample run

    The README example: after [Entity.init()], entities "1" and "2" are
    created (instances 0 and 1); "2" subscribes a handler that replies
    "Hi" and a second one that echoes the payload and replies "again". *)
Definition sample_platform : Platform :=
  mkPlatform false [] [] (fun n => "uuid-" +:+ index_key n) 0 1000.

Definition reply_hi : MessageHandler := mkHandler 0 (fun _ _ => [VStr "Hi"]).
Definition reply_twice : MessageHandler :=
  mkHandler 1 (fun _ payload => [payload; VStr "again"]).

Definition sample_world : World :=
  let w0 := initial_world sample_platform in
  let w1 := fst (Entity_init w0 no_props) in
  let w2 := fst (constructor w1 "1" no_entity_props) in
  let w3 := fst (constructor w2 "2" no_entity_props) in
  subscribeMessage (subscribeMessage w3 1 reply_hi) 1 reply_twice.

Definition sample_request (payload : value) : value :=
  message_data Request "m-1" "1" "2" payload 1000.

Definition sample_event (data : value) : value := VObj [("data", data)].

(** The continuations a job leaves behind when it runs in [w]. *)
Definition job_spawns (w : World) (j : job) : list job :=
  match j with
  | JInvoke this handler from payload messageId =>
      let this_id := match heap w !! this with Some e => e_id e | None => EmptyString end in
      List.map (fun r => JPost Response messageId this_id from (encodeNestedFormData r))
               (h_replies handler from payload)
  | _ => []
  end.

(** The registry of [w] with [id] bound to [r]. *)
Definition register (id : string) (r : entity_ref) (w : World) : World :=
  set_statics (set_instances (<[id := r]> (instances (statics w))) (statics w)) w.

(** A run in which an id is registered anew after its first holder was
    destroyed: instance 0 is the destroyed one, instance 1 holds "a". *)
Definition reregistered_world : World :=
  let w1 := fst (Entity_init (initial_world sample_platform) no_props) in
  let w2 := fst (constructor w1 "a" no_entity_props) in
  let w3 := destroy w2 0 in
  fst (constructor w3 "a" no_entity_props).

(** A payload shaped like an encoded form container whose file item does
    not hold a data URL. *)
Definition malformed_form_payload : value :=
  VObj [("dataType", VStr "formData");
        ("items",
         VObj [("f", VObj [("dataType", VStr "file");
                           ("fileName", VStr "a.txt");
                           ("content", VStr "not a data URL")])])].

(** A form container holding an empty file, and what [sendMessage] or a
    reply puts on the wire for it. *)
Definition empty_file_form : value :=
  VForm [("f", FFile (mkFile "empty.txt" "text/plain" []))].

Definition empty_file_payload : value := encodeNestedFormData empty_file_form.


(** The sample run torn down and set up again, with the id "1"
    constructed anew: instance 0 is the former holder of "1", instance 2
    the present one. *)
Definition reinitialized_world : World :=
  let w1 := Entity_destroy sample_world in
  let w2 := fst (Entity_init w1 no_props) in
  fst (constructor w2 "1" no_entity_props).

(** ** Further predicates on payloads *)

(** A value that holds no [File] and no [FormData] at any depth. *)
Fixpoint transport_safe (v : value) : bool :=
  match v with
  | VFile _ | VForm _ => false
  | VArr l => forallb transport_safe l
  | VObj o => forallb (fun '(_, x) => transport_safe x) o
  | _ => true
  end.

(** Data without blobs and form containers, whose objects list their
    keys the way a JavaScript object does and own no ["__proto__"] key. *)
Fixpoint plain_data (v : value) : bool :=
  match v with
  | VFile _ | VForm _ => false
  | VArr l => forallb plain_data l
  | VObj o =>
      keys_in_order (List.map fst o) && plain_keys (List.map fst o)
      && forallb (fun '(_, x) => plain_data x) o
  | _ => true
  end.

(** No object owns a ["__proto__"] key and no form container has a
    field of that name, at any depth.  Assigning that key sets the
    prototype of the object being built, which the values here do not
    represent. *)
Fixpoint proto_free (v : value) : bool :=
  match v with
  | VForm fd => plain_keys (List.map fst fd)
  | VArr l => forallb proto_free l
  | VObj o => plain_keys (List.map fst o) && forallb (fun '(_, x) => proto_free x) o
  | _ => true
  end.

(** No object, at any depth, passes [isEncodedFormData]. *)
Fixpoint no_encoded_form (v : value) : bool :=
  match v with
  | VArr l => forallb no_encoded_form l
  | VObj o =>
      negb (isEncodedFormData v) && forallb (fun '(_, x) => no_encoded_form x) o
  | _ => true
  end.

(** The last entry of a form stored under [k] among those [keep] selects. *)
Fixpoint last_field (keep : form_entry -> bool) (k : string) (fd : FormData)
    : option form_entry :=
  match fd with
  | [] => None
  | (k', e) :: fd' =>
      match last_field keep k fd' with
      | Some x => Some x
      | None => if String.eqb k k' && keep e then Some e else None
      end
  end.

(** The entry whose encoding ends up under [k]: the last file entry if
    there is one, else the last text entry. *)
Definition stored_field (k : string) (fd : FormData) : option form_entry :=
  match last_field (fun e => negb (is_text e)) k fd with
  | Some e => Some e
  | None => last_field is_text k fd
  end.

(** The items of an encoded form. *)
Definition encoded_items (fd : FormData) : props :=
  store_file_items fd (store_text_items fd []).

(** ** Further notions for the messaging statements *)



(** A queued post whose payload came out of [encodeNestedFormData]. *)
Definition job_safe (j : job) : bool :=
  match j with
  | JPost _ _ _ _ payload => transport_safe payload
  | _ => true
  end.

(** A posted message that is a well-formed envelope with a payload
    free of blobs and form containers. *)
Definition wire_ok (m : emitter * value) : bool :=
  isMessageData (snd m) && transport_safe (get_property "payload" (snd m)).

(** [w'] differs from [w] at most by continuations added to the queue,
    none of them a post, and by events added to the trace. *)
Definition queue_ext (w w' : World) : Prop :=
  statics w' = statics w /\ heap w' = heap w /\ promises w' = promises w
  /\ platform w' = platform w
  /\ exists new, jobs w' = jobs w ++ new /\ forallb job_safe new = true.

(** Every promise of [w] is there in [w'], unchanged if it was settled. *)
Definition promises_kept (w w' : World) : Prop :=
  forall q st, promises w !! q = Some st ->
    exists st', promises w' !! q = Some st' /\ (st <> Pending -> st' = st).

(** Everything posted is a well-formed envelope with a payload free of
    blobs and form containers, and so is what the queued posts will post. *)
Definition wire_inv (w : World) : Prop :=
  forallb wire_ok (posted (platform w)) = true
  /\ forallb job_safe (jobs w) = true.

(** The sample run with the id "1" among the ignored sources, and one
    handler subscribed to entity "2". *)
Definition ignoring_world : World :=
  let w := fst (Entity_init (initial_world sample_platform)
                  (mkInitProps (Some ["1"]) None None None)) in
  let w := fst (constructor w "1" no_entity_props) in
  let w := fst (constructor w "2" no_entity_props) in
  subscribeMessage w 1 reply_hi.

(** * Properties *)

(** ** Base64: decoding inverts encoding *)

Ltac Zify.zify_post_hook ::= Z.to_euclidean_division_equations.

Lemma list_ind3 {A} (P : list A -> Prop) :
  P [] ->
  (forall a, P [a]) ->
  (forall a b, P [a; b]) ->
  (forall a b c l, P l -> P (a :: b :: c :: l)) ->
  forall l, P l.
Proof.
  intros H0 H1 H2 H3.
  fix IH 1.
  intros [|a [|b [|c l]]]; [exact H0 | apply H1 | apply H2 | apply H3, IH].
Qed.

Lemma digit_all (P : ascii -> bool) :
  forallb (fun k => P (Base64.digit (N.of_nat k))) (seq 0 64) = true ->
  forall n, (n < 64)%N -> P (Base64.digit n) = true.
Proof.
  intros Hall n Hn.
  rewrite forallb_forall in Hall.
  specialize (Hall (N.to_nat n)).
  rewrite N2Nat.id in Hall. apply Hall.
  apply in_seq. lia.
Qed.

Lemma index_digit n : (n < 64)%N -> Base64.index (Base64.digit n) = Some n.
Proof.
  intros Hn.
  assert (Hall : forallb
            (fun k => match Base64.index (Base64.digit (N.of_nat k)) with
                      | Some m => (m =? N.of_nat k)%N
                      | None => false
                      end) (seq 0 64) = true) by (vm_compute; reflexivity).
  rewrite forallb_forall in Hall.
  specialize (Hall (N.to_nat n)).
  rewrite N2Nat.id in Hall.
  destruct (Base64.index (Base64.digit n)) as [m|].
  - f_equal. apply N.eqb_eq, Hall, in_seq. lia.
  - discriminate Hall. apply in_seq. lia.
Qed.

Lemma digit_plain n : (n < 64)%N -> plain_char (Base64.digit n) = true.
Proof. apply digit_all. vm_compute. reflexivity. Qed.

Lemma enc3_sextets a b c :
  let x := N_of_ascii a in
  let y := N_of_ascii b in
  let z := N_of_ascii c in
  (x / 4 < 64 /\ (x mod 4) * 16 + y / 16 < 64 /\
   (y mod 16) * 4 + z / 64 < 64 /\ z mod 64 < 64 /\
   (x mod 4) * 16 < 64 /\ (y mod 16) * 4 < 64)%N.
Proof.
  intros x y z.
  pose proof (N_ascii_bounded a). pose proof (N_ascii_bounded b).
  pose proof (N_ascii_bounded c).
  subst x y z. repeat split; lia.
Qed.

Lemma dec4_enc3 a b c :
  let x := N_of_ascii a in
  let y := N_of_ascii b in
  let z := N_of_ascii c in
  Base64.dec4 (x / 4) ((x mod 4) * 16 + y / 16)
              ((y mod 16) * 4 + z / 64) (z mod 64) = [a; b; c].
Proof.
  intros x y z.
  pose proof (N_ascii_bounded a). pose proof (N_ascii_bounded b).
  pose proof (N_ascii_bounded c).
  unfold Base64.dec4.
  replace (x / 4 * 4 + ((x mod 4) * 16 + y / 16) / 16)%N with x by (subst x y; lia).
  replace ((((x mod 4) * 16 + y / 16) mod 16) * 16 + ((y mod 16) * 4 + z / 64) / 4)%N
    with y by (subst x y z; lia).
  replace ((((y mod 16) * 4 + z / 64) mod 4) * 64 + z mod 64)%N
    with z by (subst y z; lia).
  subst x y z. now rewrite !ascii_N_embedding.
Qed.

Lemma dec3_enc2 a b :
  let x := N_of_ascii a in
  let y := N_of_ascii b in
  Base64.dec3 (x / 4) ((x mod 4) * 16 + y / 16) ((y mod 16) * 4) = [a; b].
Proof.
  intros x y.
  pose proof (N_ascii_bounded a). pose proof (N_ascii_bounded b).
  unfold Base64.dec3.
  replace (x / 4 * 4 + ((x mod 4) * 16 + y / 16) / 16)%N with x by (subst x y; lia).
  replace ((((x mod 4) * 16 + y / 16) mod 16) * 16 + ((y mod 16) * 4) / 4)%N
    with y by (subst x y; lia).
  subst x y. now rewrite !ascii_N_embedding.
Qed.

Lemma dec2_enc1 a :
  let x := N_of_ascii a in
  Base64.dec2 (x / 4) ((x mod 4) * 16) = [a].
Proof.
  intros x. pose proof (N_ascii_bounded a).
  unfold Base64.dec2.
  replace (x / 4 * 4 + ((x mod 4) * 16) / 16)%N with x by (subst x; lia).
  subst x. now rewrite ascii_N_embedding.
Qed.

Lemma decode_digits_body bs : Base64.decode_digits (Base64.body bs) = Some bs.
Proof.
  induction bs as [|a|a b|a b c rest IH] using list_ind3.
  - reflexivity.
  - destruct (enc3_sextets a a a) as (H0 & _ & _ & _ & H4 & _).
    cbn [Base64.body Base64.enc1 Base64.decode_digits].
    rewrite !index_digit by assumption. now rewrite dec2_enc1.
  - destruct (enc3_sextets a b b) as (H0 & H1 & _ & _ & _ & H5).
    cbn [Base64.body Base64.enc2 Base64.decode_digits].
    rewrite !index_digit by assumption. now rewrite dec3_enc2.
  - destruct (enc3_sextets a b c) as (H0 & H1 & H2 & H3 & _ & _).
    cbn [Base64.body Base64.enc3 Base64.decode_digits app].
    rewrite !index_digit by assumption. rewrite IH. now rewrite dec4_enc3.
Qed.

Lemma body_plain bs : forallb plain_char (Base64.body bs) = true.
Proof.
  induction bs as [|a|a b|a b c rest IH] using list_ind3.
  - reflexivity.
  - destruct (enc3_sextets a a a) as (H0 & _ & _ & _ & H4 & _).
    cbn [Base64.body Base64.enc1 forallb].
    now rewrite !digit_plain by assumption.
  - destruct (enc3_sextets a b b) as (H0 & H1 & _ & _ & _ & H5).
    cbn [Base64.body Base64.enc2 forallb].
    now rewrite !digit_plain by assumption.
  - destruct (enc3_sextets a b c) as (H0 & H1 & H2 & H3 & _ & _).
    cbn [Base64.body Base64.enc3 forallb app].
    now rewrite !digit_plain, IH by assumption.
Qed.

Lemma padding_step a b c bs :
  Base64.padding (a :: b :: c :: bs) = Base64.padding bs.
Proof.
  unfold Base64.padding.
  replace (length (a :: b :: c :: bs)) with (length bs + 1 * 3)%nat
    by (simpl; lia).
  now rewrite Nat.Div0.mod_add.
Qed.

Lemma encode_length bs :
  (length (Base64.encode bs) mod 4 = 0 /\ length (Base64.body bs) mod 4 <> 1)%nat.
Proof.
  unfold Base64.encode.
  induction bs as [|a|a b|a b c rest IH] using list_ind3;
    try (cbn; split; [reflexivity|discriminate]).
  rewrite padding_step.
  cbn [Base64.body Base64.enc3 app length] in *.
  rewrite length_app in *. lia.
Qed.

Lemma plain_not_whitespace cs :
  forallb plain_char cs = true ->
  List.filter (fun c => negb (Base64.is_ascii_whitespace c)) cs = cs.
Proof.
  induction cs as [|c cs IH]; [reflexivity|].
  cbn [forallb List.filter]. intros H.
  apply andb_prop in H as [Hc Hcs].
  unfold plain_char in Hc.
  destruct (Base64.is_ascii_whitespace c); [discriminate|].
  cbn. now rewrite IH.
Qed.

Lemma padding_cases bs :
  Base64.padding bs = [] \/ Base64.padding bs = ["="%char]
  \/ Base64.padding bs = ["="%char; "="%char].
Proof.
  unfold Base64.padding.
  destruct (length bs mod 3)%nat as [|[|[|n]]]; auto.
Qed.

Lemma plain_not_pad c : plain_char c = true -> Base64.is_pad c = false.
Proof.
  unfold plain_char. destruct (Base64.is_pad c); [|reflexivity].
  now rewrite andb_false_r.
Qed.

Lemma strip_rev_plain pad r :
  pad = [] \/ pad = ["="%char] \/ pad = ["="%char; "="%char] ->
  forallb plain_char r = true ->
  Base64.strip_rev (rev pad ++ r) = r.
Proof.
  intros [-> | [-> | ->]] Hr; cbn [rev app]; unfold Base64.strip_rev.
  - destruct r as [|p [|q r]]; [reflexivity| |];
      cbn [forallb] in Hr; apply andb_prop in Hr as [Hp _];
      now rewrite (plain_not_pad _ Hp).
  - destruct r as [|p r]; [reflexivity|].
    cbn [forallb] in Hr; apply andb_prop in Hr as [Hp _].
    now rewrite (plain_not_pad _ Hp).
  - reflexivity.
Qed.

Lemma strip_padding_encode bs :
  Base64.strip_padding (Base64.encode bs) = Base64.body bs.
Proof.
  unfold Base64.strip_padding, Base64.encode.
  rewrite rev_app_distr, strip_rev_plain.
  - apply rev_involutive.
  - apply padding_cases.
  - pose proof (body_plain bs) as H. rewrite forallb_forall in *.
    intros x Hx. apply H. now apply in_rev.
Qed.

Lemma encode_plain_or_pad bs :
  List.filter (fun c => negb (Base64.is_ascii_whitespace c)) (Base64.encode bs)
  = Base64.encode bs.
Proof.
  unfold Base64.encode. rewrite List.filter_app.
  rewrite plain_not_whitespace by apply body_plain.
  f_equal.
  destruct (padding_cases bs) as [-> | [-> | ->]]; reflexivity.
Qed.

(** [atob] inverts the base64 text of a data URL. *)
Lemma atob_encode bs :
  Base64.atob (string_of_list_ascii (Base64.encode bs)) = Some bs.
Proof.
  unfold Base64.atob.
  rewrite list_ascii_of_string_of_list_ascii, encode_plain_or_pad.
  destruct (encode_length bs) as [H0 H1].
  rewrite H0. cbn [Nat.eqb].
  rewrite strip_padding_encode.
  destruct (length (Base64.body bs) mod 4 =? 1)%nat eqn:E.
  - apply Nat.eqb_eq in E. contradiction.
  - apply decode_digits_body.
Qed.

Lemma encode_no_comma bs :
  forallb (fun c => negb (Ascii.eqb c ","%char)) (Base64.encode bs) = true.
Proof.
  unfold Base64.encode. rewrite forallb_app.
  apply andb_true_intro. split.
  - pose proof (body_plain bs) as H. rewrite forallb_forall in *.
    intros x Hx. specialize (H x Hx). unfold plain_char in H.
    now apply andb_prop in H as [_ H].
  - destruct (padding_cases bs) as [-> | [-> | ->]]; reflexivity.
Qed.

Lemma encode_nonempty bs : bs <> [] -> Base64.encode bs <> [].
Proof.
  intros Hne E. apply Hne.
  pose proof (atob_encode bs) as H. rewrite E in H. cbn in H.
  now injection H.
Qed.

(** ** Data URLs: [decodeFile] inverts [readAsDataURL] *)

Lemma append_cons x (a b : string) : String x a +:+ b = String x (a +:+ b).
Proof. reflexivity. Qed.

Lemma append_nil (b : string) : EmptyString +:+ b = b.
Proof. reflexivity. Qed.

Lemma append_assoc (a b c : string) : (a +:+ b) +:+ c = a +:+ (b +:+ c).
Proof.
  induction a as [|x a IH]; [reflexivity|].
  now rewrite !append_cons, IH.
Qed.

Lemma no_char_app c a b :
  no_char c (a +:+ b) = no_char c a && no_char c b.
Proof.
  induction a as [|x a IH]; [reflexivity|].
  rewrite append_cons. cbn [no_char]. now rewrite IH, andb_assoc.
Qed.

Lemma no_char_of_list c l :
  forallb (fun x => negb (Ascii.eqb x c)) l = true ->
  no_char c (string_of_list_ascii l) = true.
Proof.
  induction l as [|x l IH]; cbn; [reflexivity|].
  intros H. apply andb_prop in H as [-> H]. cbn. auto.
Qed.

Lemma split_on_none sep s : no_char sep s = true -> split_on sep s = [s].
Proof.
  induction s as [|x s IH]; cbn; [reflexivity|].
  intros H. apply andb_prop in H as [Hx Hs].
  apply negb_true_iff in Hx. rewrite Hx, IH by assumption. reflexivity.
Qed.

Lemma split_on_app sep a b :
  no_char sep a = true ->
  split_on sep (a +:+ String sep b) = a :: split_on sep b.
Proof.
  induction a as [|x a IH].
  - intros _. rewrite append_nil. cbn. now rewrite Ascii.eqb_refl.
  - rewrite append_cons. cbn [no_char split_on].
    intros H. apply andb_prop in H as [Hx Hs].
    apply negb_true_iff in Hx. rewrite Hx, IH by assumption. reflexivity.
Qed.

Lemma printable_not_terminator c :
  is_printable c = true -> is_line_terminator c = false.
Proof.
  unfold is_printable, is_line_terminator. intros H.
  apply andb_prop in H as [H _]. apply N.leb_le in H.
  apply orb_false_intro; apply Ascii.eqb_neq; intros ->; cbn in H; lia.
Qed.

Lemma lazy_until_semicolon_app t r :
  forallb is_printable (list_ascii_of_string t) = true ->
  no_char ";"%char t = true ->
  lazy_until_semicolon (t +:+ String ";" r) = Some t.
Proof.
  induction t as [|x t IH]; [reflexivity|].
  rewrite append_cons. cbn [list_ascii_of_string forallb no_char lazy_until_semicolon].
  intros Hp Hs.
  apply andb_prop in Hp as [Hx Hp]. apply andb_prop in Hs as [Hn Hs].
  apply negb_true_iff in Hn.
  rewrite Hn, (printable_not_terminator _ Hx), IH by assumption. reflexivity.
Qed.

Lemma type_ok_printable t :
  type_ok t = true -> forallb is_printable (list_ascii_of_string t) = true.
Proof.
  unfold type_ok, normalize_type. intros H.
  apply andb_prop in H as [H _].
  apply andb_prop in H as [H _]. apply andb_prop in H as [H _].
  apply andb_prop in H as [Hne Hnorm].
  destruct (forallb is_printable (list_ascii_of_string t)); [reflexivity|].
  apply String.eqb_eq in Hnorm. subst t. discriminate.
Qed.

Lemma decodeFile_readAsDataURL f name :
  blob_ok f = true ->
  decodeFile (VStr (readAsDataURL f)) (VStr name)
  = Ok (mkFile name (file_type f) (file_bytes f)).
Proof.
  intros Hok. unfold blob_ok in Hok. apply andb_prop in Hok as [Ht Hb].
  pose proof (type_ok_printable _ Ht) as Hprint.
  unfold type_ok in Ht.
  apply andb_prop in Ht as [Ht Hmedia].
  apply andb_prop in Ht as [Ht Hsemi]. apply andb_prop in Ht as [Ht Hcomma].
  apply andb_prop in Ht as [Hne Hnorm].
  apply String.eqb_eq in Hnorm. apply String.eqb_eq in Hmedia.
  unfold decodeFile, readAsDataURL. rewrite Hmedia.
  set (t := file_type f) in *.
  set (b64 := string_of_list_ascii (Base64.encode (file_bytes f))).
  replace ("data:" +:+ t +:+ ";base64," +:+ b64)
    with (("data:" +:+ t +:+ ";base64") +:+ String "," b64)
    by (now rewrite !append_assoc).
  rewrite split_on_app.
  2:{ rewrite !no_char_app, Hcomma. reflexivity. }
  rewrite split_on_none.
  2:{ apply no_char_of_list, encode_no_comma. }
  cbn [nth].
  replace (String.eqb ("data:" +:+ t +:+ ";base64") EmptyString) with false by reflexivity.
  assert (Hb64 : String.eqb b64 EmptyString = false).
  { apply String.eqb_neq. intros E.
    apply (f_equal list_ascii_of_string) in E. subst b64.
    rewrite list_ascii_of_string_of_list_ascii in E. cbn in E.
    apply encode_nonempty in E; [exact E|].
    destruct (file_bytes f); [discriminate|congruence]. }
  rewrite Hb64. cbn [orb].
  replace (match_mime ("data:" +:+ t +:+ ";base64")) with (Some t).
  2:{ rewrite !append_cons, append_nil. cbn [match_mime Ascii.eqb Bool.eqb].
      now rewrite lazy_until_semicolon_app. }
  subst b64. rewrite atob_encode.
  unfold new_File. cbn. now rewrite Hnorm.
Qed.

(** ** Objects: assignment preserves the enumeration order *)

(** ** The types [readAsDataURL] writes as they are *)

Lemma lower_token_facts c :
  is_lower_token c = true ->
  is_printable c = true /\ ascii_lower c = c
  /\ is_http_token c = true /\ is_http_whitespace c = false
  /\ Ascii.eqb c ","%char = false /\ Ascii.eqb c ";"%char = false
  /\ Ascii.eqb c "/"%char = false.
Proof.
  destruct c as [[] [] [] [] [] [] [] []]; vm_compute; intros H;
    try discriminate; repeat split.
Qed.

Lemma take_until_stop stop (a : list ascii) c r :
  forallb (fun x => negb (stop x)) a = true -> stop c = true ->
  take_until stop (a ++ c :: r) = (a, c :: r).
Proof.
  intros Ha Hc. induction a as [|x a IH]; cbn.
  - now rewrite Hc.
  - cbn in Ha. apply andb_prop in Ha as [Hx Ha]. apply negb_true_iff in Hx.
    now rewrite Hx, (IH Ha).
Qed.

Lemma take_until_all stop (a : list ascii) :
  forallb (fun x => negb (stop x)) a = true -> take_until stop a = (a, []).
Proof.
  intros Ha. induction a as [|x a IH]; cbn; [reflexivity|].
  cbn in Ha. apply andb_prop in Ha as [Hx Ha]. apply negb_true_iff in Hx.
  now rewrite Hx, (IH Ha).
Qed.

Lemma trim_end_last (l : list ascii) c :
  is_http_whitespace c = false -> trim_end (l ++ [c]) = l ++ [c].
Proof.
  intros Hc. unfold trim_end. rewrite rev_app_distr. cbn. rewrite Hc.
  cbn. now rewrite rev_involutive.
Qed.

Lemma forallb_lower_token (P : ascii -> bool) (l : list ascii) :
  (forall c, is_lower_token c = true -> P c = true) ->
  forallb is_lower_token l = true -> forallb P l = true.
Proof.
  intros H. induction l as [|c l IH]; cbn; [reflexivity|].
  intros Hl. apply andb_prop in Hl as [Hc Hl]. now rewrite (H c Hc), IH.
Qed.

Lemma map_lower_token (l : list ascii) :
  forallb is_lower_token l = true -> List.map ascii_lower l = l.
Proof.
  induction l as [|c l IH]; cbn; [reflexivity|].
  intros Hl. apply andb_prop in Hl as [Hc Hl].
  destruct (lower_token_facts c Hc) as (_ & -> & _). now rewrite IH.
Qed.

Lemma no_char_string_of_list c (l : list ascii) :
  forallb (fun x => negb (Ascii.eqb x c)) l = true ->
  no_char c (string_of_list_ascii l) = true.
Proof. apply no_char_of_list. Qed.

(** Every type [type/subtype] of lower-case token characters goes
    through a data URL unchanged. *)
Lemma token_type_ok (a b : list ascii) :
  a <> [] -> b <> [] ->
  forallb is_lower_token a = true -> forallb is_lower_token b = true ->
  type_ok (string_of_list_ascii (a ++ "/"%char :: b)) = true.
Proof.
  intros Ha Hb Hta Htb.
  set (l := a ++ "/"%char :: b).
  assert (Hl : forallb (fun c => is_lower_token c || Ascii.eqb c "/"%char) l = true).
  { unfold l. rewrite forallb_app. cbn [forallb].
    rewrite (forallb_lower_token _ a), (forallb_lower_token _ b); auto;
      intros c Hc; now rewrite Hc. }
  assert (Hfacts : forall c, is_lower_token c || Ascii.eqb c "/"%char = true ->
            is_printable c = true /\ ascii_lower c = c
            /\ Ascii.eqb c ","%char = false /\ Ascii.eqb c ";"%char = false).
  { intros c Hc. apply orb_prop in Hc as [Hc|Hc].
    - destruct (lower_token_facts c Hc) as (H1 & H2 & _ & _ & H3 & H4 & _). auto.
    - apply Ascii.eqb_eq in Hc. subst c. repeat split. }
  assert (Hprint : forallb is_printable l = true).
  { revert Hl. clear -Hfacts. induction l as [|c l IH]; cbn; [reflexivity|].
    intros H. apply andb_prop in H as [Hc H].
    destruct (Hfacts c Hc) as (-> & _). now rewrite IH. }
  assert (Hlow : List.map ascii_lower l = l).
  { revert Hl. clear -Hfacts. induction l as [|c l IH]; cbn; [reflexivity|].
    intros H. apply andb_prop in H as [Hc H].
    destruct (Hfacts c Hc) as (_ & -> & _). now rewrite IH. }
  assert (Hno : forall x, (x = ","%char \/ x = ";"%char) ->
                          forallb (fun c => negb (Ascii.eqb c x)) l = true).
  { intros x Hx. revert Hl. clear -Hfacts Hx. induction l as [|c l IH]; cbn; [reflexivity|].
    intros H. apply andb_prop in H as [Hc H].
    destruct (Hfacts c Hc) as (_ & _ & H1 & H2).
    rewrite (IH H), andb_true_r. destruct Hx as [-> | ->]; now rewrite ?H1, ?H2. }
  assert (Hparse : content_type (string_of_list_ascii l) = string_of_list_ascii l).
  { unfold content_type, parse_mime. rewrite list_ascii_of_string_of_list_ascii.
    assert (Hhead : skip_while is_http_whitespace l = l).
    { unfold l. destruct a as [|c a]; [congruence|]. cbn.
      cbn in Hta. apply andb_prop in Hta as [Hc _].
      destruct (lower_token_facts c Hc) as (_ & _ & _ & -> & _). reflexivity. }
    rewrite Hhead.
    destruct (exists_last Hb) as (b' & z & Ez).
    assert (Hz : is_http_whitespace z = false).
    { rewrite Ez, forallb_app in Htb. apply andb_prop in Htb as [_ Hz].
      cbn in Hz. apply andb_prop in Hz as [Hz _].
      now destruct (lower_token_facts z Hz) as (_ & _ & _ & ? & _). }
    assert (Htrim : trim_end l = l).
    { unfold l. rewrite Ez.
      replace (a ++ "/"%char :: b' ++ [z]) with ((a ++ "/"%char :: b') ++ [z])
        by (now rewrite <- app_assoc).
      now apply trim_end_last. }
    rewrite Htrim. unfold l.
    rewrite take_until_stop; [|apply (forallb_lower_token _ a); [|exact Hta]|reflexivity].
    2:{ intros c Hc. destruct (lower_token_facts c Hc) as (_ & _ & _ & _ & _ & _ & ->).
        reflexivity. }
    assert (Hlen : forall x : list ascii, x <> [] -> (length x =? 0)%nat = false)
      by (intros [|? ?] Hx; [congruence|reflexivity]).
    rewrite (Hlen a Ha).
    rewrite (forallb_lower_token is_http_token a) by
      (exact Hta || (intros c Hc; now destruct (lower_token_facts c Hc) as (_ & _ & ? & _))).
    cbn [orb negb].
    rewrite take_until_all.
    2:{ apply (forallb_lower_token _ b); [|exact Htb]. intros c Hc.
        destruct (lower_token_facts c Hc) as (_ & _ & _ & _ & _ & H & _).
        unfold is_semicolon. now rewrite H. }
    assert (Hb' : trim_end b = b) by (rewrite Ez; now apply trim_end_last).
    rewrite Hb', (Hlen b Hb).
    rewrite (forallb_lower_token is_http_token b) by
      (exact Htb || (intros c Hc; now destruct (lower_token_facts c Hc) as (_ & _ & ? & _))).
    cbn [orb negb length mime_parameters].
    unfold serialize_mime. cbn [mime_type mime_subtype mime_params flat_map].
    rewrite (map_lower_token a Hta), (map_lower_token b Htb), app_nil_r.
    reflexivity. }
  unfold type_ok. rewrite Hparse, String.eqb_refl, andb_true_r.
  rewrite !no_char_string_of_list by (apply Hno; auto).
  rewrite !andb_true_r.
  unfold normalize_type. rewrite list_ascii_of_string_of_list_ascii, Hprint, Hlow.
  rewrite String.eqb_refl, andb_true_r.
  apply negb_true_iff, String.eqb_neq. intros E.
  apply (f_equal list_ascii_of_string) in E.
  rewrite list_ascii_of_string_of_list_ascii in E. unfold l in E.
  destruct a; discriminate.
Qed.

Lemma value_ind (P : value -> Prop) :
  P VUndefined -> P VNull ->
  (forall b, P (VBool b)) -> (forall n, P (VNum n)) -> (forall s, P (VStr s)) ->
  (forall f, P (VFile f)) -> (forall fd, P (VForm fd)) ->
  (forall l, Forall P l -> P (VArr l)) ->
  (forall o, Forall (fun kv => P (snd kv)) o -> P (VObj o)) ->
  forall v, P v.
Proof.
  intros HU HN HB HZ HS HF HFD HA HO.
  fix IH 1.
  intros [ | | b | n | s | f | fd | l | o];
    [exact HU | exact HN | apply HB | apply HZ | apply HS | apply HF
     | apply HFD | | ].
  - apply HA. induction l as [|x l IHl]; constructor; [apply IH | exact IHl].
  - apply HO. induction o as [|[k x] o IHo]; constructor; [apply IH | exact IHo].
Qed.

Lemma key_before_irrefl k : key_before k k = false.
Proof.
  unfold key_before. destruct (array_index k).
  - apply N.ltb_irrefl.
  - now rewrite String.eqb_refl.
Qed.

Lemma key_before_neq a k : key_before a k = true -> a <> k.
Proof. intros H ->. now rewrite key_before_irrefl in H. Qed.

Lemma obj_has_fresh k (o : props) :
  (forall a, In a (List.map fst o) -> a <> k) -> obj_has k o = false.
Proof.
  unfold obj_has. induction o as [|[k' v'] o IH]; cbn; [reflexivity|].
  intros H. destruct (String.eqb_spec k k') as [->|Hne].
  - exfalso. apply (H k'); auto.
  - apply IH. intros a Ha. apply H. auto.
Qed.

Lemma prop_insert_index_end i k v (o : props) :
  (forall a, In a (List.map fst o) ->
             exists j, array_index a = Some j /\ (j < i)%N) ->
  prop_insert_index i k v o = o ++ [(k, v)].
Proof.
  induction o as [|[k' v'] o IH]; cbn; [reflexivity|].
  intros H. destruct (H k') as (j & -> & Hj); [auto|].
  destruct (N.ltb_spec i j); [lia|].
  f_equal. apply IH. intros a Ha. apply H. auto.
Qed.

Lemma obj_define_end k v (o : props) :
  forallb (fun a => key_before a k) (List.map fst o) = true ->
  obj_define k v o = o ++ [(k, v)].
Proof.
  intros H. rewrite forallb_forall in H.
  unfold obj_define. rewrite obj_has_fresh.
  2:{ intros a Ha. apply key_before_neq. auto. }
  destruct (array_index k) as [i|] eqn:Ek; [|reflexivity].
  apply prop_insert_index_end. intros a Ha.
  specialize (H a Ha). unfold key_before in H. rewrite Ek in H.
  destruct (array_index a) as [j|]; [|discriminate].
  exists j. split; [reflexivity|]. now apply N.ltb_lt.
Qed.

Lemma keys_in_order_middle l1 k l2 :
  keys_in_order (l1 ++ k :: l2) = true ->
  forallb (fun a => key_before a k) l1 = true.
Proof.
  induction l1 as [|a l1 IH]; cbn; [reflexivity|].
  intros H. apply andb_prop in H as [Ha Hrest].
  rewrite forallb_app in Ha. apply andb_prop in Ha as [_ Ha].
  cbn in Ha. apply andb_prop in Ha as [-> _]. cbn. auto.
Qed.

Lemma assign_entries_ordered f (o acc : props) :
  keys_in_order (List.map fst acc ++ List.map fst o) = true ->
  plain_keys (List.map fst o) = true ->
  assign_entries f o acc
  = acc ++ List.map (fun kv => (fst kv, f (snd kv))) o.
Proof.
  revert acc. induction o as [|[k v] o IH]; intros acc Hord Hplain; cbn.
  - now rewrite app_nil_r.
  - cbn in Hplain. apply andb_prop in Hplain as [Hk Hplain].
    unfold obj_assign. apply negb_true_iff in Hk. rewrite Hk.
    cbn in Hord. rewrite obj_define_end by (eapply keys_in_order_middle; eauto).
    rewrite IH; [now rewrite <- app_assoc| |assumption].
    now rewrite List.map_app, <- app_assoc.
Qed.

Lemma try_assign_entries_ordered g (o o' acc : props) :
  Forall2 (fun x y => fst x = fst y /\ g (snd x) = Ok (snd y)) o o' ->
  keys_in_order (List.map fst acc ++ List.map fst o) = true ->
  plain_keys (List.map fst o) = true ->
  try_assign_entries g o acc = Ok (acc ++ o').
Proof.
  intros HF. revert acc.
  induction HF as [|[k v] [k' v'] o o' [Hk Hv] HF IH]; intros acc Hord Hplain; cbn.
  - now rewrite app_nil_r.
  - cbn in Hk, Hv. subst k'. rewrite Hv. cbn [bind].
    cbn in Hplain. apply andb_prop in Hplain as [Hk Hplain].
    unfold obj_assign. apply negb_true_iff in Hk. rewrite Hk.
    cbn in Hord. rewrite obj_define_end by (eapply keys_in_order_middle; eauto).
    rewrite IH; [now rewrite <- app_assoc| |assumption].
    now rewrite List.map_app, <- app_assoc.
Qed.

Lemma try_map_Forall2 g (l l' : list value) :
  Forall2 (fun x y => g x = Ok y) l l' -> try_map g l = Ok l'.
Proof.
  induction 1 as [|x y l l' Hx HF IH]; cbn; [reflexivity|].
  now rewrite Hx, IH.
Qed.

(** ** Form containers: every field is stored once and read back *)

Lemma store_text_items_assign fd acc :
  store_text_items fd acc
  = assign_all (List.map encode_field (List.filter (fun kv => is_text (snd kv)) fd)) acc.
Proof.
  revert acc. induction fd as [|[k [s|f]] fd IH]; intros acc; cbn;
    [reflexivity| |]; apply IH.
Qed.

Lemma store_file_items_assign fd acc :
  store_file_items fd acc
  = assign_all (List.map encode_field
                  (List.filter (fun kv => negb (is_text (snd kv))) fd)) acc.
Proof.
  revert acc. induction fd as [|[k [s|f]] fd IH]; intros acc; cbn;
    [reflexivity| |]; apply IH.
Qed.

Lemma prop_insert_index_perm i k v (o : props) :
  Permutation (prop_insert_index i k v o) (o ++ [(k, v)]).
Proof.
  induction o as [|[k' v'] o IH]; cbn; [reflexivity|].
  destruct (array_index k') as [j|].
  - destruct (i <? j)%N.
    + change ((k', v') :: o ++ [(k, v)]) with (((k', v') :: o) ++ [(k, v)]).
      now rewrite <- Permutation_cons_append.
    + now rewrite IH.
  - change ((k', v') :: o ++ [(k, v)]) with (((k', v') :: o) ++ [(k, v)]).
    now rewrite <- Permutation_cons_append.
Qed.

Lemma obj_assign_perm k v (o : props) :
  ~ In k (List.map fst o) ->
  String.eqb k "__proto__" = false ->
  Permutation (obj_assign k v o) (o ++ [(k, v)]).
Proof.
  intros Hfresh Hk. unfold obj_assign, obj_define. rewrite Hk.
  rewrite obj_has_fresh by (intros a Ha ->; contradiction).
  destruct (array_index k); [apply prop_insert_index_perm|reflexivity].
Qed.

Lemma assign_all_perm (l acc : props) :
  List.NoDup (List.map fst acc ++ List.map fst l) ->
  plain_keys (List.map fst l) = true ->
  Permutation (assign_all l acc) (acc ++ l).
Proof.
  unfold assign_all. revert acc.
  induction l as [|[k v] l IH]; intros acc Hnd Hplain; cbn.
  - now rewrite app_nil_r.
  - cbn in Hplain. apply andb_prop in Hplain as [Hk Hplain].
    apply negb_true_iff in Hk.
    assert (Hfresh : ~ In k (List.map fst acc)).
    { cbn in Hnd. apply NoDup_remove_2 in Hnd. intros Hin. apply Hnd.
      apply in_or_app. now left. }
    pose proof (obj_assign_perm k v acc Hfresh Hk) as Hp.
    rewrite IH; [| |assumption].
    + rewrite Hp, <- app_assoc. reflexivity.
    + rewrite Hp, List.map_app, <- app_assoc. exact Hnd.
Qed.

Lemma distinct_NoDup ks : distinct ks = true -> List.NoDup ks.
Proof.
  induction ks as [|k ks IH]; cbn; [constructor|].
  intros H. apply andb_prop in H as [Hk Hks].
  constructor; [|auto].
  intros Hin. apply negb_true_iff in Hk.
  assert (existsb (String.eqb k) ks = true); [|congruence].
  apply existsb_exists. exists k. split; [assumption|apply String.eqb_refl].
Qed.

Lemma filter_split {A} (P : A -> bool) (l : list A) :
  Permutation (List.filter P l ++ List.filter (fun x => negb (P x)) l) l.
Proof.
  induction l as [|x l IH]; cbn; [reflexivity|].
  destruct (P x); cbn.
  - now rewrite IH.
  - now rewrite <- Permutation_middle, IH.
Qed.

Lemma plain_keys_perm ks ks' :
  Permutation ks ks' -> plain_keys ks = true -> plain_keys ks' = true.
Proof.
  unfold plain_keys. intros Hp H. rewrite forallb_forall in *.
  intros x Hx. apply H. eapply Permutation_in; [symmetry|]; eauto.
Qed.

Lemma plain_keys_filter {A} (P : string * A -> bool) (l : list (string * A)) :
  plain_keys (List.map fst l) = true ->
  plain_keys (List.map fst (List.filter P l)) = true.
Proof.
  unfold plain_keys. rewrite !forallb_forall. intros H x Hx. apply H.
  apply in_map_iff in Hx as (kv & <- & Hkv). apply in_map.
  now apply List.filter_In in Hkv as [Hkv _].
Qed.

Lemma map_fst_encode_field l :
  List.map fst (List.map encode_field l) = List.map fst l.
Proof. now rewrite List.map_map. Qed.

Lemma encodeFormData_items fd :
  distinct (List.map fst fd) = true ->
  plain_keys (List.map fst fd) = true ->
  exists fd',
    store_file_items fd (store_text_items fd []) = List.map encode_field fd'
    /\ Permutation fd fd'.
Proof.
  intros Hd Hplain. apply distinct_NoDup in Hd.
  set (texts := List.filter (fun kv => is_text (snd kv)) fd).
  set (files := List.filter (fun kv => negb (is_text (snd kv))) fd).
  assert (Hsplit : Permutation (texts ++ files) fd) by apply filter_split.
  assert (Hnd : List.NoDup (List.map fst texts ++ List.map fst files)).
  { rewrite <- List.map_app, Hsplit. exact Hd. }
  rewrite store_file_items_assign, store_text_items_assign.
  fold texts files.
  assert (H1 : Permutation (assign_all (List.map encode_field texts) [])
                           (List.map encode_field texts)).
  { rewrite assign_all_perm; [reflexivity| |].
    - cbn. rewrite map_fst_encode_field. now apply NoDup_app_remove_r in Hnd.
    - rewrite map_fst_encode_field. now apply plain_keys_filter. }
  assert (H2 : Permutation
                 (assign_all (List.map encode_field files)
                             (assign_all (List.map encode_field texts) []))
                 (List.map encode_field fd)).
  { rewrite assign_all_perm.
    - now rewrite H1, <- List.map_app, Hsplit.
    - now rewrite H1, !map_fst_encode_field.
    - rewrite map_fst_encode_field. now apply plain_keys_filter. }
  apply Permutation_map_inv in H2 as (fd' & E & Hp).
  exists fd'. split; [exact E|exact Hp].
Qed.

Lemma decode_item_encode_entry k e :
  entry_ok e = true -> decode_item k (encode_entry e) = Ok (k, e).
Proof.
  destruct e as [s|f]; cbn [entry_ok encode_entry]; intros Hok.
  - reflexivity.
  - unfold decode_item, encode_file_item.
    cbn [get_property obj_get String.eqb Ascii.eqb Bool.eqb string_is].
    unfold encodeFile. rewrite decodeFile_readAsDataURL by assumption.
    now destruct f.
Qed.

Lemma decode_items_encoded fd :
  forallb (fun kv => entry_ok (snd kv)) fd = true ->
  decode_items (List.map encode_field fd) = Ok fd.
Proof.
  induction fd as [|[k e] fd IH]; cbn [forallb List.map decode_items]; [reflexivity|].
  intros H. apply andb_prop in H as [He Hfd].
  unfold encode_field at 1. cbn [fst snd] in *.
  now rewrite decode_item_encode_entry, IH.
Qed.

Lemma isEncodedFormDataItem_encode_entry e :
  isEncodedFormDataItem (encode_entry e) = true.
Proof. destruct e; reflexivity. Qed.

Lemma decode_encodeFormData fd :
  form_ok fd = true ->
  exists fd',
    decodeNestedFormData (encodeFormData fd) = Ok (VForm fd')
    /\ Permutation fd fd'.
Proof.
  unfold form_ok. intros H.
  apply andb_prop in H as [H Hentries]. apply andb_prop in H as [Hd Hplain].
  destruct (encodeFormData_items fd Hd Hplain) as (fd' & E & Hp).
  exists fd'. split; [|exact Hp].
  unfold encodeFormData. rewrite E.
  assert (Hok : forallb (fun kv => entry_ok (snd kv)) fd' = true).
  { rewrite forallb_forall in *. intros x Hx. apply Hentries.
    eapply Permutation_in; [symmetry|]; eauto. }
  assert (Hshape : isEncodedFormData
            (VObj [("dataType", VStr "formData");
                   ("items", VObj (List.map encode_field fd'))]) = true).
  { unfold isEncodedFormData.
    cbn [is_object has_property get_property obj_has obj_get String.eqb
         Ascii.eqb Bool.eqb andb object_entries string_is].
    rewrite forallb_forall. intros x Hx.
    apply in_map_iff in Hx as (kv & <- & Hkv).
    apply in_map_iff in Hkv as (ke & <- & _).
    apply isEncodedFormDataItem_encode_entry. }
  cbn [decodeNestedFormData]. rewrite Hshape.
  unfold decodeFormData.
  cbn [get_property obj_get String.eqb Ascii.eqb Bool.eqb object_entries].
  now rewrite decode_items_encoded.
Qed.

(** ** The codec round trip *)

Lemma obj_get_map f k (o : props) :
  obj_get k (List.map (fun kv => (fst kv, f (snd kv))) o)
  = option_map f (obj_get k o).
Proof.
  induction o as [|[k' v] o IH]; cbn; [reflexivity|].
  now destruct (String.eqb k k').
Qed.

Lemma string_is_formData_encode x :
  string_is "formData" (encodeNestedFormData x) = string_is "formData" x.
Proof.
  destruct x; reflexivity.
Qed.

Lemma encoded_object_not_form (o : props) :
  string_is "formData" (get_property "dataType" (VObj o)) = false ->
  isEncodedFormData
    (VObj (List.map (fun kv => (fst kv, encodeNestedFormData (snd kv))) o)) = false.
Proof.
  intros H. unfold isEncodedFormData.
  cbn [is_object has_property get_property andb] in *. unfold obj_has.
  rewrite obj_get_map.
  destruct (obj_get "dataType" o) as [x|]; cbn [option_map]; [|reflexivity].
  now rewrite string_is_formData_encode, H.
Qed.

Lemma roundtrip_list (E : value -> value -> Prop) (l : list value) :
  Forall (fun x => supported x = true ->
                   exists y, decodeNestedFormData (encodeNestedFormData x) = Ok y
                             /\ E x y) l ->
  forallb supported l = true ->
  exists l', try_map decodeNestedFormData (List.map encodeNestedFormData l) = Ok l'
             /\ Forall2 E l l'.
Proof.
  induction 1 as [|x l Hx HF IH]; cbn [forallb List.map try_map]; intros Hs.
  - exists []. split; [reflexivity|constructor].
  - apply andb_prop in Hs as [Hsx Hsl].
    destruct (Hx Hsx) as (y & Hy & Exy). destruct (IH Hsl) as (l' & Hl' & HF2).
    exists (y :: l'). rewrite Hy, Hl'. split; [reflexivity|now constructor].
Qed.

Lemma roundtrip_entries (E : value -> value -> Prop) (o : props) :
  Forall (fun kv => supported (snd kv) = true ->
                    exists y, decodeNestedFormData (encodeNestedFormData (snd kv)) = Ok y
                              /\ E (snd kv) y) o ->
  forallb (fun '(_, x) => supported x) o = true ->
  exists o',
    Forall2 (fun x y => fst x = fst y /\ decodeNestedFormData (snd x) = Ok (snd y))
            (List.map (fun kv => (fst kv, encodeNestedFormData (snd kv))) o) o'
    /\ Forall2 (fun x y => fst x = fst y /\ E (snd x) (snd y)) o o'.
Proof.
  induction 1 as [|[k x] o Hx HF IH]; cbn [forallb List.map]; intros Hs.
  - exists []. split; constructor.
  - apply andb_prop in Hs as [Hsx Hso]. cbn [fst snd] in *.
    destruct (Hx Hsx) as (y & Hy & Exy). destruct (IH Hso) as (o' & Ho' & HF2).
    exists ((k, y) :: o'). split; constructor; auto.
Qed.

(** C1 (as amended): for every supported payload -- scalars, strings
    that [decodeFile] does not accept, non-empty blobs whose MIME type
    [readAsDataURL] writes as it is (a lower-case [type/subtype] of token
    characters), form containers with distinct field names other than
    "__proto__", arrays of those, and objects of those that own no
    "__proto__" key and whose encoding does not pass [isEncodedFormData]
    -- decoding the encoding succeeds and returns a payload of the same
    structure and field values; a blob keeps its bytes and MIME type,
    its name is kept inside a form container and becomes
    "unknown-filename" elsewhere; the fields of a form container come
    back as a permutation of the original fields. *)
Theorem roundtrip_supported v :
  supported v = true ->
  exists v',
    decodeNestedFormData (encodeNestedFormData v) = Ok v'
    /\ payload_equiv same_content v v'.
Proof.
  induction v as [ | | b | n | s | f | fd | l IH | o IH] using value_ind;
    intros Hs.
  - exists VUndefined. split; [reflexivity|constructor].
  - exists VNull. split; [reflexivity|constructor].
  - exists (VBool b). split; [reflexivity|constructor].
  - exists (VNum n). split; [reflexivity|constructor].
  - exists (VStr s). split; [|constructor].
    cbn [supported] in Hs. cbn [encodeNestedFormData decodeNestedFormData].
    destruct (decodeFile (VStr s) (VStr "unknown-filename")); [discriminate|reflexivity].
  - exists (VFile (mkFile "unknown-filename" (file_type f) (file_bytes f))).
    cbn [supported] in Hs. cbn [encodeNestedFormData decodeNestedFormData].
    unfold encodeFile. rewrite decodeFile_readAsDataURL by assumption.
    split; [reflexivity|]. constructor. repeat split.
  - cbn [supported] in Hs. cbn [encodeNestedFormData].
    destruct (decode_encodeFormData fd Hs) as (fd' & Hd & Hp).
    exists (VForm fd'). split; [exact Hd|now constructor].
  - cbn [supported] in Hs.
    destruct (roundtrip_list _ l IH Hs) as (l' & Hl' & HF2).
    exists (VArr l'). cbn [encodeNestedFormData decodeNestedFormData].
    rewrite Hl'. split; [reflexivity|now constructor].
  - cbn [supported] in Hs.
    apply andb_prop in Hs as [Hs Hvals]. apply andb_prop in Hs as [Hs Hshape].
    apply andb_prop in Hs as [Hord Hplain]. apply negb_true_iff in Hshape.
    destruct (roundtrip_entries _ o IH Hvals) as (o' & Ho' & HF2).
    exists (VObj o'). cbn [encodeNestedFormData].
    cbn [encodeNestedFormData] in Hshape.
    rewrite assign_entries_ordered in Hshape |- * by assumption.
    cbn [app] in Hshape |- *.
    cbn [decodeNestedFormData]. rewrite Hshape.
    rewrite (try_assign_entries_ordered _ _ o').
    + split; [reflexivity|now constructor].
    + exact Ho'.
    + cbn [List.map app]. now rewrite List.map_map.
    + now rewrite List.map_map.
Qed.

(** C1, witness: a payload with every supported shape. *)
Lemma roundtrip_supported_witness :
  let v := VObj [("0", VNum 7);
                 ("note", VStr "Hello");
                 ("blob", VFile (mkFile "a.txt" "text/plain" ["H"; "i"]%char));
                 ("form", VForm [("f", FFile (mkFile "b.bin" "image/png" ["x"]%char));
                                 ("t", FText "x,y")]);
                 ("list", VArr [VNull; VBool true; VUndefined]);
                 ("dataType", VStr "formData")] in
  supported v = true
  /\ exists v', decodeNestedFormData (encodeNestedFormData v) = Ok v'
                /\ payload_equiv same_content v v'.
Proof.
  split; [vm_compute; reflexivity|].
  apply roundtrip_supported. vm_compute. reflexivity.
Defined.

(** C1 (as stated) fails: a blob that is not inside a form container
    comes back under the name "unknown-filename". *)
Lemma roundtrip_loses_blob_name :
  let v := VFile (mkFile "a.txt" "text/plain" ["H"; "i"]%char) in
  supported v = true
  /\ decodeNestedFormData (encodeNestedFormData v)
     = Ok (VFile (mkFile "unknown-filename" "text/plain" ["H"; "i"]%char))
  /\ ~ (exists v', decodeNestedFormData (encodeNestedFormData v) = Ok v'
                   /\ payload_equiv eq v v').
Proof.
  cbv zeta. split; [vm_compute; reflexivity|].
  assert (E : decodeNestedFormData
                (encodeNestedFormData (VFile (mkFile "a.txt" "text/plain" ["H"; "i"]%char)))
              = Ok (VFile (mkFile "unknown-filename" "text/plain" ["H"; "i"]%char)))
    by (vm_compute; reflexivity).
  split; [exact E|].
  intros (v' & Hv' & Heq). rewrite E in Hv'. injection Hv' as <-.
  inversion Heq as [ | | | | | ? ? Hfg | | | ]. discriminate Hfg.
Qed.

(** ** Strings that [decodeFile] rejects *)

Lemma decode_string_total s : exists v, decodeNestedFormData (VStr s) = Ok v.
Proof.
  cbn [decodeNestedFormData].
  destruct (decodeFile (VStr s) (VStr "unknown-filename")); eauto.
Qed.

(** In particular a string without a comma always comes back unchanged. *)
Lemma decode_string_without_comma s :
  no_char ","%char s = true -> decodeNestedFormData (VStr s) = Ok (VStr s).
Proof.
  intros H. cbn [decodeNestedFormData decodeFile].
  rewrite (split_on_none _ _ H). cbn [nth].
  now rewrite String.eqb_refl, orb_true_r.
Qed.

Example decode_plain_string : decodeNestedFormData (VStr "Hello") = Ok (VStr "Hello").
Proof. reflexivity. Qed.

Example decode_bad_base64 :
  decodeNestedFormData (VStr "data:text/plain;base64,@@@@")
  = Ok (VStr "data:text/plain;base64,@@@@").
Proof. reflexivity. Qed.

(** ** The dispatch listener *)

Lemma set_jobs_id w : set_jobs (jobs w) w = w.
Proof. now destruct w. Qed.

Lemma drain_idle w : jobs w = [] -> drain w = w.
Proof. intros H. unfold drain. now rewrite H. Qed.

Lemma envelope_defect_invalid data :
  envelope_defect data -> isMessageData data = false.
Proof.
  unfold envelope_defect, isMessageData.
  intros [H | [[H1 H2] | [H | [H | [H | [H | H]]]]]];
    rewrite ?H, ?H1, ?H2; cbn; repeat rewrite ?andb_false_r, ?andb_false_l;
    reflexivity.
Qed.

Lemma onWindowMessage_drop w event :
  (isMessageData (get_property "data" event) = false
   \/ envelope_defect (get_property "data" event)
   \/ string_property "from" (get_property "data" event)
        ∈ sourceEntityIdSet (statics w)
   \/ Entity_getById w (string_property "to" (get_property "data" event)) = None) ->
  Entity_onWindowMessage w event = w.
Proof.
  intros H. unfold Entity_onWindowMessage.
  destruct (negb (truthy event) || negb (is_object event)
            || negb (has_property "data" event)); [reflexivity|].
  assert (Hcases : isMessageData (get_property "data" event) = false
            \/ string_property "from" (get_property "data" event)
                 ∈ sourceEntityIdSet (statics w)
            \/ Entity_getById w (string_property "to" (get_property "data" event)) = None).
  { destruct H as [H | [H | [H | H]]]; auto.
    left. now apply envelope_defect_invalid. }
  clear H. destruct Hcases as [H | [H | H]].
  - rewrite H. cbn. now rewrite orb_true_r.
  - destruct (negb (truthy (get_property "data" event))
              || negb (isMessageData (get_property "data" event))); [reflexivity|].
    now rewrite bool_decide_eq_true_2.
  - destruct (negb (truthy (get_property "data" event))
              || negb (isMessageData (get_property "data" event))); [reflexivity|].
    destruct (bool_decide _); [reflexivity|]. now rewrite H.
Qed.

(** C4: an event whose data is not a valid envelope (no protocol tag,
    no recognized type, a message id, sender or target that is not a
    string, a timestamp that is not a number, no payload), or whose
    sender is in the ignored set, or whose target id is not registered,
    leaves the whole state as it was: no handler runs, nothing is
    queued, nothing is recorded, and no error is raised. *)
Theorem dispatch_drops w event :
  (isMessageData (get_property "data" event) = false
   \/ envelope_defect (get_property "data" event)
   \/ string_property "from" (get_property "data" event)
        ∈ sourceEntityIdSet (statics w)
   \/ Entity_getById w (string_property "to" (get_property "data" event)) = None) ->
  Entity_onWindowMessage w event = w
  /\ (jobs w = [] -> dispatch w event = w).
Proof.
  intros H. pose proof (onWindowMessage_drop w event H) as E.
  split; [exact E|]. intros Hq. unfold dispatch. rewrite E. now apply drain_idle.
Qed.

Lemma dispatch_drops_witness :
  let event := sample_event (VObj [("invalid", VStr "format")]) in
  isMessageData (get_property "data" event) = false
  /\ Entity_onWindowMessage sample_world event = sample_world
  /\ (jobs sample_world = [] -> dispatch sample_world event = sample_world).
Proof.
  split; [reflexivity|].
  apply (dispatch_drops sample_world). left. reflexivity.
Defined.

Example dispatch_drops_unknown_target :
  Entity_onWindowMessage sample_world
    (sample_event (message_data Request "m-1" "1" "nobody" VNull 1000))
  = sample_world.
Proof. apply onWindowMessage_drop. do 3 right. reflexivity. Qed.

Example dispatch_drops_missing_payload :
  Entity_onWindowMessage sample_world
    (sample_event (VObj [("via", VStr "bom-message"); ("type", VStr "request");
                         ("messageId", VStr "m"); ("from", VStr "1");
                         ("to", VStr "2"); ("timestamp", VNum 0)]))
  = sample_world.
Proof. apply onWindowMessage_drop. right. left. do 6 right. reflexivity. Qed.

Example dispatch_drops_ignored_source :
  let w := fst (Entity_init (initial_world sample_platform)
                  (mkInitProps (Some ["1"]) None None None)) in
  let w := fst (constructor w "2" no_entity_props) in
  Entity_onWindowMessage w (sample_event (sample_request VNull)) = w.
Proof.
  cbv zeta. apply onWindowMessage_drop. do 2 right. left.
  cbn. set_solver.
Qed.

(** ** The self-message guard *)

(** C9: an envelope whose [from] is the entity's own id is dropped by
    [handleIncomingMessage] in every state: the state is returned as it
    was, so no handler call is queued or recorded. *)
Theorem self_message_dropped w this e data :
  heap w !! this = Some e ->
  get_property "from" data = VStr (e_id e) ->
  handleIncomingMessage w this data = w.
Proof.
  intros He Hfrom. unfold handleIncomingMessage.
  rewrite He, Hfrom. cbn [string_is]. now rewrite String.eqb_refl.
Qed.

Lemma self_message_dropped_witness :
  let data := message_data Request "m-1" "2" "2" (VStr "echo") 1000 in
  handleIncomingMessage sample_world 1 data = sample_world.
Proof.
  apply (self_message_dropped sample_world 1
           (mkEntity "2" [reply_hi; reply_twice] ∅ false)); reflexivity.
Defined.

(** ** Running the queued continuations *)

Lemma fold_reply this_id from messageId l w :
  fold_left (reply this_id from messageId) l w
  = set_jobs (jobs w ++ List.map (fun r => JPost Response messageId this_id from
                                             (encodeNestedFormData r)) l) w.
Proof.
  revert w. induction l as [|r l IH]; intros w; cbn [fold_left List.map].
  - now rewrite app_nil_r, set_jobs_id.
  - rewrite IH. unfold reply, enqueue, set_jobs. cbn.
    now rewrite <- app_assoc.
Qed.

Lemma run_job_jobs w j :
  jobs (run_job w j) = jobs w ++ job_spawns w j.
Proof.
  destruct j as [ty mid from to payload | this h from payload mid | this mid p payload];
    cbn [run_job job_spawns].
  - rewrite app_nil_r. now destruct (messageEmitter (statics w)).
  - now rewrite fold_reply.
  - rewrite app_nil_r. unfold update_entity, settle.
    destruct (promises w !! p) as [[| |]|]; cbn;
      now destruct (heap w !! this).
Qed.

Lemma run_job_invocations w j :
  invocations (trace (run_job w j)) = invocations (trace w) ++ job_invocations j.
Proof.
  unfold invocations.
  destruct j as [ty mid from to payload | this h from payload mid | this mid p payload];
    cbn [run_job job_invocations].
  - rewrite app_nil_r. destruct (messageEmitter (statics w)); cbn; [reflexivity|].
    rewrite List.filter_app. cbn. now rewrite app_nil_r.
  - rewrite fold_reply. cbn. now rewrite List.filter_app.
  - rewrite app_nil_r. unfold update_entity, settle.
    destruct (promises w !! p) as [[| |]|]; cbn;
      now destruct (heap w !! this).
Qed.

Lemma job_spawns_weight w j :
  job_weight j = S (length (job_spawns w j)).
Proof. destruct j; cbn; [reflexivity| |reflexivity]. now rewrite length_map. Qed.

Lemma job_spawns_unit_weight w j :
  list_sum (List.map job_weight (job_spawns w j)) = length (job_spawns w j).
Proof.
  destruct j as [| this h from payload mid |]; cbn; [reflexivity| |reflexivity].
  induction (h_replies h from payload) as [|r l IH]; cbn; [reflexivity|].
  now rewrite IH.
Qed.

Lemma job_spawns_no_invocation w j :
  flat_map job_invocations (job_spawns w j) = [].
Proof.
  destruct j as [| this h from payload mid |]; cbn; [reflexivity| |reflexivity].
  induction (h_replies h from payload) as [|r l IH]; cbn; [reflexivity|exact IH].
Qed.

Lemma list_sum_weights_app l1 l2 :
  list_sum (List.map job_weight (l1 ++ l2))
  = list_sum (List.map job_weight l1) + list_sum (List.map job_weight l2).
Proof. now rewrite List.map_app, list_sum_app. Qed.

(** With the fuel [drain] gives it, the queue is run to the end, and
    the handler calls made are those of the jobs that were queued. *)
Lemma run_jobs_complete fuel w :
  list_sum (List.map job_weight (jobs w)) <= fuel ->
  jobs (run_jobs fuel w) = []
  /\ invocations (trace (run_jobs fuel w))
     = invocations (trace w) ++ flat_map job_invocations (jobs w).
Proof.
  revert w. induction fuel as [|fuel IH]; intros w Hfuel.
  - cbn [run_jobs]. destruct (jobs w) as [|j rest] eqn:E.
    + split; [reflexivity|]. cbn. now rewrite app_nil_r.
    + exfalso.
      change (job_weight j + list_sum (List.map job_weight rest) <= 0) in Hfuel.
      rewrite (job_spawns_weight w j) in Hfuel. lia.
  - cbn [run_jobs]. destruct (jobs w) as [|j rest] eqn:E.
    + rewrite E. split; [reflexivity|]. cbn. now rewrite app_nil_r.
    + set (w1 := run_job (set_jobs rest w) j).
      assert (Hjobs : jobs w1 = rest ++ job_spawns (set_jobs rest w) j)
        by (unfold w1; now rewrite run_job_jobs).
      assert (Hinv : invocations (trace w1)
                     = invocations (trace w) ++ job_invocations j)
        by (unfold w1; now rewrite run_job_invocations).
      destruct (IH w1) as [H1 H2].
      { rewrite Hjobs, list_sum_weights_app, job_spawns_unit_weight.
        change (job_weight j + list_sum (List.map job_weight rest) <= S fuel) in Hfuel.
        rewrite (job_spawns_weight (set_jobs rest w) j) in Hfuel.
        lia. }
      split; [exact H1|].
      rewrite H2, Hinv, Hjobs, flat_map_app, job_spawns_no_invocation.
      cbn [flat_map]. now rewrite app_nil_r, <- app_assoc.
Qed.


Lemma drain_invocations w :
  invocations (trace (drain w))
  = invocations (trace w) ++ flat_map job_invocations (jobs w).
Proof. unfold drain. now apply run_jobs_complete. Qed.


(** A settled promise stays as it is. *)
Lemma settle_settled p s w q st :
  promises w !! q = Some st -> st <> Pending ->
  promises (settle p s w) !! q = Some st.
Proof.
  intros Hq Hst. unfold settle.
  destruct (promises w !! p) as [[| |]|] eqn:Ep; try exact Hq.
  cbn. destruct (decide (p = q)) as [->|Hne].
  - congruence.
  - now rewrite list_lookup_insert_ne.
Qed.

Lemma run_job_settled w j q st :
  promises w !! q = Some st -> st <> Pending ->
  promises (run_job w j) !! q = Some st.
Proof.
  intros Hq Hst.
  destruct j as [ty mid from to payload | this h from payload mid | this mid p payload];
    cbn [run_job].
  - now destruct (messageEmitter (statics w)).
  - now rewrite fold_reply.
  - unfold update_entity.
    destruct (heap (settle p (Fulfilled payload) w) !! this); cbn;
      now apply settle_settled.
Qed.

Lemma run_jobs_settled fuel w q st :
  promises w !! q = Some st -> st <> Pending ->
  promises (run_jobs fuel w) !! q = Some st.
Proof.
  revert w. induction fuel as [|fuel IH]; intros w Hq Hst; cbn [run_jobs];
    [exact Hq|].
  destruct (jobs w) as [|j rest]; [exact Hq|].
  apply IH; [|exact Hst]. now apply run_job_settled.
Qed.

Lemma drain_settled w q st :
  promises w !! q = Some st -> st <> Pending ->
  promises (drain w) !! q = Some st.
Proof. apply run_jobs_settled. Qed.

(** ** Sending *)

(** What [sendMessage] does before its [await]: only the state of the
    new promise depends on the registry. *)
Lemma sendMessage_spec w this e targetId message :
  heap w !! this = Some e ->
  let p := length (promises w) in
  let messageId := uuid_stream (platform w) (uuid_next (platform w)) in
  sendMessage w this targetId message
  = (mkWorld (statics w)
             (<[this := set_pending (<[messageId := p]> (e_pendingRequests e)) e]> (heap w))
             (promises w ++ [match Entity_getById w (e_id e) with
                             | None => Rejected EntityDestroyed
                             | Some _ => Pending
                             end])
             (jobs w ++ [JPost Request messageId (e_id e) targetId
                               (encodeNestedFormData message)])
             (set_uuid_next (S (uuid_next (platform w))) (platform w))
             (trace w),
     p).
Proof.
  intros He. cbv zeta. unfold sendMessage. cbn [heap set_promises].
  rewrite He. unfold Entity_getById. cbn [statics set_promises].
  assert (Hsettle : forall s,
    settle (length (promises w)) s (set_promises (promises w ++ [Pending]) w)
    = set_promises (promises w ++ [s]) w).
  { intros s. unfold settle. cbn [promises set_promises].
    rewrite lookup_app_r by lia. rewrite Nat.sub_diag. cbn.
    unfold set_promises. cbn. f_equal.
    rewrite insert_app_r_alt by lia. now rewrite Nat.sub_diag. }
  destruct (instances (statics w) !! e_id e) as [r|].
  - unfold generateUniqueId, update_entity, enqueue. cbn. now rewrite He.
  - rewrite Hsettle.
    unfold generateUniqueId, update_entity, enqueue. cbn. now rewrite He.
Qed.

(** C2 (as amended): when no entity is registered under the sender's id
    at the time of the call -- in particular in the state [destroy]
    leaves -- the promise [sendMessage] returns is rejected with the
    "Entity is destroyed" error, and it stays so once the rest of the
    call has run. *)
Theorem send_unregistered_id_rejected w this e targetId message :
  heap w !! this = Some e ->
  (Entity_getById w (e_id e) = None ->
   let '(w', p) := sendMessage w this targetId message in
   promises w' !! p = Some (Rejected EntityDestroyed)
   /\ promises (drain w') !! p = Some (Rejected EntityDestroyed))
  /\ (let '(w', p) := sendMessage (destroy w this) this targetId message in
      promises w' !! p = Some (Rejected EntityDestroyed)
      /\ promises (drain w') !! p = Some (Rejected EntityDestroyed)).
Proof.
  intros He.
  assert (Hgen : forall w0, heap w0 !! this = Some e ->
            Entity_getById w0 (e_id e) = None ->
            let '(w', p) := sendMessage w0 this targetId message in
            promises w' !! p = Some (Rejected EntityDestroyed)
            /\ promises (drain w') !! p = Some (Rejected EntityDestroyed)).
  { intros w0 He0 Hnone. rewrite (sendMessage_spec _ _ _ _ _ He0), Hnone.
    assert (Hp : (promises w0 ++ [Rejected EntityDestroyed]) !! length (promises w0)
                 = Some (Rejected EntityDestroyed)).
    { rewrite lookup_app_r by lia. now rewrite Nat.sub_diag. }
    split; [exact Hp|]. apply drain_settled; [exact Hp|discriminate]. }
  split; [now apply Hgen|].
  apply Hgen.
  - unfold destroy. now rewrite He.
  - unfold destroy, Entity_getById. rewrite He. cbn. apply lookup_delete_eq.
Qed.

Lemma send_unregistered_id_rejected_witness :
  let w := destroy sample_world 0 in
  Entity_getById w "1" = None
  /\ (let '(w', p) := sendMessage w 0 "2" (VStr "Hello") in
      promises w' !! p = Some (Rejected EntityDestroyed)
      /\ promises (drain w') !! p = Some (Rejected EntityDestroyed)).
Proof.
  split; [vm_compute; reflexivity|].
  destruct (send_unregistered_id_rejected (destroy sample_world 0) 0
              (mkEntity "1" [] ∅ false) "2" (VStr "Hello")) as [H _].
  - reflexivity.
  - apply H. vm_compute. reflexivity.
Defined.

(** C2 (as stated) fails: instance 0 was destroyed and its id "a" was
    then registered by a new instance; instance 0 is not in the
    registry, yet the promise of its [sendMessage] is not rejected. *)
Lemma send_after_reregistration_not_rejected :
  unregistered reregistered_world 0
  /\ (let '(w', p) := sendMessage reregistered_world 0 "b" (VStr "x") in
      promises w' !! p = Some Pending
      /\ promises (drain w') !! p = Some Pending)
  /\ ~ (forall w this targetId message,
          unregistered w this ->
          let '(w', p) := sendMessage w this targetId message in
          promises w' !! p = Some (Rejected EntityDestroyed)).
Proof.
  assert (Hun : unregistered reregistered_world 0).
  { exists (mkEntity "a" [] ∅ false). split; [reflexivity|].
    vm_compute. discriminate. }
  split; [exact Hun|]. split; [vm_compute; auto|].
  intros H. specialize (H reregistered_world 0 "b" (VStr "x") Hun).
  vm_compute in H. discriminate H.
Qed.

(** C10 (as amended): when no entity is registered under the sender's
    id, [sendMessage] rejects the promise it returns and nevertheless
    goes on: it stores the promise in [pendingRequests] under the
    generated message id, encodes the payload and posts the request
    envelope; the heap, the platform (the posted envelope included) and
    the trace end up as they do when the same call is made with the id
    registered. *)
Theorem send_unregistered_not_atomic w this e targetId message :
  heap w !! this = Some e ->
  Entity_getById w (e_id e) = None ->
  jobs w = [] ->
  let messageId := uuid_stream (platform w) (uuid_next (platform w)) in
  let encoded := encodeNestedFormData message in
  let '(w', p) := sendMessage w this targetId message in
  promises w' !! p = Some (Rejected EntityDestroyed)
  /\ (exists e', heap w' !! this = Some e'
                 /\ e_pendingRequests e' = <[messageId := p]> (e_pendingRequests e))
  /\ jobs w' = [JPost Request messageId (e_id e) targetId encoded]
  /\ (forall em, messageEmitter (statics w) = Some em ->
        posted (platform (drain w'))
        = posted (platform w)
          ++ [(em, message_data Request messageId (e_id e) targetId encoded
                                (clock (platform w)))])
  /\ (forall r,
        let '(wr', pr) := sendMessage (register (e_id e) r w) this targetId message in
        pr = p
        /\ promises wr' !! pr = Some Pending
        /\ heap wr' = heap w' /\ jobs wr' = jobs w'
        /\ heap (drain wr') = heap (drain w')
        /\ platform (drain wr') = platform (drain w')
        /\ trace (drain wr') = trace (drain w')).
Proof.
  intros He Hnone Hq. cbv zeta.
  rewrite (sendMessage_spec _ _ _ _ _ He), Hnone, Hq. cbn [app].
  assert (Hlt : this < length (heap w)) by (eapply lookup_lt_Some; eauto).
  split; [|split; [|split; [|split]]].
  - cbn [promises]. rewrite lookup_app_r by lia. now rewrite Nat.sub_diag.
  - eexists. split; [cbn [heap]; now apply list_lookup_insert_eq|reflexivity].
  - reflexivity.
  - intros em Hem. unfold drain. cbn. now rewrite Hem.
  - intros r.
    assert (Her : heap (register (e_id e) r w) !! this = Some e) by exact He.
    rewrite (sendMessage_spec _ _ _ _ _ Her).
    assert (Hreg : Entity_getById (register (e_id e) r w) (e_id e) = Some r).
    { unfold Entity_getById, register. cbn. apply lookup_insert_eq. }
    rewrite Hreg. cbn [register set_statics promises heap jobs platform trace].
    rewrite Hq. cbn [app].
    split; [reflexivity|]. split.
    { rewrite lookup_app_r by lia. now rewrite Nat.sub_diag. }
    split; [reflexivity|]. split; [reflexivity|].
    unfold drain. cbn.
    destruct (messageEmitter (statics w)); cbn; auto.
Qed.

Lemma send_unregistered_not_atomic_witness :
  let w := destroy sample_world 0 in
  let '(w', p) := sendMessage w 0 "2" (VStr "Hello") in
  promises w' !! p = Some (Rejected EntityDestroyed)
  /\ (exists e', heap w' !! 0 = Some e' /\ e_pendingRequests e' !! "uuid-0" = Some p)
  /\ posted (platform (drain w'))
     = [(CustomEmitter "bmCustomEventEmitter",
         message_data Request "uuid-0" "1" "2" (VStr "Hello") 1000)].
Proof.
  pose proof (send_unregistered_not_atomic (destroy sample_world 0) 0
                (mkEntity "1" [] ∅ false) "2" (VStr "Hello")
                eq_refl eq_refl eq_refl) as H.
  cbv zeta in H |- *.
  destruct (sendMessage (destroy sample_world 0) 0 "2" (VStr "Hello")) as [w' p].
  destruct H as (H1 & (e' & He' & Hp) & _ & H4 & _).
  split; [exact H1|]. split.
  - exists e'. split; [exact He'|]. rewrite Hp. apply lookup_insert_eq.
  - apply (H4 (CustomEmitter "bmCustomEventEmitter")). reflexivity.
Defined.

(** C10 (as stated) fails: instance 0 is no longer registered, its id
    "1" being held by instance 2 since the registry was set up again;
    the promise of its [sendMessage] is not rejected, while the entry
    is stored and the envelope posted as the claim says. *)
Lemma send_after_reinit_not_rejected :
  unregistered reinitialized_world 0
  /\ Entity_getById reinitialized_world "1" = Some 2
  /\ (let '(w', p) := sendMessage reinitialized_world 0 "2" (VStr "x") in
      promises w' !! p = Some Pending
      /\ promises (drain w') !! p = Some Pending
      /\ (exists e', heap w' !! 0 = Some e'
                     /\ e_pendingRequests e' !! "uuid-0" = Some p)
      /\ posted (platform (drain w'))
         = [(CustomEmitter "bmCustomEventEmitter",
             message_data Request "uuid-0" "1" "2" (VStr "x") 1000)]).
Proof.
  split.
  { exists (mkEntity "1" [] ∅ false). split; [reflexivity|].
    vm_compute. discriminate. }
  split; [vm_compute; reflexivity|].
  vm_compute. repeat split; try reflexivity.
  eexists. split; reflexivity.
Qed.

(** ** Incoming requests *)


Lemma fold_enqueue_invoke this from decoded messageId handlers w :
  fold_left (fun w handler => enqueue (JInvoke this handler from decoded messageId) w)
            handlers w
  = set_jobs (jobs w ++ List.map (fun h => JInvoke this h from decoded messageId) handlers) w.
Proof.
  revert w. induction handlers as [|h l IH]; intros w; cbn [fold_left List.map].
  - now rewrite app_nil_r, set_jobs_id.
  - rewrite IH. unfold enqueue, set_jobs. cbn. now rewrite <- app_assoc.
Qed.

Lemma handle_request w this e data decoded :
  heap w !! this = Some e ->
  string_is (e_id e) (get_property "from" data) = false ->
  string_is "request" (get_property "type" data) = true ->
  decodeNestedFormData (get_property "payload" data) = Ok decoded ->
  handleIncomingMessage w this data
  = set_jobs (jobs w ++ List.map (fun h => JInvoke this h (string_property "from" data)
                                             decoded (string_property "messageId" data))
                                 (e_messageHandlers e)) w.
Proof.
  intros He Hfrom Hty Hdec. unfold handleIncomingMessage.
  rewrite He, Hfrom, Hty, Hdec. apply fold_enqueue_invoke.
Qed.

(** C7 (as amended): for a request that passes the self-message guard
    and whose payload decodes, every subscribed handler is called with
    the sender id and the decoded payload, in subscription order. *)
Theorem request_invokes_handlers_in_order w this e data decoded :
  heap w !! this = Some e ->
  jobs w = [] ->
  string_is (e_id e) (get_property "from" data) = false ->
  string_is "request" (get_property "type" data) = true ->
  decodeNestedFormData (get_property "payload" data) = Ok decoded ->
  invocations (trace (drain (handleIncomingMessage w this data)))
  = invocations (trace w)
    ++ List.map (fun h => Invoked this (h_id h) (string_property "from" data) decoded)
                (e_messageHandlers e).
Proof.
  intros He Hq Hfrom Hty Hdec.
  rewrite (handle_request _ _ _ _ _ He Hfrom Hty Hdec), drain_invocations.
  cbn [trace jobs set_jobs]. rewrite Hq. cbn [app]. f_equal.
  induction (e_messageHandlers e) as [|h l IH]; cbn; [reflexivity|now rewrite IH].
Qed.

Lemma request_invokes_handlers_in_order_witness :
  invocations (trace (drain (handleIncomingMessage sample_world 1
                               (sample_request (VStr "Hello")))))
  = [Invoked 1 0 "1" (VStr "Hello"); Invoked 1 1 "1" (VStr "Hello")].
Proof.
  apply (request_invokes_handlers_in_order sample_world 1
           (mkEntity "2" [reply_hi; reply_twice] ∅ false)
           (sample_request (VStr "Hello")) (VStr "Hello"));
    reflexivity.
Defined.

(** C7 (as stated) fails: the request below passes validation and the
    self-message guard, and entity "2" has two handlers subscribed; its
    payload is shaped like an encoded form container whose file item
    is not a data URL, decoding it throws in the callback of each
    handler, and no handler is called. *)
Lemma request_with_undecodable_payload_invokes_nothing :
  let data := sample_request malformed_form_payload in
  let w' := drain (handleIncomingMessage sample_world 1 data) in
  isMessageData data = true
  /\ heap sample_world !! 1 = Some (mkEntity "2" [reply_hi; reply_twice] ∅ false)
  /\ decodeNestedFormData malformed_form_payload = Err InvalidBase64Format
  /\ trace w' = [Unhandled InvalidBase64Format; Unhandled InvalidBase64Format]
  /\ invocations (trace w') = []
  /\ dispatch sample_world (sample_event data) = w'.
Proof. vm_compute. repeat split; reflexivity. Qed.

(** The same happens to a request a peer sends for a form container
    that holds an empty file. *)
Example empty_file_form_undecodable :
  decodeNestedFormData empty_file_payload = Err InvalidBase64Format
  /\ invocations
       (trace (dispatch sample_world (sample_event (sample_request empty_file_payload))))
     = [].
Proof. vm_compute. split; reflexivity. Qed.

(** ** Incoming responses *)






(** ** Construction and lookup *)

Lemma constructor_fresh w id props :
  Entity_getById w id = None ->
  constructor w id props
  = (register id (length (heap w))
       (set_heap (heap w ++ [mkEntity id [] ∅
                               (default (globalVerbose (statics w)) (p_verbose props))]) w),
     Ok (length (heap w))).
Proof.
  unfold Entity_getById, constructor. cbn [statics set_heap]. now intros ->.
Qed.

Lemma constructor_other w id props id' :
  id' <> id ->
  Entity_getById (fst (constructor w id props)) id' = Entity_getById w id'.
Proof.
  intros Hne. unfold constructor, Entity_getById. cbn [statics set_heap].
  destruct (instances (statics w) !! id) as [existing|].
  - now destruct (default false (errorOnDuplicate props)).
  - cbn. now apply lookup_insert_ne.
Qed.

(** C5: constructing an entity under a registered id returns the
    registered instance itself when [errorOnDuplicate] is false (or not
    given) and throws the duplicate-id error when it is true; entities
    constructed under distinct unregistered ids are distinct instances
    and [getById] returns, for each id, exactly the instance that was
    constructed for it. *)
Theorem constructor_duplicate_and_lookup w :
  (forall id props existing,
     Entity_getById w id = Some existing ->
     (default false (errorOnDuplicate props) = false ->
      let '(w', r) := constructor w id props in
      r = Ok existing /\ Entity_getById w' id = Some existing)
     /\ (default false (errorOnDuplicate props) = true ->
         snd (constructor w id props) = Err (DuplicateEntityId id)))
  /\ (forall id1 id2 props1 props2,
        id1 <> id2 ->
        Entity_getById w id1 = None ->
        Entity_getById w id2 = None ->
        let '(w1, r1) := constructor w id1 props1 in
        let '(w2, r2) := constructor w1 id2 props2 in
        exists a b,
          r1 = Ok a /\ r2 = Ok b /\ a <> b
          /\ heap w !! a = None /\ heap w1 !! b = None
          /\ Entity_getById w1 id1 = Some a
          /\ Entity_getById w2 id1 = Some a
          /\ Entity_getById w2 id2 = Some b
          /\ (exists e1 e2, heap w2 !! a = Some e1 /\ e_id e1 = id1
                            /\ heap w2 !! b = Some e2 /\ e_id e2 = id2)).
Proof.
  split.
  - intros id props existing Hreg. unfold Entity_getById in Hreg.
    unfold constructor, Entity_getById. cbn [statics set_heap]. rewrite Hreg.
    split; intros ->; cbn; auto.
  - intros id1 id2 props1 props2 Hne H1 H2.
    rewrite (constructor_fresh _ _ _ H1).
    set (w1 := register id1 _ _).
    assert (H2' : Entity_getById w1 id2 = None).
    { unfold w1, register, Entity_getById. cbn.
      rewrite lookup_insert_ne by exact Hne. exact H2. }
    rewrite (constructor_fresh _ _ _ H2').
    assert (Hlen : length (heap w1) = S (length (heap w))).
    { unfold w1. cbn. rewrite length_app. cbn. lia. }
    exists (length (heap w)), (length (heap w1)).
    split; [reflexivity|]. split; [reflexivity|]. split; [lia|].
    split; [now apply lookup_ge_None_2|]. split; [now apply lookup_ge_None_2|].
    split; [unfold w1, register, Entity_getById; cbn; apply lookup_insert_eq|].
    split.
    { unfold register at 1, Entity_getById. cbn.
      rewrite lookup_insert_ne by (intros E; apply Hne; now symmetry).
      apply lookup_insert_eq. }
    split; [unfold register at 1, Entity_getById; cbn; apply lookup_insert_eq|].
    eexists _, _. cbn [register set_statics set_heap heap].
    split.
    { rewrite lookup_app_l by (rewrite Hlen; lia).
      unfold w1. cbn. rewrite lookup_app_r by lia. now rewrite Nat.sub_diag. }
    split; [reflexivity|]. split.
    { rewrite lookup_app_r by lia. now rewrite Nat.sub_diag. }
    reflexivity.
Qed.

Lemma constructor_duplicate_and_lookup_witness :
  Entity_getById sample_world "1" = Some 0
  /\ (let '(w', r) := constructor sample_world "1" no_entity_props in
      r = Ok 0 /\ Entity_getById w' "1" = Some 0)
  /\ snd (constructor sample_world "1" (mkEntityProps None (Some true)))
     = Err (DuplicateEntityId "1")
  /\ (let '(w1, r1) := constructor sample_world "3" no_entity_props in
      let '(w2, r2) := constructor w1 "4" no_entity_props in
      exists a b,
        r1 = Ok a /\ r2 = Ok b /\ a <> b
        /\ heap sample_world !! a = None /\ heap w1 !! b = None
        /\ Entity_getById w1 "3" = Some a
        /\ Entity_getById w2 "3" = Some a
        /\ Entity_getById w2 "4" = Some b
        /\ (exists e1 e2, heap w2 !! a = Some e1 /\ e_id e1 = "3"
                          /\ heap w2 !! b = Some e2 /\ e_id e2 = "4")).
Proof.
  destruct (constructor_duplicate_and_lookup sample_world) as [Hdup Hnew].
  split; [reflexivity|].
  split; [apply (Hdup "1" no_entity_props 0); reflexivity|].
  split; [apply (Hdup "1" (mkEntityProps None (Some true)) 0); reflexivity|].
  apply (Hnew "3" "4" no_entity_props no_entity_props);
    [discriminate|reflexivity|reflexivity].
Defined.

(** ** Invariants of the reachable states *)

Lemma map_insert_same {A B} (g : A -> B) (l : list A) i x y :
  l !! i = Some x -> g y = g x -> List.map g (<[i := y]> l) = List.map g l.
Proof.
  revert i. induction l as [|a l IH]; intros [|i]; cbn; try discriminate.
  - intros [= ->] ->. reflexivity.
  - intros Hl Hg. f_equal. now apply IH.
Qed.

Lemma skeleton_update_entity this f w :
  (forall e, e_id (f e) = e_id e) ->
  skeleton (update_entity this f w) = skeleton w.
Proof.
  intros Hf. unfold update_entity, skeleton, heap_ids.
  destruct (heap w !! this) as [e|] eqn:E; [|reflexivity].
  cbn. now rewrite (map_insert_same _ _ _ e).
Qed.

Lemma skeleton_settle p s w : skeleton (settle p s w) = skeleton w.
Proof. unfold settle. now destruct (promises w !! p) as [[| |]|]. Qed.

Lemma skeleton_run_job w j : skeleton (run_job w j) = skeleton w.
Proof.
  destruct j as [ty mid from to payload | this h from payload mid | this mid p payload];
    cbn [run_job].
  - now destruct (messageEmitter (statics w)).
  - now rewrite fold_reply.
  - rewrite skeleton_update_entity by reflexivity. apply skeleton_settle.
Qed.

Lemma skeleton_run_jobs fuel w : skeleton (run_jobs fuel w) = skeleton w.
Proof.
  revert w. induction fuel as [|fuel IH]; intros w; cbn [run_jobs]; [reflexivity|].
  destruct (jobs w) as [|j rest]; [reflexivity|].
  now rewrite IH, skeleton_run_job.
Qed.

Lemma skeleton_drain w : skeleton (drain w) = skeleton w.
Proof. apply skeleton_run_jobs. Qed.

Lemma skeleton_handleIncomingMessage w this data :
  skeleton (handleIncomingMessage w this data) = skeleton w.
Proof.
  unfold handleIncomingMessage.
  destruct (heap w !! this) as [e|]; [|reflexivity].
  destruct (string_is (e_id e) (get_property "from" data)); [reflexivity|].
  destruct (string_is "request" (get_property "type" data)).
  - generalize (e_messageHandlers e). intros l. revert w.
    induction l as [|h l IH]; intros w; cbn [fold_left]; [reflexivity|].
    rewrite IH. now destruct (decodeNestedFormData (get_property "payload" data)).
  - destruct (string_is "response" (get_property "type" data)); [|reflexivity].
    destruct (e_pendingRequests e !! string_property "messageId" data); [|reflexivity].
    now destruct (decodeNestedFormData (get_property "payload" data)).
Qed.

Lemma skeleton_onWindowMessage w event :
  skeleton (Entity_onWindowMessage w event) = skeleton w.
Proof.
  unfold Entity_onWindowMessage.
  repeat match goal with |- context [if ?c then _ else _] => destruct c end;
    try reflexivity.
  destruct (Entity_getById w _); [apply skeleton_handleIncomingMessage|reflexivity].
Qed.

Lemma skeleton_dispatch w event : skeleton (dispatch w event) = skeleton w.
Proof. unfold dispatch. now rewrite skeleton_drain, skeleton_onWindowMessage. Qed.

Lemma skeleton_deliver w : skeleton (deliver w) = skeleton w.
Proof.
  unfold deliver. destruct (posted (platform w)) as [|[em msg] rest]; [reflexivity|].
  rewrite skeleton_drain.
  set (w1 := set_platform _ w). change (skeleton w) with (skeleton w1).
  generalize (length (List.filter (emitter_eqb em) (listeners (platform w1)))).
  intros n. induction n as [|n IH]; [reflexivity|].
  rewrite Nat.iter_succ. now rewrite skeleton_onWindowMessage.
Qed.

Lemma skeleton_sendMessage w this targetId message :
  skeleton (fst (sendMessage w this targetId message)) = skeleton w.
Proof.
  destruct (heap w !! this) as [e|] eqn:He.
  - rewrite (sendMessage_spec _ _ _ _ _ He). unfold skeleton, heap_ids. cbn.
    now rewrite (map_insert_same _ _ _ e).
  - unfold sendMessage. cbn [heap set_promises]. now rewrite He.
Qed.

Lemma registry_inv_skeleton w w' :
  skeleton w' = skeleton w -> registry_inv w -> registry_inv w'.
Proof.
  unfold skeleton, registry_inv, Entity_getById.
  intros [= Hs _ Hh] H id r. rewrite Hs, Hh. apply H.
Qed.

Lemma listener_inv_skeleton w w' :
  skeleton w' = skeleton w -> listener_inv w -> listener_inv w'.
Proof.
  unfold skeleton, listener_inv. intros [= Hs Hl _]. now rewrite Hs, Hl.
Qed.

Lemma removeEventListener_single em : removeEventListener em [em] = [].
Proof.
  cbn. destruct em as [|k]; cbn; [reflexivity|]. now rewrite String.eqb_refl.
Qed.

Lemma listener_inv_init w props :
  listener_inv w -> listener_inv (fst (Entity_init w props)).
Proof.
  intros [Hoff Hon]. unfold Entity_init.
  destruct (isInitialized (statics w)) eqn:Ei.
  { cbn [fst]. split; [intros H; congruence|exact Hon]. }
  specialize (Hoff eq_refl).
  destruct (createMessageEmitter _ _ _) as [em|err]; cbn [fst].
  - split; [discriminate|]. right. exists em. cbn. rewrite Hoff.
    split; [reflexivity|]. now destruct em.
  - split; [discriminate|]. left. exact Hoff.
Qed.

Lemma listeners_after_destroy w :
  listener_inv w -> listeners (platform (Entity_destroy w)) = [].
Proof.
  intros [_ Hon]. unfold Entity_destroy.
  destruct Hon as [Hoff | (em & Hem & Hl)].
  - destruct (messageEmitter (statics w)); cbn; now rewrite ?Hoff.
  - rewrite Hem. cbn. rewrite Hl. apply removeEventListener_single.
Qed.

Lemma listener_inv_destroy w :
  listener_inv w -> listener_inv (Entity_destroy w).
Proof.
  intros H. pose proof (listeners_after_destroy w H) as Hl.
  split; [intros _; exact Hl|now left].
Qed.

Lemma registry_inv_constructor w id props :
  registry_inv w -> registry_inv (fst (constructor w id props)).
Proof.
  intros H. unfold constructor. cbn [statics set_heap].
  assert (Hgrow : forall id' r, heap_ids w !! r = Some id' ->
            (List.map e_id (heap w ++ [mkEntity id [] ∅
               (default (globalVerbose (statics w)) (p_verbose props))])) !! r = Some id').
  { intros id' r Hr. rewrite List.map_app. now apply lookup_app_l_Some. }
  destruct (instances (statics w) !! id) as [existing|] eqn:E.
  - destruct (default false (errorOnDuplicate props)); cbn [fst];
      intros id' r Hr; apply Hgrow, H, Hr.
  - cbn [fst]. intros id' r. unfold Entity_getById, heap_ids. cbn.
    destruct (decide (id = id')) as [<-|Hne].
    + rewrite lookup_insert_eq. intros [= <-].
      rewrite List.map_app, lookup_app_r by (rewrite length_map; lia).
      rewrite length_map, Nat.sub_diag. reflexivity.
    + rewrite lookup_insert_ne by exact Hne. intros Hr. apply Hgrow, H, Hr.
Qed.

Lemma registry_inv_destroy w this :
  registry_inv w -> registry_inv (destroy w this).
Proof.
  intros H. unfold destroy. destruct (heap w !! this) as [e|]; [|exact H].
  intros id r. unfold Entity_getById, heap_ids. cbn.
  intros Hr. apply lookup_delete_Some in Hr as [_ Hr]. now apply H.
Qed.

Lemma skeleton_receive w : skeleton (receive w) = skeleton w.
Proof.
  unfold receive. destruct (posted (platform w)) as [|[em msg] rest]; [reflexivity|].
  set (w1 := set_platform _ w). change (skeleton w) with (skeleton w1).
  generalize (length (List.filter (emitter_eqb em) (listeners (platform w1)))).
  intros n. induction n as [|n IH]; [reflexivity|].
  rewrite Nat.iter_succ. now rewrite skeleton_onWindowMessage.
Qed.

Lemma reachable_inv w :
  reachable w -> listener_inv w /\ registry_inv w.
Proof.
  induction 1 as [pf Hl Hp | w w' Hreach (IHl & IHr) Hstep].
  - split.
    + split; [intros _; exact Hl|now left].
    + intros id r Hr. unfold Entity_getById in Hr. cbn in Hr.
      now rewrite lookup_empty in Hr.
  - assert (Hsk : forall w1, skeleton w1 = skeleton w ->
                             listener_inv w1 /\ registry_inv w1).
    { intros w1 Hs. split;
        [eapply listener_inv_skeleton; eauto|eapply registry_inv_skeleton; eauto]. }
    destruct Hstep as [w props | w | w id props | w this | w this h | w this h
                       | w this targetId message | w | w event Hatt | w t Ht
                       | w this targetId message | w | w event Hatt
                       | w before j after Hj].
    + split; [now apply listener_inv_init|]. unfold Entity_init.
      destruct (isInitialized (statics w)); [exact IHr|].
      destruct (createMessageEmitter _ _ _); cbn [fst];
        intros id r Hr; unfold Entity_getById in Hr; cbn in Hr;
        now rewrite lookup_empty in Hr.
    + split; [now apply listener_inv_destroy|].
      intros id r Hr. unfold Entity_getById, Entity_destroy in Hr. cbn in Hr.
      now rewrite lookup_empty in Hr.
    + split; [|now apply registry_inv_constructor].
      unfold constructor. cbn [statics set_heap].
      destruct (instances (statics w) !! id);
        [destruct (default false (errorOnDuplicate props))|]; exact IHl.
    + split; [|now apply registry_inv_destroy].
      unfold destroy; now destruct (heap w !! this).
    + apply Hsk. apply skeleton_update_entity; reflexivity.
    + apply Hsk. apply skeleton_update_entity; reflexivity.
    + apply Hsk. now rewrite skeleton_drain, skeleton_sendMessage.
    + apply Hsk, skeleton_deliver.
    + apply Hsk, skeleton_dispatch.
    + split; [exact IHl|exact IHr].
    + apply Hsk, skeleton_sendMessage.
    + apply Hsk, skeleton_receive.
    + apply Hsk, skeleton_onWindowMessage.
    + apply Hsk. now rewrite skeleton_run_job.
Qed.

(** ** Tearing the registry down and setting it up again *)

Lemma sample_world_reachable : reachable sample_world.
Proof.
  unfold sample_world. cbv zeta.
  repeat (eapply reach_step; [|constructor]).
  now apply reach_initial.
Qed.

(** C8: [Entity.destroy()] empties the entity map and the ignored-source
    set and resets the initialized flag, and in a reachable state leaves
    no listener attached; on a registry whose static members still have
    their initial values it changes nothing; and after a following
    [Entity.init()] no id is registered, so that constructing an id that
    was registered before the destroy returns a new entity object, one
    that did not exist before and is not the instance registered then,
    while the listener is attached again to the emitter [init] obtained. *)
Theorem registry_destroy_and_reinit w :
  let wd := Entity_destroy w in
  instances (statics wd) = ∅
  /\ sourceEntityIdSet (statics wd) = ∅
  /\ isInitialized (statics wd) = false
  /\ (reachable w -> listeners (platform wd) = [])
  /\ (statics w = initial_statics -> wd = w)
  /\ (forall props,
        let wi := fst (Entity_init wd props) in
        isInitialized (statics wi) = true
        /\ (forall id, Entity_getById wi id = None)
        /\ (forall id eprops,
              let '(wc, r) := constructor wi id eprops in
              r = Ok (length (heap w))
              /\ Entity_getById wc id = Some (length (heap w))
              /\ heap w !! length (heap w) = None
              /\ (reachable w ->
                  forall old, Entity_getById w id = Some old -> old <> length (heap w)))
        /\ (reachable w ->
            forall em,
              createMessageEmitter (platform w)
                (default true (enableAutoCustomEmitter props))
                (default "bmCustomEventEmitter" (globalEmitterKey props)) = Ok em ->
              messageEmitter (statics wi) = Some em
              /\ listeners (platform wi) = [em])).
Proof.
  cbv zeta.
  assert (Hheap : heap (Entity_destroy w) = heap w).
  { unfold Entity_destroy. now destruct (messageEmitter (statics w)). }
  assert (Hplat : createMessageEmitter (platform (Entity_destroy w))
                  = createMessageEmitter (platform w)).
  { unfold Entity_destroy, createMessageEmitter.
    now destruct (messageEmitter (statics w)). }
  split; [reflexivity|]. split; [reflexivity|]. split; [reflexivity|].
  split.
  { intros Hr. apply listeners_after_destroy. now apply reachable_inv. }
  split.
  { intros Hs. unfold Entity_destroy. rewrite Hs. cbn.
    destruct w as [st hp pr jb pf tr]. cbn in *. now subst st. }
  intros props.
  assert (Hinst : instances (statics (fst (Entity_init (Entity_destroy w) props))) = ∅).
  { unfold Entity_init. cbn [isInitialized statics Entity_destroy set_statics].
    now destruct (createMessageEmitter _ _ _). }
  assert (Hheapi : heap (fst (Entity_init (Entity_destroy w) props)) = heap w).
  { rewrite <- Hheap. unfold Entity_init.
    cbn [isInitialized statics Entity_destroy set_statics].
    now destruct (createMessageEmitter _ _ _). }
  split.
  { unfold Entity_init. cbn [isInitialized statics Entity_destroy set_statics].
    now destruct (createMessageEmitter _ _ _). }
  split.
  { intros id. unfold Entity_getById. rewrite Hinst. apply lookup_empty. }
  split.
  { intros id eprops.
    rewrite constructor_fresh
      by (unfold Entity_getById; rewrite Hinst; apply lookup_empty).
    rewrite Hheapi. split; [reflexivity|]. split.
    { unfold register, Entity_getById. cbn. apply lookup_insert_eq. }
    split; [now apply lookup_ge_None_2|].
    intros Hr old Hold.
    destruct (reachable_inv w Hr) as (_ & Hreg).
    apply Hreg in Hold. apply lookup_lt_Some in Hold.
    unfold heap_ids in Hold. rewrite length_map in Hold. lia. }
  intros Hr em Hem.
  pose proof (listeners_after_destroy w (proj1 (reachable_inv w Hr))) as Hl.
  unfold Entity_init. cbn [isInitialized statics set_statics].
  replace (isInitialized (statics (Entity_destroy w))) with false by reflexivity.
  rewrite Hplat, Hem.
  cbn [fst statics platform set_platform set_statics set_listeners listeners
       messageEmitter set_messageEmitter].
  rewrite Hl. split; [reflexivity|now destruct em].
Qed.

Lemma registry_destroy_and_reinit_witness :
  let wd := Entity_destroy sample_world in
  let wi := fst (Entity_init wd no_props) in
  Entity_getById sample_world "1" = Some 0
  /\ listeners (platform sample_world) = [CustomEmitter "bmCustomEventEmitter"]
  /\ listeners (platform wd) = []
  /\ Entity_destroy (initial_world sample_platform) = initial_world sample_platform
  /\ Entity_getById wi "1" = None
  /\ snd (constructor wi "1" no_entity_props) = Ok 2
  /\ listeners (platform wi) = [CustomEmitter "bmCustomEventEmitter"].
Proof.
  cbv zeta.
  destruct (registry_destroy_and_reinit sample_world)
    as (_ & _ & _ & Hdet & _ & Hre).
  destruct (registry_destroy_and_reinit (initial_world sample_platform))
    as (_ & _ & _ & _ & Hnoop & _).
  destruct (Hre no_props) as (_ & Hnone & Hnew & Hatt).
  split; [reflexivity|]. split; [reflexivity|].
  split; [exact (Hdet sample_world_reachable)|].
  split; [exact (Hnoop eq_refl)|].
  split; [exact (Hnone "1")|].
  split.
  - specialize (Hnew "1" no_entity_props).
    destruct (constructor _ "1" no_entity_props) as [wc r].
    exact (proj1 Hnew).
  - exact (proj2 (Hatt sample_world_reachable
                    (CustomEmitter "bmCustomEventEmitter") eq_refl)).
Defined.

(** ** Where the round trip stops

    The inputs the round-trip property leaves out, each with what the
    codec does to it. *)

Example string_shaped_like_data_url :
  decodeNestedFormData (encodeNestedFormData (VStr "see:a;b,QUJD"))
  = Ok (VFile (mkFile "unknown-filename" "a" ["A"; "B"; "C"]%char)).
Proof. reflexivity. Qed.

Example empty_blob_comes_back_as_string :
  decodeNestedFormData (encodeNestedFormData (VFile (mkFile "e.txt" "text/plain" [])))
  = Ok (VStr "data:text/plain;base64,").
Proof. reflexivity. Qed.

Example type_parameters_dropped :
  decodeNestedFormData
    (encodeNestedFormData (VFile (mkFile "a.txt" "text/plain;charset=utf-8" ["A"]%char)))
  = Ok (VFile (mkFile "unknown-filename" "text/plain" ["A"]%char)).
Proof. reflexivity. Qed.

Example repeated_form_field_collapses :
  decodeNestedFormData
    (encodeNestedFormData (VForm [("k", FText "one"); ("k", FText "two")]))
  = Ok (VForm [("k", FText "two")]).
Proof. reflexivity. Qed.

Example object_shaped_like_form :
  decodeNestedFormData
    (encodeNestedFormData
       (VObj [("dataType", VStr "formData"); ("items", VObj [])]))
  = Ok (VForm []).
Proof. reflexivity. Qed.

Example form_fields_reordered :
  decodeNestedFormData
    (encodeNestedFormData
       (VForm [("b", FFile (mkFile "a.txt" "text/plain" ["A"]%char));
               ("a", FText "x"); ("2", FText "two"); ("10", FText "ten")]))
  = Ok (VForm [("2", FText "two"); ("10", FText "ten"); ("a", FText "x");
               ("b", FFile (mkFile "a.txt" "text/plain" ["A"]%char))]).
Proof. reflexivity. Qed.

(** ** The README exchange *)

Example hello_hi :
  let '(w1, p) := sendMessage sample_world 0 "2" (VStr "Hello") in
  let w2 := deliver (drain w1) in
  let w3 := deliver w2 in
  promises (deliver w3) !! p = Some (Fulfilled (VStr "Hi"))
  /\ invocations (trace w3)
     = [Invoked 1 0 "1" (VStr "Hello"); Invoked 1 1 "1" (VStr "Hello")].
Proof. vm_compute. split; reflexivity. Qed.

Example unsubscribed_handler_not_called :
  let w := unsubscribe sample_world 1 reply_hi in
  invocations (trace (dispatch w (sample_event (sample_request (VStr "Hello")))))
  = [Invoked 1 1 "1" (VStr "Hello")].
Proof. vm_compute. reflexivity. Qed.

Example bare_data_prefix_rejected :
  decodeFile (VStr "data:") (VStr "unknown-filename") = Err InvalidBase64Format.
Proof. reflexivity. Qed.

(** * Further properties of the codec *)

(** ** Own properties under assignment *)

Lemma obj_has_In k (o : props) : obj_has k o = true <-> In k (List.map fst o).
Proof.
  unfold obj_has. induction o as [|[k' v] o IH]; cbn.
  - split; [discriminate|tauto].
  - destruct (String.eqb_spec k k') as [->|Hne].
    + split; [now left|reflexivity].
    + rewrite IH. split; [now right|]. intros [H|H]; [congruence|exact H].
Qed.

Lemma obj_has_false k (o : props) : obj_has k o = false <-> ~ In k (List.map fst o).
Proof.
  rewrite <- obj_has_In. destruct (obj_has k o); split; congruence.
Qed.

Lemma prop_update_keys k v (o : props) :
  List.map fst (prop_update k v o) = List.map fst o.
Proof.
  induction o as [|[k' v'] o IH]; cbn; [reflexivity|].
  destruct (String.eqb k k'); cbn; [reflexivity|now rewrite IH].
Qed.

Lemma obj_get_update k k' v (o : props) :
  obj_has k' o = true ->
  obj_get k (prop_update k' v o) = if String.eqb k k' then Some v else obj_get k o.
Proof.
  unfold obj_has. induction o as [|[a x] o IH]; cbn; [discriminate|].
  destruct (String.eqb_spec k' a) as [->|Hne]; cbn.
  - intros _. now destruct (String.eqb k a).
  - intros H. rewrite (IH H).
    destruct (String.eqb_spec k a) as [->|Hka]; [|reflexivity].
    destruct (String.eqb_spec a k'); congruence.
Qed.

Lemma obj_get_insert_index k i k' v (o : props) :
  obj_has k' o = false ->
  obj_get k (prop_insert_index i k' v o) = if String.eqb k k' then Some v else obj_get k o.
Proof.
  unfold obj_has. induction o as [|[a x] o IH]; cbn; [reflexivity|].
  destruct (String.eqb_spec k' a) as [->|Hne]; [discriminate|].
  intros H.
  destruct (array_index a) as [j|]; [destruct (i <? j)%N|]; cbn; try reflexivity.
  rewrite (IH H).
  destruct (String.eqb_spec k a) as [->|Hka]; [|reflexivity].
  destruct (String.eqb_spec a k'); congruence.
Qed.

Lemma obj_get_app k k' v (o : props) :
  obj_has k' o = false ->
  obj_get k (o ++ [(k', v)]) = if String.eqb k k' then Some v else obj_get k o.
Proof.
  unfold obj_has. induction o as [|[a x] o IH]; cbn; [reflexivity|].
  destruct (String.eqb_spec k' a) as [->|Hne]; [discriminate|].
  intros H. rewrite (IH H).
  destruct (String.eqb_spec k a) as [->|Hka]; [|reflexivity].
  destruct (String.eqb_spec a k'); congruence.
Qed.

Lemma obj_get_define k k' v (o : props) :
  obj_get k (obj_define k' v o) = if String.eqb k k' then Some v else obj_get k o.
Proof.
  unfold obj_define. destruct (obj_has k' o) eqn:E.
  - now apply obj_get_update.
  - destruct (array_index k'); [now apply obj_get_insert_index|now apply obj_get_app].
Qed.

Lemma obj_get_assign k k' v (o : props) :
  obj_get k (obj_assign k' v o)
  = if String.eqb k' "__proto__" then obj_get k o
    else if String.eqb k k' then Some v else obj_get k o.
Proof.
  unfold obj_assign. destruct (String.eqb k' "__proto__"); [reflexivity|].
  apply obj_get_define.
Qed.

Lemma obj_define_perm k v (o : props) :
  obj_has k o = false -> Permutation (obj_define k v o) (o ++ [(k, v)]).
Proof.
  intros H. unfold obj_define. rewrite H.
  destruct (array_index k); [apply prop_insert_index_perm|reflexivity].
Qed.

Lemma obj_assign_keys_NoDup k v (o : props) :
  List.NoDup (List.map fst o) -> List.NoDup (List.map fst (obj_assign k v o)).
Proof.
  intros H. unfold obj_assign. destruct (String.eqb k "__proto__"); [exact H|].
  unfold obj_define. destruct (obj_has k o) eqn:E.
  - now rewrite prop_update_keys.
  - assert (Hp : Permutation (List.map fst (o ++ [(k, v)]))
                   (List.map fst (match array_index k with
                                  | Some i => prop_insert_index i k v o
                                  | None => o ++ [(k, v)]
                                  end))).
    { apply Permutation_map. symmetry.
      destruct (array_index k); [apply prop_insert_index_perm|reflexivity]. }
    eapply Permutation_NoDup; [exact Hp|].
    rewrite List.map_app. cbn.
    apply obj_has_false in E.
    eapply Permutation_NoDup; [apply Permutation_cons_append|].
    now constructor.
Qed.

Lemma prop_update_values (P : value -> Prop) k v (o : props) :
  P v -> Forall P (List.map snd o) -> Forall P (List.map snd (prop_update k v o)).
Proof.
  intros Hv. induction o as [|[k' v'] o IH]; cbn; intros H; [constructor|].
  inversion H as [|? ? H1 H2]; subst.
  destruct (String.eqb k k'); cbn; constructor; auto.
Qed.

Lemma obj_assign_values (P : value -> Prop) k v (o : props) :
  P v -> Forall P (List.map snd o) -> Forall P (List.map snd (obj_assign k v o)).
Proof.
  intros Hv H. unfold obj_assign. destruct (String.eqb k "__proto__"); [exact H|].
  unfold obj_define. destruct (obj_has k o) eqn:E.
  - now apply prop_update_values.
  - assert (Hp : Permutation (List.map snd (o ++ [(k, v)]))
                   (List.map snd (match array_index k with
                                  | Some i => prop_insert_index i k v o
                                  | None => o ++ [(k, v)]
                                  end))).
    { apply Permutation_map. symmetry.
      destruct (array_index k); [apply prop_insert_index_perm|reflexivity]. }
    eapply Permutation_Forall; [exact Hp|].
    rewrite List.map_app. apply Forall_app. split; [exact H|].
    cbn. constructor; [exact Hv|constructor].
Qed.

(** ** [encodeFile] and [decodeFile] *)

(** X1: decodeFile undoes encodeFile.  For a file that is not empty and
    whose MIME type readAsDataURL writes as it is, decoding the data URL
    encodeFile resolves with, under the file's own name, gives back the
    same name, type and bytes; this holds in particular for every
    non-empty file whose type has the form type/subtype, both made of
    lower-case token characters. *)
Theorem decodeFile_encodeFile :
  (forall f, blob_ok f = true ->
             decodeFile (VStr (encodeFile f)) (VStr (file_name f)) = Ok f)
  /\ (forall name (a b : list ascii) bytes,
        a <> [] -> b <> [] -> bytes <> [] ->
        forallb is_lower_token a = true -> forallb is_lower_token b = true ->
        let f := mkFile name (string_of_list_ascii (a ++ "/"%char :: b)) bytes in
        decodeFile (VStr (encodeFile f)) (VStr name) = Ok f).
Proof.
  assert (H : forall f, blob_ok f = true ->
                        decodeFile (VStr (encodeFile f)) (VStr (file_name f)) = Ok f).
  { intros f Hf. unfold encodeFile. rewrite (decodeFile_readAsDataURL f _ Hf).
    now destruct f. }
  split; [exact H|].
  intros name a b bytes Ha Hb Hbytes Hta Htb f.
  apply (H f). unfold blob_ok, f. cbn [file_type file_bytes].
  rewrite (token_type_ok a b Ha Hb Hta Htb).
  now destruct bytes.
Qed.

Lemma decodeFile_encodeFile_witness :
  let f := mkFile "a.txt" "text/plain" ["H"; "i"]%char in
  let g := mkFile "b.bin" "application/vnd.ms-excel" ["x"]%char in
  decodeFile (VStr (encodeFile f)) (VStr (file_name f)) = Ok f
  /\ decodeFile (VStr (encodeFile g)) (VStr "b.bin") = Ok g.
Proof.
  intros f g. destruct decodeFile_encodeFile as [H1 H2]. split.
  - apply (H1 f). reflexivity.
  - apply (H2 "b.bin" (list_ascii_of_string "application")
              (list_ascii_of_string "vnd.ms-excel") ["x"%char]);
      (discriminate || reflexivity).
Defined.

(** X2: decodeFile reads only the first two comma-separated parts of its
    argument: whatever follows a second comma has no effect on the
    result, be it a file or an error. *)
Theorem decodeFile_ignores_extra_parts a b c fileName :
  no_char ","%char a = true ->
  no_char ","%char b = true ->
  decodeFile (VStr (a +:+ String "," (b +:+ String "," c))) fileName
  = decodeFile (VStr (a +:+ String "," b)) fileName.
Proof.
  intros Ha Hb. unfold decodeFile.
  rewrite (split_on_app _ a _ Ha), (split_on_app _ b _ Hb).
  rewrite (split_on_app _ a _ Ha), (split_on_none _ b Hb).
  reflexivity.
Qed.

Lemma decodeFile_ignores_extra_parts_witness :
  decodeFile (VStr ("data:text/plain;base64" +:+ String "," ("SGk=" +:+ String "," "junk")))
             (VStr "a.txt")
  = decodeFile (VStr ("data:text/plain;base64" +:+ String "," "SGk=")) (VStr "a.txt").
Proof.
  apply (decodeFile_ignores_extra_parts "data:text/plain;base64" "SGk=" "junk");
    reflexivity.
Defined.

Lemma split_on_no_char c sep s :
  no_char c s = true -> Forall (fun p => no_char c p = true) (split_on sep s).
Proof.
  induction s as [|x s IH]; cbn.
  - intros _. now constructor.
  - intros H. apply andb_prop in H as [Hx Hs]. specialize (IH Hs).
    destruct (Ascii.eqb x sep).
    + constructor; [reflexivity|exact IH].
    + destruct (split_on sep s) as [|h t].
      * constructor; [|constructor]. cbn. now rewrite Hx.
      * inversion IH as [|? ? Hh Ht]; subst.
        constructor; [|exact Ht]. cbn. now rewrite Hx, Hh.
Qed.

Lemma split_on_head_no_char c sep s :
  no_char c s = true -> no_char c (nth 0 (split_on sep s) EmptyString) = true.
Proof.
  intros H. apply (split_on_no_char c sep) in H.
  destruct (split_on sep s); [reflexivity|]. now inversion H.
Qed.

Lemma match_mime_no_colon s : no_char ":"%char s = true -> match_mime s = None.
Proof.
  induction s as [|x s IH]; cbn; [reflexivity|].
  intros H. apply andb_prop in H as [Hx Hs].
  apply negb_true_iff in Hx. rewrite Hx. now apply IH.
Qed.

Lemma lazy_until_semicolon_none s :
  no_char ";"%char s = true -> lazy_until_semicolon s = None.
Proof.
  induction s as [|x s IH]; cbn; [reflexivity|].
  intros H. apply andb_prop in H as [Hx Hs].
  apply negb_true_iff in Hx. rewrite Hx, (IH Hs).
  now destruct (is_line_terminator x).
Qed.

Lemma match_mime_no_semicolon s : no_char ";"%char s = true -> match_mime s = None.
Proof.
  induction s as [|x s IH]; cbn; [reflexivity|].
  intros H. apply andb_prop in H as [Hx Hs].
  rewrite (IH Hs), (lazy_until_semicolon_none s Hs).
  now destruct (Ascii.eqb x ":").
Qed.

Lemma decodeFile_error_kept s e :
  decodeFile (VStr s) (VStr "unknown-filename") = Err e ->
  decodeNestedFormData (VStr s) = Ok (VStr s).
Proof. intros H. cbn [decodeNestedFormData]. now rewrite H. Qed.

(** X3: a string payload that lacks one of the characters ',', ':' and
    ';' is never taken for a data URL: decodeNestedFormData returns it
    as the same string. *)
Theorem plain_text_kept s :
  no_char ","%char s = true \/ no_char ":"%char s = true \/ no_char ";"%char s = true ->
  decodeNestedFormData (VStr s) = Ok (VStr s).
Proof.
  intros [H|H]; [now apply decode_string_without_comma|].
  assert (Hm : match_mime (nth 0 (split_on ","%char s) EmptyString) = None).
  { destruct H as [H|H].
    - apply match_mime_no_colon. now apply split_on_head_no_char.
    - apply match_mime_no_semicolon. now apply split_on_head_no_char. }
  destruct (decodeFile (VStr s) (VStr "unknown-filename")) as [f|e] eqn:E.
  - exfalso. unfold decodeFile in E. rewrite Hm in E.
    destruct (_ || _); discriminate.
  - now apply (decodeFile_error_kept s e).
Qed.

Lemma plain_text_kept_witness :
  decodeNestedFormData (VStr "at 10:30, bring a pen") = Ok (VStr "at 10:30, bring a pen").
Proof. apply plain_text_kept. right. right. reflexivity. Defined.

(** ** Which strings [decodeNestedFormData] leaves alone *)

Lemma decode_digits_alphabet n :
  forall cs bs, length cs <= n ->
    Base64.decode_digits cs = Some bs ->
    forall c, In c cs -> Base64.index c <> None.
Proof.
  induction n as [|n IH]; intros cs bs Hlen Hd c Hin.
  - destruct cs; [destruct Hin|cbn in Hlen; lia].
  - destruct cs as [|c0 [|c1 [|c2 [|c3 rest]]]]; cbn [Base64.decode_digits] in Hd.
    + destruct Hin.
    + discriminate.
    + destruct (Base64.index c0) eqn:E0; [|discriminate].
      destruct (Base64.index c1) eqn:E1; [|discriminate].
      destruct Hin as [<-|[<-|[]]]; congruence.
    + destruct (Base64.index c0) eqn:E0; [|discriminate].
      destruct (Base64.index c1) eqn:E1; [|discriminate].
      destruct (Base64.index c2) eqn:E2; [|discriminate].
      destruct Hin as [<-|[<-|[<-|[]]]]; congruence.
    + destruct (Base64.index c0) eqn:E0; [|discriminate].
      destruct (Base64.index c1) eqn:E1; [|discriminate].
      destruct (Base64.index c2) eqn:E2; [|discriminate].
      destruct (Base64.index c3) eqn:E3; [|discriminate].
      destruct (Base64.decode_digits rest) as [bs'|] eqn:Er; [|discriminate].
      destruct Hin as [<-|[<-|[<-|[<-|Hin]]]]; try congruence.
      apply (IH rest bs'); [cbn in Hlen; lia|exact Er|exact Hin].
Qed.

Lemma strip_rev_keeps c r :
  In c r -> Base64.is_pad c = false -> In c (Base64.strip_rev r).
Proof.
  intros Hin Hc. unfold Base64.strip_rev.
  destruct r as [|p [|q r']]; [destruct Hin| |].
  - destruct Hin as [<-|[]]. rewrite Hc. now left.
  - destruct (Base64.is_pad p) eqn:Ep; [|exact Hin].
    destruct Hin as [<-|Hin]; [congruence|].
    destruct (Base64.is_pad q) eqn:Eq; [|exact Hin].
    destruct Hin as [<-|Hin]; [congruence|exact Hin].
Qed.

(** [atob] rejects a string that holds a character which is neither a
    base64 digit, nor padding, nor whitespace. *)
Lemma atob_foreign_character s c :
  In c (list_ascii_of_string s) ->
  Base64.index c = None ->
  Base64.is_ascii_whitespace c = false ->
  c <> "="%char ->
  Base64.atob s = None.
Proof.
  intros Hin Hidx Hws Hpad. unfold Base64.atob.
  set (cs := List.filter _ (list_ascii_of_string s)).
  assert (Hcs : In c cs).
  { unfold cs. apply List.filter_In. split; [exact Hin|now rewrite Hws]. }
  assert (Hnp : Base64.is_pad c = false).
  { unfold Base64.is_pad. now apply Ascii.eqb_neq. }
  set (cs' := if (length cs mod 4 =? 0)%nat then Base64.strip_padding cs else cs).
  assert (Hcs' : In c cs').
  { unfold cs'. destruct (length cs mod 4 =? 0)%nat; [|exact Hcs].
    unfold Base64.strip_padding. apply in_rev. rewrite rev_involutive.
    apply strip_rev_keeps; [now apply in_rev in Hcs|exact Hnp]. }
  destruct (length cs' mod 4 =? 1)%nat; [reflexivity|].
  destruct (Base64.decode_digits cs') as [bs|] eqn:Ed; [|reflexivity].
  exfalso. exact (decode_digits_alphabet (length cs') cs' bs (le_n _) Ed c Hcs' Hidx).
Qed.

(** C6 (as amended): decodeNestedFormData never throws on a string.
    Whenever decodeFile throws on the string, the failure is recovered
    and the string is returned unchanged; that is the case for every
    string without a comma, with nothing before or nothing after its
    first comma, with no ':' or no ';' before its first comma, or with a
    character between its first and second comma that is neither a
    base64 digit, nor '=', nor whitespace.  A string on which decodeFile
    does not throw -- a data URL or not -- is returned as a File named
    "unknown-filename", not as the string. *)
Theorem string_decoding s :
  let prefix := nth 0 (split_on ","%char s) EmptyString in
  let base64Data := nth 1 (split_on ","%char s) EmptyString in
  (exists v, decodeNestedFormData (VStr s) = Ok v)
  /\ (forall e, decodeFile (VStr s) (VStr "unknown-filename") = Err e ->
                decodeNestedFormData (VStr s) = Ok (VStr s))
  /\ (no_char ","%char s = true
      \/ prefix = EmptyString \/ base64Data = EmptyString
      \/ no_char ":"%char prefix = true \/ no_char ";"%char prefix = true
      \/ (exists c, In c (list_ascii_of_string base64Data)
                    /\ Base64.index c = None
                    /\ Base64.is_ascii_whitespace c = false
                    /\ c <> "="%char) ->
      decodeNestedFormData (VStr s) = Ok (VStr s))
  /\ (forall f, decodeFile (VStr s) (VStr "unknown-filename") = Ok f ->
                decodeNestedFormData (VStr s) = Ok (VFile f)
                /\ file_name f = "unknown-filename").
Proof.
  cbv zeta.
  assert (Hkept : forall e, decodeFile (VStr s) (VStr "unknown-filename") = Err e ->
                            decodeNestedFormData (VStr s) = Ok (VStr s)).
  { intros e H. cbn [decodeNestedFormData]. now rewrite H. }
  split; [|split; [exact Hkept|split]].
  - cbn [decodeNestedFormData].
    destruct (decodeFile (VStr s) (VStr "unknown-filename")); eauto.
  - intros Hshape.
    destruct (decodeFile (VStr s) (VStr "unknown-filename")) as [f|e] eqn:E;
      [exfalso|now apply (Hkept e)].
    unfold decodeFile in E.
    set (prefix := nth 0 (split_on ","%char s) EmptyString) in *.
    set (base64Data := nth 1 (split_on ","%char s) EmptyString) in *.
    destruct Hshape as [H|[H|[H|[H|[H|(c & Hin & Hidx & Hws & Hpad)]]]]].
    + unfold base64Data in E. rewrite (split_on_none _ _ H) in E. cbn [nth] in E.
      cbn [String.eqb] in E. rewrite orb_true_r in E. discriminate.
    + rewrite H in E. cbn [String.eqb orb] in E. discriminate.
    + rewrite H in E. cbn [String.eqb] in E. rewrite orb_true_r in E. discriminate.
    + rewrite (match_mime_no_colon _ H) in E.
      destruct (_ || _); discriminate.
    + rewrite (match_mime_no_semicolon _ H) in E.
      destruct (_ || _); discriminate.
    + rewrite (atob_foreign_character _ c Hin Hidx Hws Hpad) in E.
      destruct (_ || _); [discriminate|].
      destruct (match_mime prefix); discriminate.
  - intros f E. cbn [decodeNestedFormData]. rewrite E. split; [reflexivity|].
    unfold decodeFile in E.
    destruct (_ || _); [discriminate|].
    destruct (match_mime _); [|discriminate].
    destruct (Base64.atob _); [|discriminate].
    cbn in E. now injection E as <-.
Qed.

Lemma string_decoding_witness :
  decodeNestedFormData (VStr "Hello, world; bye") = Ok (VStr "Hello, world; bye")
  /\ decodeNestedFormData (VStr "data:text/plain;base64,@@@@")
     = Ok (VStr "data:text/plain;base64,@@@@").
Proof.
  split.
  - destruct (string_decoding "Hello, world; bye") as (_ & _ & H & _).
    apply H. do 3 right. left. reflexivity.
  - destruct (string_decoding "data:text/plain;base64,@@@@") as (_ & _ & H & _).
    apply H. do 5 right. exists "@"%char. repeat split; [now left|discriminate].
Defined.

(** C6 (as stated) fails: the string below is no data URL -- it does not
    begin with "data:", so no file is encoded to it -- and yet decodeFile
    accepts it, so that decodeNestedFormData returns a File in its place. *)
Lemma plain_sentence_decoded_as_file :
  let s := "Dear team: thanks; regards,Anna" in
  (forall rest, s <> "data:" +:+ rest)
  /\ (forall f, encodeFile f <> s)
  /\ decodeNestedFormData (VStr s)
     = Ok (VFile (mkFile "unknown-filename" " thanks"
                         [ascii_of_N 2; ascii_of_N 121; ascii_of_N 218]))
  /\ ~ (forall s, (forall rest, s <> "data:" +:+ rest) ->
                  decodeNestedFormData (VStr s) = Ok (VStr s)).
Proof.
  cbv zeta.
  assert (Hd : decodeNestedFormData (VStr "Dear team: thanks; regards,Anna")
               = Ok (VFile (mkFile "unknown-filename" " thanks"
                                   [ascii_of_N 2; ascii_of_N 121; ascii_of_N 218])))
    by (vm_compute; reflexivity).
  assert (Hno : forall rest, "Dear team: thanks; regards,Anna" <> "data:" +:+ rest).
  { intros rest E. rewrite append_cons in E. discriminate. }
  split; [exact Hno|]. split; [|split; [exact Hd|]].
  - intros f E. unfold encodeFile, readAsDataURL in E. symmetry in E.
    exact (Hno _ E).
  - intros H. specialize (H "Dear team: thanks; regards,Anna" Hno).
    rewrite Hd in H. discriminate.
Qed.

(** ** The encoding of a form container *)

Lemma store_text_items_values (P : value -> Prop) fd acc :
  (forall e, P (encode_entry e)) ->
  Forall P (List.map snd acc) -> Forall P (List.map snd (store_text_items fd acc)).
Proof.
  intros HP. revert acc. induction fd as [|[k [s|f]] fd IH]; intros acc H; cbn.
  - exact H.
  - apply IH. apply obj_assign_values; [apply (HP (FText s))|exact H].
  - now apply IH.
Qed.

Lemma store_file_items_values (P : value -> Prop) fd acc :
  (forall e, P (encode_entry e)) ->
  Forall P (List.map snd acc) -> Forall P (List.map snd (store_file_items fd acc)).
Proof.
  intros HP. revert acc. induction fd as [|[k [s|f]] fd IH]; intros acc H; cbn.
  - exact H.
  - now apply IH.
  - apply IH. apply obj_assign_values; [apply (HP (FFile f))|exact H].
Qed.

Lemma encoded_items_values (P : value -> Prop) fd :
  (forall e, P (encode_entry e)) -> Forall P (List.map snd (encoded_items fd)).
Proof.
  intros HP. unfold encoded_items.
  apply store_file_items_values; [exact HP|].
  apply store_text_items_values; [exact HP|constructor].
Qed.

Lemma forallb_map_snd {A} (P : A -> bool) (l : list (string * A)) :
  forallb P (List.map snd l) = forallb (fun '(_, x) => P x) l.
Proof.
  induction l as [|[k x] l IH]; cbn; [reflexivity|now rewrite IH].
Qed.

Lemma Forall_forallb {A} (P : A -> bool) (l : list A) :
  Forall (fun x => P x = true) l -> forallb P l = true.
Proof.
  induction 1 as [|x l Hx _ IH]; cbn; [reflexivity|now rewrite Hx, IH].
Qed.

(** X4: what encodeFormData returns always passes isEncodedFormData,
    whatever the form holds, so decodeNestedFormData sends it to
    decodeFormData: an encoded form never comes back as a plain object. *)
Theorem encoded_form_recognized fd :
  isEncodedFormData (encodeFormData fd) = true
  /\ decodeNestedFormData (encodeNestedFormData (VForm fd))
     = let* fd' := decodeFormData (encodeFormData fd) in Ok (VForm fd').
Proof.
  assert (H : isEncodedFormData (encodeFormData fd) = true).
  { unfold isEncodedFormData, encodeFormData. cbn.
    apply Forall_forallb.
    apply (encoded_items_values (fun v => isEncodedFormDataItem v = true)).
    apply isEncodedFormDataItem_encode_entry. }
  split; [exact H|].
  cbn [encodeNestedFormData]. unfold encodeFormData in *.
  cbn [decodeNestedFormData]. now rewrite H.
Qed.

Lemma store_text_items_NoDup fd acc :
  List.NoDup (List.map fst acc) ->
  List.NoDup (List.map fst (store_text_items fd acc)).
Proof.
  revert acc. induction fd as [|[k [s|f]] fd IH]; intros acc H; cbn; auto.
  apply IH. now apply obj_assign_keys_NoDup.
Qed.

Lemma store_file_items_NoDup fd acc :
  List.NoDup (List.map fst acc) ->
  List.NoDup (List.map fst (store_file_items fd acc)).
Proof.
  revert acc. induction fd as [|[k [s|f]] fd IH]; intros acc H; cbn; auto.
  apply IH. now apply obj_assign_keys_NoDup.
Qed.

Lemma obj_get_store_text k fd acc :
  String.eqb k "__proto__" = false ->
  obj_get k (store_text_items fd acc)
  = match last_field is_text k fd with
    | Some e => Some (encode_entry e)
    | None => obj_get k acc
    end.
Proof.
  intros Hk. revert acc. induction fd as [|[k' [s|f]] fd IH]; intros acc; cbn.
  - reflexivity.
  - rewrite IH. destruct (last_field is_text k fd); [reflexivity|].
    rewrite obj_get_assign, andb_true_r.
    destruct (String.eqb_spec k k') as [<-|Hne]; [now rewrite Hk|].
    now destruct (String.eqb k' "__proto__").
  - rewrite IH. destruct (last_field is_text k fd); [reflexivity|].
    now rewrite andb_false_r.
Qed.

Lemma obj_get_store_file k fd acc :
  String.eqb k "__proto__" = false ->
  obj_get k (store_file_items fd acc)
  = match last_field (fun e => negb (is_text e)) k fd with
    | Some e => Some (encode_entry e)
    | None => obj_get k acc
    end.
Proof.
  intros Hk. revert acc. induction fd as [|[k' [s|f]] fd IH]; intros acc; cbn.
  - reflexivity.
  - rewrite IH. destruct (last_field _ k fd); [reflexivity|].
    now rewrite andb_false_r.
  - rewrite IH. destruct (last_field _ k fd); [reflexivity|].
    rewrite obj_get_assign, andb_true_r.
    destruct (String.eqb_spec k k') as [<-|Hne]; [now rewrite Hk|].
    now destruct (String.eqb k' "__proto__").
Qed.

Lemma store_text_items_proto fd acc :
  obj_get "__proto__" (store_text_items fd acc) = obj_get "__proto__" acc.
Proof.
  revert acc. induction fd as [|[k' [s|f]] fd IH]; intros acc; cbn; auto.
  rewrite IH, obj_get_assign.
  destruct (String.eqb_spec k' "__proto__") as [->|Hne]; [reflexivity|].
  destruct (String.eqb_spec "__proto__" k'); congruence.
Qed.

Lemma store_file_items_proto fd acc :
  obj_get "__proto__" (store_file_items fd acc) = obj_get "__proto__" acc.
Proof.
  revert acc. induction fd as [|[k' [s|f]] fd IH]; intros acc; cbn; auto.
  rewrite IH, obj_get_assign.
  destruct (String.eqb_spec k' "__proto__") as [->|Hne]; [reflexivity|].
  destruct (String.eqb_spec "__proto__" k'); congruence.
Qed.

(** The item under each key of an encoded form. *)
Lemma obj_get_encoded_items k fd :
  obj_get k (encoded_items fd)
  = if String.eqb k "__proto__" then None
    else option_map encode_entry (stored_field k fd).
Proof.
  unfold encoded_items, stored_field.
  destruct (String.eqb_spec k "__proto__") as [->|Hne].
  - now rewrite store_file_items_proto, store_text_items_proto.
  - apply String.eqb_neq in Hne.
    rewrite (obj_get_store_file _ _ _ Hne), (obj_get_store_text _ _ _ Hne).
    destruct (last_field _ k fd); [reflexivity|].
    now destruct (last_field is_text k fd).
Qed.

Lemma last_field_In keep k fd e :
  last_field keep k fd = Some e -> In (k, e) fd /\ keep e = true.
Proof.
  induction fd as [|[k' x] fd IH]; cbn; [discriminate|].
  destruct (last_field keep k fd) as [y|].
  - intros [= ->]. destruct (IH eq_refl). split; [now right|assumption].
  - destruct (String.eqb_spec k k') as [->|]; [|discriminate].
    destruct (keep x) eqn:E; [|discriminate].
    intros [= ->]. split; [now left|exact E].
Qed.

Lemma last_field_None keep k fd :
  last_field keep k fd = None -> forall e, In (k, e) fd -> keep e = false.
Proof.
  induction fd as [|[k' x] fd IH]; cbn; [intros _ e []|].
  destruct (last_field keep k fd) as [y|]; [discriminate|].
  intros H e [[= -> ->]|Hin].
  - rewrite String.eqb_refl in H. now destruct (keep e).
  - now apply IH.
Qed.

Lemma last_field_last keep k fd1 e fd2 :
  keep e = true ->
  (forall e', In (k, e') fd2 -> keep e' = false) ->
  last_field keep k (fd1 ++ (k, e) :: fd2) = Some e.
Proof.
  intros He Hrest. induction fd1 as [|[k' x] fd1 IH]; cbn.
  - destruct (last_field keep k fd2) as [y|] eqn:E.
    + apply last_field_In in E as [Hin Hy]. rewrite (Hrest y Hin) in Hy. discriminate.
    + now rewrite String.eqb_refl, He.
  - now rewrite IH.
Qed.

(** X5: the items of an encoded form.  They hold one item per distinct
    field name of the form, the name "__proto__" excepted, which gets no
    item.  Under a name that some file field carries the item is the
    encoding of a file field of that name, even if a text field of the
    same name comes later in the form; under any other name it is the
    encoding of the last text field of that name. *)
Theorem encodeFormData_items_by_key fd :
  List.NoDup (List.map fst (encoded_items fd))
  /\ obj_get "__proto__" (encoded_items fd) = None
  /\ forall k, k <> "__proto__" ->
       (In k (List.map fst (encoded_items fd)) <-> In k (List.map fst fd))
       /\ (forall f, In (k, FFile f) fd ->
             exists g, In (k, FFile g) fd
                       /\ obj_get k (encoded_items fd) = Some (encode_file_item g))
       /\ (forall fd1 s fd2,
             fd = fd1 ++ (k, FText s) :: fd2 ->
             ~ In k (List.map fst fd2) ->
             (forall f, ~ In (k, FFile f) fd1) ->
             obj_get k (encoded_items fd) = Some (encode_text_item s)).
Proof.
  split; [|split].
  - unfold encoded_items. apply store_file_items_NoDup, store_text_items_NoDup.
    constructor.
  - rewrite obj_get_encoded_items. reflexivity.
  - intros k Hk. apply String.eqb_neq in Hk.
    pose proof (obj_get_encoded_items k fd) as Hget. rewrite Hk in Hget.
    split; [|split].
    + rewrite <- obj_has_In. unfold obj_has. rewrite Hget. unfold stored_field.
      split.
      * destruct (last_field _ k fd) as [e|] eqn:E1.
        { intros _. apply last_field_In in E1 as [Hin _].
          apply (in_map fst) in Hin. exact Hin. }
        destruct (last_field is_text k fd) as [e|] eqn:E2; [|discriminate].
        intros _. apply last_field_In in E2 as [Hin _].
        apply (in_map fst) in Hin. exact Hin.
      * intros Hin. apply in_map_iff in Hin as ([k' e] & Hfst & Hin).
        cbn in Hfst. subst k'.
        destruct (last_field _ k fd) as [x|] eqn:E1; [reflexivity|].
        destruct (last_field is_text k fd) as [x|] eqn:E2; [reflexivity|].
        pose proof (last_field_None _ _ _ E1 e Hin) as H1.
        pose proof (last_field_None _ _ _ E2 e Hin) as H2.
        cbn in H1. rewrite H2 in H1. discriminate.
    + intros f Hin. unfold stored_field in Hget.
      destruct (last_field _ k fd) as [x|] eqn:E1.
      * apply last_field_In in E1 as [Hx Hfile].
        destruct x as [s|g]; [discriminate|].
        exists g. split; [exact Hx|exact Hget].
      * pose proof (last_field_None _ _ _ E1 _ Hin) as H1. discriminate.
    + intros fd1 s fd2 -> Hlater Hnofile. unfold stored_field in Hget.
      assert (Hfd2 : forall e, ~ In (k, e) fd2).
      { intros e Hin. apply Hlater. now apply (in_map fst) in Hin. }
      destruct (last_field _ k _) as [x|] eqn:E1.
      * apply last_field_In in E1 as [Hx Hfile].
        destruct x as [t|g]; [discriminate|].
        apply in_app_or in Hx as [Hx|[Hx|Hx]];
          [now destruct (Hnofile g)|discriminate|now destruct (Hfd2 (FFile g))].
      * rewrite (last_field_last is_text k fd1 (FText s) fd2) in Hget; auto.
        intros e' Hin. now destruct (Hfd2 e').
Qed.

Lemma encodeFormData_items_by_key_witness :
  let f := mkFile "a.txt" "text/plain" ["H"; "i"]%char in
  let fd := [("k", FText "one"); ("k", FFile f); ("k", FText "two");
             ("t", FText "a"); ("t", FText "b")] in
  (exists g, In ("k", FFile g) fd
             /\ obj_get "k" (encoded_items fd) = Some (encode_file_item g))
  /\ obj_get "t" (encoded_items fd) = Some (encode_text_item "b").
Proof.
  intros f fd.
  destruct (encodeFormData_items_by_key fd) as (_ & _ & H).
  split.
  - destruct (H "k") as (_ & Hfile & _); [discriminate|].
    apply (Hfile f). right. left. reflexivity.
  - destruct (H "t") as (_ & _ & Htext); [discriminate|].
    apply (Htext [("k", FText "one"); ("k", FFile f); ("k", FText "two"); ("t", FText "a")]
                 "b" []).
    + reflexivity.
    + intros [].
    + intros g Hin. cbn in Hin.
      destruct Hin as [Hin|[Hin|[Hin|[Hin|[]]]]]; discriminate.
Defined.

(** ** What [encodeNestedFormData] puts on the wire *)

Lemma assign_entries_values (P : value -> Prop) f (o acc : props) :
  Forall (fun kv => P (f (snd kv))) o ->
  Forall P (List.map snd acc) ->
  Forall P (List.map snd (assign_entries f o acc)).
Proof.
  intros Ho. revert acc. induction Ho as [|[k v] o Hv _ IH]; intros acc Hacc; cbn.
  - exact Hacc.
  - apply IH. now apply obj_assign_values.
Qed.

Lemma transport_safe_encode_entry e : transport_safe (encode_entry e) = true.
Proof. destruct e; reflexivity. Qed.

Lemma Forall_forallb_snd {A} (P : A -> bool) (l : list (string * A)) :
  Forall (fun x => P x = true) (List.map snd l) ->
  forallb (fun '(_, x) => P x) l = true.
Proof.
  intros H. rewrite <- forallb_map_snd. now apply Forall_forallb.
Qed.

Lemma encodeNestedFormData_transport_safe v :
  transport_safe (encodeNestedFormData v) = true.
Proof.
  induction v as [| |b|n|s|f|fd|l IH|o IH] using value_ind; try reflexivity.
  - cbn [encodeNestedFormData]. unfold encodeFormData.
    cbn [transport_safe forallb]. rewrite andb_true_r, andb_true_l.
    apply Forall_forallb_snd.
    apply (encoded_items_values (fun v => transport_safe v = true)).
    apply transport_safe_encode_entry.
  - cbn [encodeNestedFormData transport_safe].
    apply Forall_forallb. apply List.Forall_map. exact IH.
  - cbn [encodeNestedFormData transport_safe].
    apply Forall_forallb_snd.
    apply assign_entries_values; [exact IH|constructor].
Qed.

(** X6: the value encodeNestedFormData resolves with holds no File and
    no FormData at any depth, whatever value it is given: every blob has
    become a string and every form container a plain object. *)
Theorem encoded_payload_transport_safe v :
  transport_safe (encodeNestedFormData v) = true
  /\ (forall f, encodeNestedFormData v <> VFile f)
  /\ (forall fd, encodeNestedFormData v <> VForm fd).
Proof.
  pose proof (encodeNestedFormData_transport_safe v) as H.
  split; [exact H|].
  split; intros x Hx; rewrite Hx in H; discriminate.
Qed.

Lemma forallb_snd_Forall {A} (P : A -> bool) (l : list (string * A)) :
  forallb (fun '(_, x) => P x) l = true -> Forall (fun kv => P (snd kv) = true) l.
Proof.
  induction l as [|[k x] l IH]; cbn; [constructor|].
  intros H. apply andb_prop in H as [Hx Hl]. constructor; auto.
Qed.

Lemma forallb_Forall {A} (P : A -> bool) (l : list A) :
  forallb P l = true -> Forall (fun x => P x = true) l.
Proof.
  induction l as [|x l IH]; cbn; [constructor|].
  intros H. apply andb_prop in H as [Hx Hl]. constructor; auto.
Qed.

Lemma Forall_mp {A} (P Q : A -> Prop) (l : list A) :
  Forall (fun x => P x -> Q x) l -> Forall P l -> Forall Q l.
Proof.
  induction 1 as [|x l Hx _ IH]; intros H; [constructor|].
  inversion H; subst. constructor; auto.
Qed.

Lemma map_id_Forall {A} (f : A -> A) (l : list A) :
  Forall (fun x => f x = x) l -> List.map f l = l.
Proof. induction 1 as [|x l Hx _ IH]; cbn; [reflexivity|now rewrite Hx, IH]. Qed.

(** On plain data the encoding changes nothing. *)
Lemma encodeNestedFormData_identity v :
  plain_data v = true -> encodeNestedFormData v = v.
Proof.
  induction v as [| |b|n|s|f|fd|l IH|o IH] using value_ind; try reflexivity;
    try discriminate.
  - cbn [plain_data encodeNestedFormData]. intros H. f_equal.
    apply map_id_Forall. apply forallb_Forall in H.
    exact (Forall_mp _ _ _ IH H).
  - cbn [plain_data encodeNestedFormData]. intros H.
    apply andb_prop in H as [H Hall]. apply andb_prop in H as [Hord Hplain].
    rewrite assign_entries_ordered by assumption. cbn [app]. f_equal.
    apply map_id_Forall. apply forallb_snd_Forall in Hall.
    pose proof (Forall_mp _ _ _ IH Hall) as Hid.
    eapply Forall_impl; [exact Hid|]. cbn.
    intros [k x] Hx. cbn in *. now rewrite Hx.
Qed.

(** ** Array-index keys denote distinct numbers *)

Lemma parse_digits_shift s :
  forall acc n, parse_digits acc s = Some n ->
  exists v, (v < 10 ^ N.of_nat (String.length s))%N
            /\ forall acc', parse_digits acc' s
                            = Some (acc' * 10 ^ N.of_nat (String.length s) + v)%N.
Proof.
  induction s as [|c s IH]; intros acc n H.
  - exists 0%N. split; [reflexivity|]. intros acc'. cbn. f_equal. lia.
  - cbn [parse_digits] in H |- *.
    destruct ((48 <=? N_of_ascii c) && (N_of_ascii c <=? 57))%N eqn:Ed; [|discriminate].
    destruct (IH _ _ H) as (v & Hv & Hall).
    apply andb_prop in Ed as [Hlo Hhi].
    apply N.leb_le in Hlo. apply N.leb_le in Hhi.
    exists ((N_of_ascii c - 48) * 10 ^ N.of_nat (String.length s) + v)%N.
    cbn [String.length]. rewrite Nat2N.inj_succ, N.pow_succ_r'.
    split; [nia|].
    intros acc'. rewrite Hall. f_equal. nia.
Qed.

Lemma N_of_ascii_inj c d : N_of_ascii c = N_of_ascii d -> c = d.
Proof.
  intros H. rewrite <- (ascii_N_embedding c), <- (ascii_N_embedding d). now rewrite H.
Qed.

Lemma parse_digits_inj s :
  forall t acc n,
    String.length s = String.length t ->
    parse_digits acc s = Some n -> parse_digits acc t = Some n -> s = t.
Proof.
  induction s as [|c s IH]; intros [|d t] acc n Hlen Hs Ht; try discriminate.
  - reflexivity.
  - cbn [String.length] in Hlen. injection Hlen as Hlen.
    cbn [parse_digits] in Hs, Ht.
    destruct ((48 <=? N_of_ascii c) && (N_of_ascii c <=? 57))%N eqn:Ec; [|discriminate].
    destruct ((48 <=? N_of_ascii d) && (N_of_ascii d <=? 57))%N eqn:Ed; [|discriminate].
    apply andb_prop in Ec as [Hc _]. apply N.leb_le in Hc.
    apply andb_prop in Ed as [Hd _]. apply N.leb_le in Hd.
    destruct (parse_digits_shift _ _ _ Hs) as (v1 & Hv1 & H1).
    destruct (parse_digits_shift _ _ _ Ht) as (v2 & Hv2 & H2).
    rewrite H1 in Hs. rewrite H2 in Ht. rewrite <- Hlen in Hv2, Ht.
    injection Hs as Hs. injection Ht as Ht.
    set (P := (10 ^ N.of_nat (String.length s))%N) in *.
    assert (Hcd : N_of_ascii c = N_of_ascii d) by nia.
    apply N_of_ascii_inj in Hcd. subst d. f_equal.
    apply (IH t (acc * 10 + (N_of_ascii c - 48))%N n Hlen).
    + rewrite H1. f_equal. exact Hs.
    + rewrite H2, <- Hlen. f_equal. exact Ht.
Qed.

Lemma parse_digits_bounds c s n :
  Ascii.eqb c "0"%char = false ->
  parse_digits 0 (String c s) = Some n ->
  (10 ^ N.of_nat (String.length s) <= n < 10 ^ N.of_nat (S (String.length s)))%N.
Proof.
  intros Hc H. cbn [parse_digits] in H.
  destruct ((48 <=? N_of_ascii c) && (N_of_ascii c <=? 57))%N eqn:Ed; [|discriminate].
  apply andb_prop in Ed as [Hlo Hhi].
  apply N.leb_le in Hlo. apply N.leb_le in Hhi.
  assert (Hne : N_of_ascii c <> 48%N).
  { intros E. apply Ascii.eqb_neq in Hc. apply Hc. now apply N_of_ascii_inj. }
  destruct (parse_digits_shift _ _ _ H) as (v & Hv & Hall).
  rewrite Hall in H. injection H as <-.
  rewrite Nat2N.inj_succ, N.pow_succ_r'. nia.
Qed.

Lemma array_index_inj a b n :
  array_index a = Some n -> array_index b = Some n -> a = b.
Proof.
  unfold array_index. destruct a as [|c a]; [discriminate|].
  destruct b as [|d b]; [discriminate|].
  destruct (Ascii.eqb c "0") eqn:Ec; destruct (Ascii.eqb d "0") eqn:Ed.
  - apply Ascii.eqb_eq in Ec, Ed. subst c d.
    destruct (String.eqb_spec a EmptyString); [|discriminate].
    destruct (String.eqb_spec b EmptyString); [|discriminate]. now subst.
  - destruct (String.eqb a EmptyString); [|discriminate]. intros [= <-].
    destruct (parse_digits 0 (String d b)) as [m|] eqn:Ep; [|discriminate].
    destruct (m <? 4294967295)%N; [|discriminate]. intros [= ->].
    apply (parse_digits_bounds _ _ _ Ed) in Ep.
    pose proof (N.pow_nonzero 10 (N.of_nat (String.length b))). lia.
  - destruct (parse_digits 0 (String c a)) as [m|] eqn:Ep; [|discriminate].
    destruct (m <? 4294967295)%N; [|discriminate]. intros [= ->].
    destruct (String.eqb b EmptyString); [|discriminate]. intros [= <-].
    apply (parse_digits_bounds _ _ _ Ec) in Ep.
    pose proof (N.pow_nonzero 10 (N.of_nat (String.length a))). lia.
  - destruct (parse_digits 0 (String c a)) as [m|] eqn:Ea; [|discriminate].
    destruct (m <? 4294967295)%N; [|discriminate]. intros [= ->].
    destruct (parse_digits 0 (String d b)) as [m|] eqn:Eb; [|discriminate].
    destruct (m <? 4294967295)%N; [|discriminate]. intros [= ->].
    pose proof (parse_digits_bounds _ _ _ Ec Ea) as [Ha1 Ha2].
    pose proof (parse_digits_bounds _ _ _ Ed Eb) as [Hb1 Hb2].
    assert (Hlen : String.length a = String.length b).
    { destruct (Nat.lt_trichotomy (String.length a) (String.length b)) as [Hlt|[He|Hgt]];
        [exfalso|exact He|exfalso].
      - assert (10 ^ N.of_nat (S (String.length a)) <= 10 ^ N.of_nat (String.length b))%N
          by (apply N.pow_le_mono_r; lia).
        lia.
      - assert (10 ^ N.of_nat (S (String.length b)) <= 10 ^ N.of_nat (String.length a))%N
          by (apply N.pow_le_mono_r; lia).
        lia. }
    apply (parse_digits_inj _ _ 0%N n); [cbn; now rewrite Hlen|exact Ea|exact Eb].
Qed.

(** ** Assignment keeps the enumeration order of an object *)

Lemma forallb_perm {A} (f : A -> bool) (l l' : list A) :
  Permutation l l' -> forallb f l = forallb f l'.
Proof.
  induction 1 as [|x l l' _ IH|x y l|l l1 l2 _ IH1 _ IH2]; cbn.
  - reflexivity.
  - now rewrite IH.
  - now rewrite !andb_assoc, (andb_comm (f y)).
  - now rewrite IH1.
Qed.

Lemma forallb_imp {A} (f g : A -> bool) (l : list A) :
  (forall x, f x = true -> g x = true) -> forallb f l = true -> forallb g l = true.
Proof.
  intros H. induction l as [|x l IH]; cbn; [reflexivity|].
  intros Hl. apply andb_prop in Hl as [Hx Hl]. now rewrite (H x Hx), IH.
Qed.

Lemma key_before_index_front k i k' x :
  array_index k = Some i ->
  (match array_index k' with Some j => (i <? j)%N | None => true end) = true ->
  key_before k' x = true -> key_before k x = true.
Proof.
  unfold key_before. intros -> Hk'.
  destruct (array_index k') as [j|], (array_index x) as [m|]; try reflexivity;
    try discriminate.
  intros H. apply N.ltb_lt in Hk', H. apply N.ltb_lt. lia.
Qed.

Lemma prop_insert_index_ordered i k v (o : props) :
  array_index k = Some i ->
  ~ In k (List.map fst o) ->
  keys_in_order (List.map fst o) = true ->
  keys_in_order (List.map fst (prop_insert_index i k v o)) = true.
Proof.
  intros Hk. induction o as [|[k' v'] o IH]; intros Hnew Hord; [reflexivity|].
  cbn [List.map fst keys_in_order] in Hord.
  apply andb_prop in Hord as [Hhead Hrest].
  assert (Hne : k <> k') by (intros ->; apply Hnew; now left).
  assert (Hnew' : ~ In k (List.map fst o)) by (intros H; apply Hnew; now right).
  assert (Hfront :
    (match array_index k' with Some j => (i <? j)%N | None => true end) = true ->
    keys_in_order (k :: k' :: List.map fst o) = true).
  { intros Hlt. cbn [keys_in_order forallb]. rewrite Hhead, Hrest, !andb_true_r.
    apply andb_true_intro. split.
    - unfold key_before. rewrite Hk. exact Hlt.
    - revert Hhead. apply forallb_imp. intros x.
      now apply (key_before_index_front k i k'). }
  cbn [prop_insert_index].
  destruct (array_index k') as [j|] eqn:Ek'; [|now apply Hfront].
  destruct (i <? j)%N eqn:Elt; [now apply Hfront|].
  cbn [List.map fst keys_in_order]. rewrite (IH Hnew' Hrest), andb_true_r.
  rewrite (forallb_perm _ _ (List.map fst (o ++ [(k, v)]))).
  2:{ apply Permutation_map, prop_insert_index_perm. }
  rewrite List.map_app, forallb_app, Hhead. cbn.
  rewrite andb_true_r. unfold key_before. rewrite Ek', Hk.
  apply N.ltb_lt. apply N.ltb_ge in Elt.
  assert (i <> j) by (intros ->; apply Hne; now apply (array_index_inj k k' j)).
  lia.
Qed.

Lemma keys_in_order_snoc ks k :
  keys_in_order ks = true ->
  forallb (fun a => key_before a k) ks = true ->
  keys_in_order (ks ++ [k]) = true.
Proof.
  induction ks as [|a ks IH]; cbn; [reflexivity|].
  intros H1 H2. apply andb_prop in H1 as [Ha Hks]. apply andb_prop in H2 as [Hak Hk].
  rewrite forallb_app, Ha, (IH Hks Hk). cbn. now rewrite Hak.
Qed.

Lemma obj_define_ordered k v (o : props) :
  keys_in_order (List.map fst o) = true ->
  keys_in_order (List.map fst (obj_define k v o)) = true.
Proof.
  intros Hord. unfold obj_define. destruct (obj_has k o) eqn:Ehas.
  - now rewrite prop_update_keys.
  - apply obj_has_false in Ehas.
    destruct (array_index k) as [i|] eqn:Ek.
    + now apply prop_insert_index_ordered.
    + rewrite List.map_app. cbn. apply keys_in_order_snoc; [exact Hord|].
      apply forallb_forall. intros a Ha. unfold key_before. rewrite Ek.
      destruct (array_index a); [reflexivity|].
      apply negb_true_iff, String.eqb_neq. intros ->. now apply Ehas.
Qed.

Lemma obj_assign_ordered k v (o : props) :
  keys_in_order (List.map fst o) = true ->
  keys_in_order (List.map fst (obj_assign k v o)) = true.
Proof.
  intros H. unfold obj_assign. destruct (String.eqb k "__proto__"); [exact H|].
  now apply obj_define_ordered.
Qed.

Lemma obj_assign_plain_keys k v (o : props) :
  plain_keys (List.map fst o) = true ->
  plain_keys (List.map fst (obj_assign k v o)) = true.
Proof.
  intros H. unfold obj_assign.
  destruct (String.eqb k "__proto__") eqn:Ek; [exact H|].
  unfold obj_define. destruct (obj_has k o) eqn:Ehas.
  - now rewrite prop_update_keys.
  - apply (plain_keys_perm (List.map fst (o ++ [(k, v)]))).
    + apply Permutation_map. symmetry.
      destruct (array_index k); [apply prop_insert_index_perm|reflexivity].
    + rewrite List.map_app. unfold plain_keys in *. rewrite forallb_app, H. cbn.
      now rewrite Ek.
Qed.

(** The shape of an object built by assignments: keys in enumeration
    order, none of them ["__proto__"]. *)
Lemma assign_entries_shape f (o acc : props) :
  keys_in_order (List.map fst acc) = true ->
  plain_keys (List.map fst acc) = true ->
  keys_in_order (List.map fst (assign_entries f o acc)) = true
  /\ plain_keys (List.map fst (assign_entries f o acc)) = true.
Proof.
  revert acc. induction o as [|[k x] o IH]; intros acc H1 H2; cbn; [now split|].
  apply IH; [now apply obj_assign_ordered|now apply obj_assign_plain_keys].
Qed.

Lemma store_text_items_shape fd acc :
  keys_in_order (List.map fst acc) = true ->
  plain_keys (List.map fst acc) = true ->
  keys_in_order (List.map fst (store_text_items fd acc)) = true
  /\ plain_keys (List.map fst (store_text_items fd acc)) = true.
Proof.
  revert acc. induction fd as [|[k [s|f]] fd IH]; intros acc H1 H2; cbn;
    [now split| |now apply IH].
  apply IH; [now apply obj_assign_ordered|now apply obj_assign_plain_keys].
Qed.

Lemma store_file_items_shape fd acc :
  keys_in_order (List.map fst acc) = true ->
  plain_keys (List.map fst acc) = true ->
  keys_in_order (List.map fst (store_file_items fd acc)) = true
  /\ plain_keys (List.map fst (store_file_items fd acc)) = true.
Proof.
  revert acc. induction fd as [|[k [s|f]] fd IH]; intros acc H1 H2; cbn;
    [now split|now apply IH|].
  apply IH; [now apply obj_assign_ordered|now apply obj_assign_plain_keys].
Qed.

Lemma plain_data_encode_entry e : plain_data (encode_entry e) = true.
Proof. destruct e; reflexivity. Qed.

Lemma encodeNestedFormData_plain v : plain_data (encodeNestedFormData v) = true.
Proof.
  induction v as [| |b|n|s|f|fd|l IH|o IH] using value_ind; try reflexivity.
  - cbn [encodeNestedFormData]. unfold encodeFormData. fold (encoded_items fd).
    assert (Hitems : plain_data (VObj (encoded_items fd)) = true).
    { cbn [plain_data]. unfold encoded_items.
      destruct (store_text_items_shape fd []) as [H1 H2]; [reflexivity|reflexivity|].
      destruct (store_file_items_shape fd _ H1 H2) as [H3 H4].
      rewrite H3, H4. cbn [andb].
      apply Forall_forallb_snd.
      apply (encoded_items_values (fun v => plain_data v = true)).
      apply plain_data_encode_entry. }
    change (plain_data (VObj [("dataType", VStr "formData");
                              ("items", VObj (encoded_items fd))]))
      with (true && (plain_data (VObj (encoded_items fd)) && true)).
    now rewrite Hitems.
  - cbn [encodeNestedFormData plain_data].
    apply Forall_forallb. apply List.Forall_map. exact IH.
  - cbn [encodeNestedFormData plain_data].
    destruct (assign_entries_shape encodeNestedFormData o []) as [H1 H2];
      [reflexivity|reflexivity|].
    rewrite H1, H2. cbn [andb].
    apply Forall_forallb_snd.
    apply assign_entries_values; [exact IH|constructor].
Qed.

(** X7: encodeNestedFormData is idempotent on values without
    "__proto__" keys.  For a value in which no object owns a "__proto__"
    key and no form container has a field of that name, the value
    encodeNestedFormData resolves with is plain data -- no blob, no form
    container, every object with its keys in enumeration order -- and
    encoding it a second time changes nothing; and any plain data is
    encoded to itself, property order included. *)
Theorem encode_idempotent v :
  (proto_free v = true ->
   plain_data (encodeNestedFormData v) = true
   /\ encodeNestedFormData (encodeNestedFormData v) = encodeNestedFormData v)
  /\ (plain_data v = true -> encodeNestedFormData v = v).
Proof.
  split.
  - intros _. pose proof (encodeNestedFormData_plain v) as Hplain.
    split; [exact Hplain|]. now apply encodeNestedFormData_identity.
  - apply encodeNestedFormData_identity.
Qed.

Lemma encode_idempotent_witness :
  let v := VObj [("0", VNum 7); ("note", VStr "Hello");
                 ("blob", VFile (mkFile "a.txt" "text/plain" ["H"; "i"]%char));
                 ("form", VForm [("t", FText "x"); ("t", FText "y")]);
                 ("list", VArr [VNull; VBool true; VObj [("a", VUndefined)]])] in
  let w := VObj [("0", VNum 7); ("list", VArr [VNull; VObj [("a", VUndefined)]])] in
  (plain_data (encodeNestedFormData v) = true
   /\ encodeNestedFormData (encodeNestedFormData v) = encodeNestedFormData v)
  /\ encodeNestedFormData w = w.
Proof.
  intros v w. split.
  - destruct (encode_idempotent v) as [H _]. apply H. reflexivity.
  - destruct (encode_idempotent w) as [_ H]. apply H. reflexivity.
Defined.

(** ** When [decodeNestedFormData] returns *)

Lemma try_map_total g (l : list value) :
  Forall (fun x => exists y, g x = Ok y) l -> exists l', try_map g l = Ok l'.
Proof.
  induction 1 as [|x l [y Hy] _ [l' IH]]; cbn.
  - now exists [].
  - rewrite Hy, IH. cbn. now eexists.
Qed.

Lemma try_assign_entries_total g (o acc : props) :
  Forall (fun kv => exists y, g (snd kv) = Ok y) o ->
  exists o', try_assign_entries g o acc = Ok o'.
Proof.
  intros H. revert acc. induction H as [|[k x] o [y Hy] _ IH]; intros acc; cbn.
  - now exists acc.
  - cbn in Hy. rewrite Hy. cbn. apply IH.
Qed.

(** X8: decodeNestedFormData throws only on the form path: on a value
    none of whose nested objects passes isEncodedFormData it returns,
    whatever strings, arrays and objects the value is made of. *)
Theorem decode_returns_without_forms v :
  no_encoded_form v = true -> exists v', decodeNestedFormData v = Ok v'.
Proof.
  induction v as [| |b|n|s|f|fd|l IH|o IH] using value_ind; intros H;
    try (eexists; reflexivity).
  - apply decode_string_total.
  - cbn [no_encoded_form] in H. cbn [decodeNestedFormData].
    destruct (try_map_total decodeNestedFormData l) as [l' Hl'].
    { apply forallb_Forall in H. exact (Forall_mp _ _ _ IH H). }
    rewrite Hl'. cbn. now eexists.
  - cbn [no_encoded_form] in H. apply andb_prop in H as [Hform Hall].
    apply negb_true_iff in Hform.
    cbn [decodeNestedFormData]. rewrite Hform.
    destruct (try_assign_entries_total decodeNestedFormData o []) as [o' Ho'].
    { apply forallb_snd_Forall in Hall. exact (Forall_mp _ _ _ IH Hall). }
    rewrite Ho'. cbn. now eexists.
Qed.

Lemma decode_returns_without_forms_witness :
  exists v',
    decodeNestedFormData
      (VObj [("dataType", VStr "formData"); ("items", VArr [VStr "x"]);
             ("list", VArr [VStr "data:text/plain;base64,SGk="; VNum 1])])
    = Ok v'.
Proof. apply decode_returns_without_forms. reflexivity. Defined.

(** ** Decoding an encoded form with repeated field names *)

Lemma obj_get_In k v (o : props) :
  List.NoDup (List.map fst o) -> In (k, v) o -> obj_get k o = Some v.
Proof.
  induction o as [|[k' v'] o IH]; cbn; [intros _ []|].
  intros Hnd [[= -> ->]|Hin].
  - now rewrite String.eqb_refl.
  - inversion Hnd as [|? ? Hk Hnd']; subst.
    destruct (String.eqb_spec k k') as [->|Hne]; [|now apply IH].
    exfalso. apply Hk. now apply (in_map fst) in Hin.
Qed.

Lemma encoded_items_NoDup fd : List.NoDup (List.map fst (encoded_items fd)).
Proof.
  unfold encoded_items. apply store_file_items_NoDup, store_text_items_NoDup.
  constructor.
Qed.

Lemma stored_field_In k fd e : stored_field k fd = Some e -> In (k, e) fd.
Proof.
  unfold stored_field. destruct (last_field _ k fd) as [x|] eqn:E1.
  - intros [= <-]. now apply last_field_In in E1.
  - intros E2. now apply last_field_In in E2.
Qed.

Lemma stored_field_Some k fd :
  In k (List.map fst fd) -> exists e, stored_field k fd = Some e.
Proof.
  intros Hin. apply in_map_iff in Hin as ([k' e] & Hfst & Hin). cbn in Hfst. subst k'.
  unfold stored_field.
  destruct (last_field _ k fd) as [x|] eqn:E1; [now eexists|].
  destruct (last_field is_text k fd) as [x|] eqn:E2; [now eexists|].
  pose proof (last_field_None _ _ _ E1 e Hin) as H1.
  pose proof (last_field_None _ _ _ E2 e Hin) as H2.
  cbn in H1. rewrite H2 in H1. discriminate.
Qed.

Lemma encoded_items_keys k fd :
  In k (List.map fst (encoded_items fd))
  <-> In k (List.map fst fd) /\ k <> "__proto__".
Proof.
  rewrite <- obj_has_In. unfold obj_has. rewrite obj_get_encoded_items.
  destruct (String.eqb_spec k "__proto__") as [->|Hne].
  - split; [discriminate|]. intros [_ H]. now destruct H.
  - split.
    + destruct (stored_field k fd) as [e|] eqn:E; [|discriminate].
      intros _. split; [|exact Hne].
      apply stored_field_In in E. now apply (in_map fst) in E.
    + intros [Hin _]. destruct (stored_field_Some k fd Hin) as [e ->]. reflexivity.
Qed.

Lemma encoded_items_fields fd :
  exists fd', encoded_items fd = List.map encode_field fd'
              /\ Forall (fun kv => In kv fd) fd'.
Proof.
  assert (H : Forall (fun kv => exists e, In (fst kv, e) fd /\ snd kv = encode_entry e)
                     (encoded_items fd)).
  { apply List.Forall_forall. intros [k v] Hin. cbn.
    pose proof (obj_get_In k v _ (encoded_items_NoDup fd) Hin) as Hget.
    rewrite obj_get_encoded_items in Hget.
    destruct (String.eqb k "__proto__"); [discriminate|].
    destruct (stored_field k fd) as [e|] eqn:E; [|discriminate].
    injection Hget as <-. exists e. split; [|reflexivity].
    now apply stored_field_In. }
  induction H as [|[k v] o (e & Hin & Hv) _ (fd' & -> & Hall)].
  - exists []. split; [reflexivity|constructor].
  - cbn in Hin, Hv. subst v. exists ((k, e) :: fd').
    split; [reflexivity|]. now constructor.
Qed.

(** X9: decoding the encoding of a form succeeds whenever each file it
    holds is non-empty and has a MIME type that readAsDataURL writes as
    it is (a lower-case type/subtype of token characters), repeated
    field names included.  The decoded form holds one field per distinct
    field name of the original ("__proto__" excepted), and each of its
    fields is a field of the original, name, text or file unchanged. *)
Theorem decode_encoded_form fd :
  forallb (fun kv => entry_ok (snd kv)) fd = true ->
  exists fd',
    decodeNestedFormData (encodeNestedFormData (VForm fd)) = Ok (VForm fd')
    /\ List.NoDup (List.map fst fd')
    /\ (forall k e, In (k, e) fd' -> In (k, e) fd)
    /\ (forall k, In k (List.map fst fd')
                  <-> In k (List.map fst fd) /\ k <> "__proto__").
Proof.
  intros Hok.
  destruct (encoded_items_fields fd) as (fd' & Hitems & Hsub).
  assert (Hkeys : List.map fst fd' = List.map fst (encoded_items fd))
    by (now rewrite Hitems, map_fst_encode_field).
  exists fd'. split; [|split; [|split]].
  - assert (Hform : isEncodedFormData (encodeFormData fd) = true).
    { unfold isEncodedFormData, encodeFormData. cbn.
      apply Forall_forallb.
      apply (encoded_items_values (fun v => isEncodedFormDataItem v = true)).
      apply isEncodedFormDataItem_encode_entry. }
    cbn [encodeNestedFormData]. unfold encodeFormData in *.
    cbn [decodeNestedFormData]. rewrite Hform.
    unfold decodeFormData. cbn [get_property obj_get String.eqb Ascii.eqb Bool.eqb].
    cbn [object_entries]. fold (encoded_items fd). rewrite Hitems.
    rewrite decode_items_encoded; [reflexivity|].
    apply Forall_forallb. apply forallb_Forall in Hok.
    rewrite List.Forall_forall in Hok, Hsub |- *.
    intros kv Hin. apply Hok, Hsub, Hin.
  - rewrite Hkeys. apply encoded_items_NoDup.
  - intros k e Hin. rewrite List.Forall_forall in Hsub. now apply Hsub.
  - intros k. rewrite Hkeys. apply encoded_items_keys.
Qed.

Lemma decode_encoded_form_witness :
  let f := mkFile "a.txt" "text/plain" ["H"; "i"]%char in
  let fd := [("k", FText "one"); ("k", FFile f); ("k", FText "two");
             ("t", FText "a"); ("t", FText "b")] in
  exists fd',
    decodeNestedFormData (encodeNestedFormData (VForm fd)) = Ok (VForm fd')
    /\ List.NoDup (List.map fst fd')
    /\ (forall k e, In (k, e) fd' -> In (k, e) fd)
    /\ (forall k, In k (List.map fst fd')
                  <-> In k (List.map fst fd) /\ k <> "__proto__").
Proof. intros f fd. apply (decode_encoded_form fd). reflexivity. Defined.


(** * Further properties of the entity registry and of messaging *)

(** ** [Entity.init] *)

(** X10: Entity.init takes effect once.  It leaves the system marked as
    initialized even when it throws, so that a further init, whatever
    its options, changes nothing and does not throw.  It throws exactly
    when the system was not initialized, no ambient global implements
    the message API and enableAutoCustomEmitter is false; the entity map
    has then been emptied, while no listener has been attached and the
    emitter is the one held before. *)
Theorem init_takes_effect_once w props props' :
  let w1 := fst (Entity_init w props) in
  isInitialized (statics w1) = true
  /\ Entity_init w1 props' = (w1, Ok tt)
  /\ (forall e, snd (Entity_init w props) = Err e <->
                e = NoTransportAvailable
                /\ isInitialized (statics w) = false
                /\ hostEmitter (platform w) = false
                /\ enableAutoCustomEmitter props = Some false)
  /\ (forall e, snd (Entity_init w props) = Err e ->
                instances (statics w1) = ∅
                /\ messageEmitter (statics w1) = messageEmitter (statics w)
                /\ platform w1 = platform w
                /\ heap w1 = heap w).
Proof.
  cbv zeta.
  assert (Hinit : isInitialized (statics (fst (Entity_init w props))) = true).
  { unfold Entity_init. destruct (isInitialized (statics w)) eqn:E; [exact E|].
    now destruct (createMessageEmitter _ _ _). }
  split; [exact Hinit|]. split.
  { unfold Entity_init at 1. now rewrite Hinit. }
  unfold Entity_init, createMessageEmitter.
  destruct (isInitialized (statics w)); cbn [fst snd].
  { split; [|discriminate]. intros e. split; [discriminate|].
    intros (_ & H & _). discriminate. }
  destruct (hostEmitter (platform w)); cbn [fst snd].
  { split; [|discriminate]. intros e. split; [discriminate|].
    intros (_ & _ & H & _). discriminate. }
  destruct (enableAutoCustomEmitter props) as [[|]|]; cbn [fst snd].
  - split; [|discriminate]. intros e. split; [discriminate|].
    intros (_ & _ & _ & H). discriminate.
  - split.
    + intros e. split; [intros [= <-]; tauto|]. now intros [-> _].
    + intros e _. now repeat split.
  - split; [|discriminate]. intros e. split; [discriminate|].
    intros (_ & _ & _ & H). discriminate.
Qed.

Lemma init_takes_effect_once_witness :
  let w := initial_world sample_platform in
  let strict := mkInitProps None (Some false) None None in
  let w1 := fst (Entity_init w strict) in
  snd (Entity_init w strict) = Err NoTransportAvailable
  /\ Entity_init w1 no_props = (w1, Ok tt)
  /\ messageEmitter (statics w1) = None
  /\ listeners (platform w1) = [].
Proof.
  intros w strict w1.
  destruct (init_takes_effect_once w strict no_props) as (_ & Hagain & Hthrows & Hkeeps).
  assert (Herr : snd (Entity_init w strict) = Err NoTransportAvailable).
  { apply Hthrows. repeat split; reflexivity. }
  destruct (Hkeeps _ Herr) as (_ & Hem & Hpf & _).
  split; [exact Herr|]. split; [exact Hagain|].
  split; [exact Hem|]. fold w1 in Hpf. now rewrite Hpf.
Defined.

(** ** [entity.destroy] *)

(** X12: entity.destroy() works by id.  It removes whatever instance is
    registered under the id of the entity it is called on, be it that
    entity or another one, and leaves every other registration in
    place; the entity objects (with their handlers and pending
    requests), the promises, the transport and the trace are untouched,
    so no pending request is settled; a second call changes nothing. *)
Theorem destroy_unregisters_id w this e :
  heap w !! this = Some e ->
  let w1 := destroy w this in
  Entity_getById w1 (e_id e) = None
  /\ (forall id, id <> e_id e -> Entity_getById w1 id = Entity_getById w id)
  /\ heap w1 = heap w /\ promises w1 = promises w /\ jobs w1 = jobs w
  /\ platform w1 = platform w /\ trace w1 = trace w
  /\ destroy w1 this = w1.
Proof.
  intros He. cbv zeta. unfold destroy, Entity_getById. rewrite He. cbn.
  rewrite He. cbn. split; [apply lookup_delete_eq|].
  split; [intros id Hne; now apply lookup_delete_ne|].
  repeat split. unfold set_statics, set_instances. cbn.
  now rewrite delete_delete_eq.
Qed.

Lemma destroy_unregisters_id_witness :
  Entity_getById reregistered_world "a" = Some 1
  /\ Entity_getById (destroy reregistered_world 0) "a" = None.
Proof.
  split; [reflexivity|].
  apply (destroy_unregisters_id reregistered_world 0 (mkEntity "a" [] ∅ false)).
  reflexivity.
Defined.

(** ** Handler calls caused by an incoming message *)

Lemma invocations_app t1 t2 :
  invocations (t1 ++ t2) = invocations t1 ++ invocations t2.
Proof. apply List.filter_app. Qed.

Lemma fold_record_unhandled err (l : list MessageHandler) w :
  jobs (fold_left (fun w _ => record (Unhandled err) w) l w) = jobs w
  /\ invocations (trace (fold_left (fun w _ => record (Unhandled err) w) l w))
     = invocations (trace w).
Proof.
  revert w. induction l as [|h l IH]; intros w; cbn [fold_left]; [now split|].
  destruct (IH (record (Unhandled err) w)) as [H1 H2]. rewrite H1, H2.
  split; [reflexivity|]. cbn. rewrite invocations_app. cbn. apply app_nil_r.
Qed.

Lemma flat_map_invoke this from decoded messageId (hs : list MessageHandler) :
  flat_map job_invocations
    (List.map (fun h => JInvoke this h from decoded messageId) hs)
  = List.map (fun h => Invoked this (h_id h) from decoded) hs.
Proof. induction hs as [|h hs IH]; cbn; [reflexivity|now rewrite IH]. Qed.

(** Whatever the message, the handler calls it causes are calls of the
    entity's subscribed handlers, all of them in order or none. *)
Lemma handle_new_invocations w this e data :
  heap w !! this = Some e ->
  jobs w = [] ->
  exists hs from decoded,
    (hs = [] \/ hs = e_messageHandlers e)
    /\ invocations (trace (drain (handleIncomingMessage w this data)))
       = invocations (trace w)
         ++ List.map (fun h => Invoked this (h_id h) from decoded) hs.
Proof.
  intros He Hq.
  assert (Hnone : forall w', invocations (trace w') = invocations (trace w) ->
                             flat_map job_invocations (jobs w') = [] ->
                             exists hs from decoded,
                               (hs = [] \/ hs = e_messageHandlers e)
                               /\ invocations (trace (drain w'))
                                  = invocations (trace w)
                                    ++ List.map (fun h => Invoked this (h_id h) from decoded) hs).
  { intros w' Ht Hj. exists [], EmptyString, VUndefined. split; [now left|].
    rewrite drain_invocations, Ht, Hj. reflexivity. }
  destruct (string_is (e_id e) (get_property "from" data)) eqn:Eself.
  { apply Hnone; unfold handleIncomingMessage; rewrite He, Eself;
      [reflexivity|now rewrite Hq]. }
  destruct (string_is "request" (get_property "type" data)) eqn:Ereq.
  - destruct (decodeNestedFormData (get_property "payload" data)) as [decoded|err] eqn:Ed.
    + exists (e_messageHandlers e), (string_property "from" data), decoded.
      split; [now right|].
      rewrite (handle_request w this e data decoded He Eself Ereq Ed).
      rewrite drain_invocations. cbn [trace jobs set_jobs]. rewrite Hq. cbn [app].
      now rewrite flat_map_invoke.
    + apply Hnone; unfold handleIncomingMessage; rewrite He, Eself, Ereq, Ed.
      * apply fold_record_unhandled.
      * destruct (fold_record_unhandled err (e_messageHandlers e) w) as [-> _].
        now rewrite Hq.
  - apply Hnone; unfold handleIncomingMessage; rewrite He, Eself, Ereq;
      destruct (string_is "response" (get_property "type" data));
      try reflexivity; try (now rewrite Hq);
      destruct (e_pendingRequests e !! string_property "messageId" data);
      try reflexivity; try (now rewrite Hq);
      destruct (decodeNestedFormData (get_property "payload" data));
      cbn; rewrite ?Hq, ?invocations_app; cbn; rewrite ?app_nil_r; reflexivity.
Qed.

(** ** Unsubscribing *)

Lemma filter_idemp {A} (P : A -> bool) (l : list A) :
  List.filter P (List.filter P l) = List.filter P l.
Proof.
  induction l as [|x l IH]; cbn; [reflexivity|].
  destruct (P x) eqn:E; cbn; rewrite ?E, IH; reflexivity.
Qed.

(** X11: the closure subscribeMessage returns removes every registration
    of its handler, however often the handler was subscribed, keeps the
    other handlers in their order, and changes nothing when called
    again; from then on no incoming message makes the entity call that
    handler, while an accepted request whose payload decodes still
    reaches the remaining handlers in order. *)
Theorem unsubscribe_stops_handler w this e handler :
  heap w !! this = Some e ->
  jobs w = [] ->
  let w1 := unsubscribe w this handler in
  let remaining :=
    List.filter (fun h => negb (h_id h =? h_id handler)%nat) (e_messageHandlers e) in
  heap w1 !! this
  = Some (mkEntity (e_id e) remaining (e_pendingRequests e) (e_verbose e))
  /\ unsubscribe w1 this handler = w1
  /\ (forall data, exists called,
        invocations (trace (drain (handleIncomingMessage w1 this data)))
        = invocations (trace w) ++ called
        /\ forall sender payload,
             ~ In (Invoked this (h_id handler) sender payload) called)
  /\ (forall data decoded,
        string_is (e_id e) (get_property "from" data) = false ->
        string_is "request" (get_property "type" data) = true ->
        decodeNestedFormData (get_property "payload" data) = Ok decoded ->
        invocations (trace (drain (handleIncomingMessage w1 this data)))
        = invocations (trace w)
          ++ List.map (fun h => Invoked this (h_id h) (string_property "from" data) decoded)
                      remaining).
Proof.
  intros He Hq. cbv zeta.
  set (remaining := List.filter _ (e_messageHandlers e)).
  set (e1 := mkEntity (e_id e) remaining (e_pendingRequests e) (e_verbose e)).
  assert (Hw1 : unsubscribe w this handler = set_heap (<[this := e1]> (heap w)) w).
  { unfold unsubscribe, update_entity. now rewrite He. }
  assert (He1 : heap (unsubscribe w this handler) !! this = Some e1).
  { rewrite Hw1. cbn. apply list_lookup_insert_eq. now apply lookup_lt_Some in He. }
  assert (Hq1 : jobs (unsubscribe w this handler) = []) by (now rewrite Hw1).
  assert (Ht1 : trace (unsubscribe w this handler) = trace w) by (now rewrite Hw1).
  split; [exact He1|]. split; [|split].
  - unfold unsubscribe at 1, update_entity. rewrite He1.
    unfold set_handlers, e1. cbn [e_messageHandlers e_id e_pendingRequests e_verbose].
    unfold remaining. rewrite filter_idemp. fold remaining. fold e1.
    rewrite Hw1. unfold set_heap. cbn. f_equal. apply list_insert_insert_eq.
  - intros data.
    destruct (handle_new_invocations _ this e1 data He1 Hq1)
      as (hs & from & decoded & Hhs & Hinv).
    exists (List.map (fun h => Invoked this (h_id h) from decoded) hs).
    rewrite Ht1 in Hinv. split; [exact Hinv|].
    intros sender payload Hin. apply in_map_iff in Hin as (h & Heq & Hh).
    destruct Hhs as [-> | ->]; [destruct Hh|].
    cbn in Hh. apply List.filter_In in Hh as [_ Hh].
    injection Heq as Hid _ _. rewrite Hid, Nat.eqb_refl in Hh. discriminate.
  - intros data decoded Hself Hreq Hdec.
    rewrite (handle_request _ this e1 data decoded He1 Hself Hreq Hdec).
    rewrite drain_invocations. cbn [trace jobs set_jobs]. rewrite Hq1, Ht1. cbn [app].
    now rewrite flat_map_invoke.
Qed.

Lemma unsubscribe_stops_handler_witness :
  let w := subscribeMessage sample_world 1 reply_hi in
  let w1 := unsubscribe w 1 reply_hi in
  heap w1 !! 1 = Some (mkEntity "2" [reply_twice] ∅ false)
  /\ invocations (trace (drain (handleIncomingMessage w1 1 (sample_request (VStr "Hello")))))
     = [Invoked 1 1 "1" (VStr "Hello")].
Proof.
  intros w w1.
  destruct (unsubscribe_stops_handler w 1
              (mkEntity "2" [reply_hi; reply_twice; reply_hi] ∅ false) reply_hi)
    as (Hheap & _ & _ & Hrest); [reflexivity|reflexivity|].
  split; [exact Hheap|].
  apply (Hrest (sample_request (VStr "Hello")) (VStr "Hello")); reflexivity.
Defined.

(** ** What a run of the queue posts, and what it leaves alone *)

Lemma lookup_map {A B} (f : A -> B) (l : list A) i :
  List.map f l !! i = option_map f (l !! i).
Proof.
  revert i. induction l as [|x l IH]; intros [|i]; cbn; auto.
Qed.








Lemma job_spawns_spawn_nothing w w' j :
  flat_map (job_spawns w') (job_spawns w j) = [].
Proof.
  destruct j as [| this h from payload mid |]; cbn; try reflexivity.
  induction (h_replies h from payload) as [|r l IH]; cbn; [reflexivity|exact IH].
Qed.









(** ** A request on its way *)


(** The state once [sendMessage] has run to its end. *)
Lemma send_posts w this e targetId message em :
  heap w !! this = Some e ->
  jobs w = [] ->
  messageEmitter (statics w) = Some em ->
  let p := length (promises w) in
  let messageId := uuid_stream (platform w) (uuid_next (platform w)) in
  drain (fst (sendMessage w this targetId message))
  = mkWorld (statics w)
            (<[this := set_pending (<[messageId := p]> (e_pendingRequests e)) e]> (heap w))
            (promises w ++ [match Entity_getById w (e_id e) with
                            | None => Rejected EntityDestroyed
                            | Some _ => Pending
                            end])
            []
            (set_posted
               (posted (platform w)
                ++ [(em, message_data Request messageId (e_id e) targetId
                                      (encodeNestedFormData message) (clock (platform w)))])
               (set_uuid_next (S (uuid_next (platform w))) (platform w)))
            (trace w).
Proof.
  intros He Hq Hem. cbv zeta.
  rewrite (sendMessage_spec _ _ _ _ _ He). cbn [fst]. rewrite Hq.
  unfold drain. cbn. rewrite Hem. reflexivity.
Qed.


Lemma lookup_snoc {A} (l : list A) x : (l ++ [x]) !! length l = Some x.
Proof. rewrite lookup_app_r by lia. now rewrite Nat.sub_diag. Qed.




(** What the listener does with an envelope made by this library. *)
Lemma onWindowMessage_envelope w type messageId from to payload timestamp :
  Entity_onWindowMessage w
    (VObj [("data", message_data type messageId from to payload timestamp)])
  = if bool_decide (from ∈ sourceEntityIdSet (statics w)) then w
    else match Entity_getById w to with
         | None => w
         | Some targetEntity =>
             handleIncomingMessage w targetEntity
               (message_data type messageId from to payload timestamp)
         end.
Proof. destruct type; reflexivity. Qed.

Lemma isMessageData_message_data type messageId from to payload timestamp :
  isMessageData (message_data type messageId from to payload timestamp) = true.
Proof. destruct type; reflexivity. Qed.

Lemma iter_fixed {A} (f : A -> A) (x : A) n : f x = x -> Nat.iter n f x = x.
Proof.
  intros H. induction n as [|n IH]; [reflexivity|].
  now rewrite Nat.iter_succ, IH.
Qed.

(** X13: a request addressed to an id under which no entity is
    registered is posted and then dropped by the listener, however many
    times the listener is attached: no handler runs, nothing is
    recorded or posted in return, and the sender's promise stays
    pending with its resolver still stored -- sendMessage itself never
    rejects or times out for an unknown target. *)
Theorem send_to_unknown_target w this e r targetId message em :
  heap w !! this = Some e ->
  Entity_getById w (e_id e) = Some r ->
  Entity_getById w targetId = None ->
  jobs w = [] ->
  posted (platform w) = [] ->
  messageEmitter (statics w) = Some em ->
  let messageId := uuid_stream (platform w) (uuid_next (platform w)) in
  let '(w1, p) := sendMessage w this targetId message in
  let w2 := deliver (drain w1) in
  promises w2 !! p = Some Pending
  /\ trace w2 = trace w
  /\ posted (platform w2) = []
  /\ jobs w2 = []
  /\ (exists e2, heap w2 !! this = Some e2
                 /\ e_pendingRequests e2 !! messageId = Some p)
  /\ deliver w2 = w2.
Proof.
  intros He Hreg Hto Hq Hposted Hem.
  pose proof (send_posts w this e targetId message em He Hq Hem) as H.
  cbv zeta in H. rewrite Hreg, Hposted in H. cbn [app] in H.
  destruct (sendMessage w this targetId message) as [w1 p] eqn:E.
  assert (Hp : p = length (promises w)).
  { rewrite (sendMessage_spec _ _ _ _ _ He) in E. now injection E as _ <-. }
  cbn [fst] in H. cbv zeta. rewrite H, Hp. clear H E Hp w1 p.
  set (msg := message_data _ _ _ _ _ _).
  set (w1 := mkWorld _ _ _ _ _ _).
  set (w1' := set_platform (set_posted [] (platform w1)) w1).
  assert (Hdrop : Entity_onWindowMessage w1' (VObj [("data", msg)]) = w1').
  { apply onWindowMessage_drop. do 3 right. exact Hto. }
  assert (Hd : deliver w1 = w1').
  { unfold deliver. cbn [posted platform w1 set_posted].
    fold w1'. rewrite iter_fixed by exact Hdrop. now apply drain_idle. }
  rewrite Hd. cbn.
  split; [apply lookup_snoc|]. split; [reflexivity|]. split; [reflexivity|].
  split; [reflexivity|]. split; [|reflexivity].
  eexists. split.
  - apply list_lookup_insert_eq. now apply lookup_lt_Some in He.
  - cbn. apply lookup_insert_eq.
Qed.

Lemma send_to_unknown_target_witness :
  let '(w1, p) := sendMessage sample_world 0 "nobody" (VStr "Hello") in
  let w2 := deliver (drain w1) in
  promises w2 !! p = Some Pending
  /\ trace w2 = []
  /\ posted (platform w2) = []
  /\ jobs w2 = []
  /\ (exists e2, heap w2 !! 0 = Some e2
                 /\ e_pendingRequests e2 !! "uuid-0" = Some p)
  /\ deliver w2 = w2.
Proof.
  apply (send_to_unknown_target sample_world 0 (mkEntity "1" [] ∅ false) 0 "nobody"
           (VStr "Hello") (CustomEmitter "bmCustomEventEmitter")); reflexivity.
Defined.

(** ** A request and its replies, end to end

    Entity [a] (object [ea]) sends [message] to [targetId], under which
    entity [b] (object [eb]) is registered; the state is at rest, with
    the listener attached once to the current emitter. *)

Section Exchange.

Variables (w : World) (a b : nat) (ea eb : EntityObj).
Variables (targetId : string) (message decoded : value) (em : emitter).

Hypothesis Ha : heap w !! a = Some ea.
Hypothesis Hb : heap w !! b = Some eb.
Hypothesis Htarget : Entity_getById w targetId = Some b.
Hypothesis Hids : e_id ea <> e_id eb.
Hypothesis Hsource : e_id ea ∉ sourceEntityIdSet (statics w).
Hypothesis Hidle : jobs w = [].
Hypothesis Hposted : posted (platform w) = [].
Hypothesis Hlisten : listeners (platform w) = [em].
Hypothesis Hemitter : messageEmitter (statics w) = Some em.
Hypothesis Hdecoded : decodeNestedFormData (encodeNestedFormData message) = Ok decoded.

Local Abbreviation messageId := (uuid_stream (platform w) (uuid_next (platform w))).
Local Abbreviation sent := (drain (fst (sendMessage w a targetId message))).
Local Abbreviation ea' :=
  (set_pending (<[messageId := length (promises w)]> (e_pendingRequests ea)) ea).
Local Abbreviation received :=
  (mkWorld (statics w) (<[a := ea']> (heap w))
           (promises w ++ [match Entity_getById w (e_id ea) with
                           | None => Rejected EntityDestroyed
                           | Some _ => Pending
                           end])
           (List.map (fun h => JInvoke b h (e_id ea) decoded messageId)
                     (e_messageHandlers eb))
           (set_posted [] (set_uuid_next (S (uuid_next (platform w))) (platform w)))
           (trace w)).
Local Abbreviation replies :=
  (flat_map (fun h => h_replies h (e_id ea) decoded) (e_messageHandlers eb)).
Local Abbreviation response r :=
  (message_data Response messageId (e_id eb) (e_id ea) (encodeNestedFormData r)
                (clock (platform w))).













End Exchange.





(** ** Properties of every reachable state *)

(** X16: in every state the public interface and the platform can
    reach -- continuations waiting or not -- each registered id denotes
    an entity object that carries that id, no entity object is
    registered under two ids, and the message listener is attached at
    most once, only while the system is initialized, and to the current
    emitter. *)
Theorem reachable_registry_consistent w :
  reachable w ->
  (forall id r, Entity_getById w id = Some r ->
                exists e, heap w !! r = Some e /\ e_id e = id)
  /\ (forall id1 id2 r, Entity_getById w id1 = Some r ->
                        Entity_getById w id2 = Some r -> id1 = id2)
  /\ length (listeners (platform w)) <= 1
  /\ (forall em, In em (listeners (platform w)) ->
                 isInitialized (statics w) = true
                 /\ messageEmitter (statics w) = Some em).
Proof.
  intros Hr. destruct (reachable_inv w Hr) as ((Hoff & Hon) & Hreg).
  assert (Hobj : forall id r, Entity_getById w id = Some r ->
                              exists e, heap w !! r = Some e /\ e_id e = id).
  { intros id r H. apply Hreg in H. unfold heap_ids in H. rewrite lookup_map in H.
    destruct (heap w !! r) as [e|]; [|discriminate].
    exists e. split; [reflexivity|]. cbn in H. congruence. }
  split; [exact Hobj|]. split; [|split].
  - intros id1 id2 r H1 H2.
    destruct (Hobj _ _ H1) as (e1 & He1 & <-).
    destruct (Hobj _ _ H2) as (e2 & He2 & <-). congruence.
  - destruct Hon as [->|(em & _ & ->)]; cbn; lia.
  - intros em Hin. destruct (isInitialized (statics w)) eqn:E.
    + split; [reflexivity|].
      destruct Hon as [Hnil|(em' & Hem & Hl)]; [rewrite Hnil in Hin; destruct Hin|].
      rewrite Hl in Hin. destruct Hin as [<-|[]]. exact Hem.
    + rewrite (Hoff eq_refl) in Hin. destruct Hin.
Qed.

Lemma reachable_registry_consistent_witness :
  let w := fst (sendMessage sample_world 0 "2" (VStr "Hello")) in
  jobs w <> []
  /\ (forall id r, Entity_getById w id = Some r ->
                   exists e, heap w !! r = Some e /\ e_id e = id)
  /\ (forall id1 id2 r, Entity_getById w id1 = Some r ->
                        Entity_getById w id2 = Some r -> id1 = id2)
  /\ length (listeners (platform w)) <= 1
  /\ (forall em, In em (listeners (platform w)) ->
                 isInitialized (statics w) = true
                 /\ messageEmitter (statics w) = Some em).
Proof.
  intros w. split; [vm_compute; discriminate|].
  apply (reachable_registry_consistent w).
  eapply reach_step; [|apply step_send_call].
  unfold sample_world. cbv zeta.
  repeat (eapply reach_step; [|constructor]).
  now apply reach_initial.
Defined.

(** ** What the listener and the queue leave alone *)

Lemma queue_ext_refl w : queue_ext w w.
Proof.
  repeat split. exists []. split; [now rewrite app_nil_r|reflexivity].
Qed.

Lemma queue_ext_trans w1 w2 w3 : queue_ext w1 w2 -> queue_ext w2 w3 -> queue_ext w1 w3.
Proof.
  intros (Hs & Hh & Hp & Hpf & n1 & Hj1 & Hsafe1) (Hs' & Hh' & Hp' & Hpf' & n2 & Hj2 & Hsafe2).
  repeat split; try congruence.
  exists (n1 ++ n2). split.
  - now rewrite Hj2, Hj1, app_assoc.
  - now rewrite forallb_app, Hsafe1, Hsafe2.
Qed.

Lemma queue_ext_record ev w : queue_ext w (record ev w).
Proof.
  repeat split. exists []. split; [cbn; now rewrite app_nil_r|reflexivity].
Qed.

Lemma queue_ext_enqueue j w : job_safe j = true -> queue_ext w (enqueue j w).
Proof.
  intros H. repeat split. exists [j]. split; [reflexivity|]. cbn. now rewrite H.
Qed.

Lemma queue_ext_fold {A} (f : World -> A -> World) (l : list A) w :
  (forall w x, queue_ext w (f w x)) -> queue_ext w (fold_left f l w).
Proof.
  intros Hf. revert w. induction l as [|x l IH]; intros w; cbn [fold_left].
  - apply queue_ext_refl.
  - eapply queue_ext_trans; [apply Hf|apply IH].
Qed.

Lemma queue_ext_handleIncomingMessage w this data :
  queue_ext w (handleIncomingMessage w this data).
Proof.
  unfold handleIncomingMessage.
  destruct (heap w !! this) as [e|]; [|apply queue_ext_refl].
  destruct (string_is (e_id e) (get_property "from" data)); [apply queue_ext_refl|].
  destruct (string_is "request" (get_property "type" data)).
  - apply queue_ext_fold. intros w0 h.
    destruct (decodeNestedFormData (get_property "payload" data));
      [now apply queue_ext_enqueue|apply queue_ext_record].
  - destruct (string_is "response" (get_property "type" data)); [|apply queue_ext_refl].
    destruct (e_pendingRequests e !! string_property "messageId" data);
      [|apply queue_ext_refl].
    destruct (decodeNestedFormData (get_property "payload" data));
      [now apply queue_ext_enqueue|apply queue_ext_record].
Qed.

Lemma queue_ext_onWindowMessage w event :
  queue_ext w (Entity_onWindowMessage w event).
Proof.
  unfold Entity_onWindowMessage.
  repeat match goal with |- context [if ?c then _ else _] => destruct c end;
    try apply queue_ext_refl.
  destruct (Entity_getById w _);
    [apply queue_ext_handleIncomingMessage|apply queue_ext_refl].
Qed.

Lemma queue_ext_iter w event n :
  queue_ext w (Nat.iter n (fun w => Entity_onWindowMessage w event) w).
Proof.
  induction n as [|n IH]; [apply queue_ext_refl|].
  rewrite Nat.iter_succ.
  eapply queue_ext_trans; [exact IH|apply queue_ext_onWindowMessage].
Qed.

(** ** Settled promises *)

Lemma promises_kept_refl w : promises_kept w w.
Proof. intros q st H. now exists st. Qed.

Lemma promises_kept_eq w w' : promises w' = promises w -> promises_kept w w'.
Proof. intros H q st Hq. exists st. now rewrite H. Qed.

Lemma promises_kept_trans w1 w2 w3 :
  promises_kept w1 w2 -> promises_kept w2 w3 -> promises_kept w1 w3.
Proof.
  intros H12 H23 q st Hq.
  destruct (H12 q st Hq) as (st2 & Hq2 & Hst2).
  destruct (H23 q st2 Hq2) as (st3 & Hq3 & Hst3).
  exists st3. split; [exact Hq3|].
  intros Hne. specialize (Hst2 Hne). subst st2. now apply Hst3.
Qed.

Lemma promises_kept_settle p s w : promises_kept w (settle p s w).
Proof.
  intros q st Hq. unfold settle.
  destruct (promises w !! p) as [[| |]|] eqn:Ep; try (now exists st).
  cbn. destruct (decide (p = q)) as [->|Hne].
  - exists s. split; [|congruence].
    apply list_lookup_insert_eq. now apply lookup_lt_Some in Hq.
  - exists st. now rewrite list_lookup_insert_ne.
Qed.

Lemma promises_update_entity this f w :
  promises (update_entity this f w) = promises w.
Proof. unfold update_entity. now destruct (heap w !! this). Qed.

Lemma promises_kept_run_job w j : promises_kept w (run_job w j).
Proof.
  destruct j as [ty mid from to payload | this h from payload mid | this mid p payload];
    cbn [run_job].
  - apply promises_kept_eq. now destruct (messageEmitter (statics w)).
  - apply promises_kept_eq. now rewrite fold_reply.
  - eapply promises_kept_trans; [apply (promises_kept_settle p (Fulfilled payload))|].
    apply promises_kept_eq, promises_update_entity.
Qed.

Lemma promises_kept_run_jobs fuel w : promises_kept w (run_jobs fuel w).
Proof.
  revert w. induction fuel as [|fuel IH]; intros w; cbn [run_jobs];
    [apply promises_kept_refl|].
  destruct (jobs w) as [|j rest]; [apply promises_kept_refl|].
  eapply promises_kept_trans; [|apply IH].
  eapply promises_kept_trans; [|apply promises_kept_run_job].
  now apply promises_kept_eq.
Qed.

Lemma promises_kept_drain w : promises_kept w (drain w).
Proof. apply promises_kept_run_jobs. Qed.

Lemma promises_kept_queue_ext w w' : queue_ext w w' -> promises_kept w w'.
Proof. intros (_ & _ & H & _). now apply promises_kept_eq. Qed.

Lemma promises_kept_sendMessage w this targetId message :
  promises_kept w (fst (sendMessage w this targetId message)).
Proof.
  assert (Happ : forall s, promises_kept w (set_promises (promises w ++ [s]) w)).
  { intros s q st Hq. exists st. split; [|reflexivity]. cbn.
    now apply lookup_app_l_Some. }
  destruct (heap w !! this) as [e|] eqn:He.
  - rewrite (sendMessage_spec _ _ _ _ _ He). cbn [fst].
    intros q st Hq. exists st. split; [|reflexivity]. cbn.
    now apply lookup_app_l_Some.
  - unfold sendMessage. cbn [heap set_promises]. rewrite He. apply Happ.
Qed.

Lemma promises_kept_deliver w : promises_kept w (deliver w).
Proof.
  unfold deliver. destruct (posted (platform w)) as [|[em msg] rest];
    [apply promises_kept_refl|].
  eapply promises_kept_trans; [|apply promises_kept_drain].
  eapply promises_kept_trans;
    [|apply promises_kept_queue_ext, queue_ext_iter].
  now apply promises_kept_eq.
Qed.

Lemma promises_kept_receive w : promises_kept w (receive w).
Proof.
  unfold receive. destruct (posted (platform w)) as [|[em msg] rest];
    [apply promises_kept_refl|].
  eapply promises_kept_trans;
    [|apply promises_kept_queue_ext, queue_ext_iter].
  now apply promises_kept_eq.
Qed.

Lemma promises_kept_step w w' : step w w' -> promises_kept w w'.
Proof.
  intros [w0 props | w0 | w0 id props | w0 this | w0 this h | w0 this h
          | w0 this targetId message | w0 | w0 event Hatt | w0 t Ht
          | w0 this targetId message | w0 | w0 event Hatt
          | w0 before j after Hj].
  - apply promises_kept_eq. unfold Entity_init.
    destruct (isInitialized (statics w0)); [reflexivity|].
    now destruct (createMessageEmitter _ _ _).
  - apply promises_kept_eq. unfold Entity_destroy.
    now destruct (messageEmitter (statics w0)).
  - apply promises_kept_eq. unfold constructor. cbn [statics set_heap].
    destruct (instances (statics w0) !! id);
      [destruct (default false (errorOnDuplicate props))|]; reflexivity.
  - apply promises_kept_eq. unfold destroy. now destruct (heap w0 !! this).
  - apply promises_kept_eq, promises_update_entity.
  - apply promises_kept_eq, promises_update_entity.
  - eapply promises_kept_trans;
      [apply promises_kept_sendMessage|apply promises_kept_drain].
  - apply promises_kept_deliver.
  - unfold dispatch.
    eapply promises_kept_trans; [|apply promises_kept_drain].
    apply promises_kept_queue_ext, queue_ext_onWindowMessage.
  - now apply promises_kept_eq.
  - apply promises_kept_sendMessage.
  - apply promises_kept_receive.
  - apply promises_kept_queue_ext, queue_ext_onWindowMessage.
  - eapply promises_kept_trans; [|apply promises_kept_run_job].
    now apply promises_kept_eq.
Qed.

(** X17: a promise returned by sendMessage never disappears, and once
    it is settled -- fulfilled by a response or rejected by the registry
    guard -- no call of the interface and no later message changes it:
    the first response wins, and a rejected request is never fulfilled
    afterwards. *)
Theorem settled_promise_is_final w w' q st :
  rtc step w w' ->
  promises w !! q = Some st ->
  (exists st', promises w' !! q = Some st')
  /\ (st <> Pending -> promises w' !! q = Some st).
Proof.
  intros Hsteps. revert st.
  induction Hsteps as [w|w w1 w' Hstep _ IH]; intros st Hq.
  - split; [now exists st|now intros _].
  - destruct (promises_kept_step _ _ Hstep q st Hq) as (st1 & Hq1 & Hst1).
    destruct (IH st1 Hq1) as [Hex Hfinal].
    split; [exact Hex|]. intros Hne.
    specialize (Hst1 Hne). subst st1. now apply Hfinal.
Qed.

Lemma settled_promise_is_final_witness :
  let w := deliver (deliver (drain (fst (sendMessage sample_world 0 "2" (VStr "Hello"))))) in
  promises w !! 0 = Some (Fulfilled (VStr "Hi"))
  /\ posted (platform w) <> []
  /\ promises (deliver (deliver w)) !! 0 = Some (Fulfilled (VStr "Hi")).
Proof.
  intros w.
  assert (Hq : promises w !! 0 = Some (Fulfilled (VStr "Hi")))
    by (vm_compute; reflexivity).
  split; [exact Hq|]. split; [vm_compute; discriminate|].
  apply (settled_promise_is_final w (deliver (deliver w)) 0 (Fulfilled (VStr "Hi")));
    [|exact Hq|discriminate].
  eapply rtc_l; [apply step_deliver|].
  eapply rtc_l; [apply step_deliver|]. apply rtc_refl.
Defined.

(** ** What goes on the wire *)

Lemma job_spawns_safe w j : forallb job_safe (job_spawns w j) = true.
Proof.
  destruct j as [| this h from payload mid |]; cbn; try reflexivity.
  induction (h_replies h from payload) as [|r l IH]; cbn; [reflexivity|].
  now rewrite encodeNestedFormData_transport_safe, IH.
Qed.

Lemma wire_ok_run_job w j :
  forallb wire_ok (posted (platform w)) = true ->
  job_safe j = true ->
  forallb wire_ok (posted (platform (run_job w j))) = true.
Proof.
  intros Hw Hj.
  destruct j as [ty mid from to payload | this h from payload mid | this mid p payload];
    cbn [run_job].
  - destruct (messageEmitter (statics w)) as [em|]; [|exact Hw].
    cbn. rewrite forallb_app, Hw. cbn [forallb]. rewrite andb_true_r.
    unfold wire_ok. cbn [snd]. rewrite isMessageData_message_data.
    cbn in Hj. now destruct ty.
  - rewrite fold_reply. exact Hw.
  - unfold update_entity, settle.
    destruct (promises w !! p) as [[| |]|]; cbn;
      now destruct (heap w !! this).
Qed.

Lemma wire_inv_run_jobs fuel w : wire_inv w -> wire_inv (run_jobs fuel w).
Proof.
  revert w. induction fuel as [|fuel IH]; intros w [Hw Hj]; cbn [run_jobs];
    [now split|].
  destruct (jobs w) as [|j rest] eqn:E; [split; [exact Hw|now rewrite E]|].
  cbn [forallb] in Hj. apply andb_prop in Hj as [Hj Hrest].
  apply IH. split.
  - now apply wire_ok_run_job.
  - rewrite run_job_jobs. cbn [jobs set_jobs].
    now rewrite forallb_app, Hrest, job_spawns_safe.
Qed.

Lemma wire_inv_drain w : wire_inv w -> wire_inv (drain w).
Proof. apply wire_inv_run_jobs. Qed.

Lemma wire_inv_queue_ext w w' : queue_ext w w' -> wire_inv w -> wire_inv w'.
Proof.
  intros (_ & _ & _ & Hpf & new & Hj & Hsafe) [Hw Hq]. split.
  - now rewrite Hpf.
  - now rewrite Hj, forallb_app, Hq, Hsafe.
Qed.

Lemma wire_inv_same w w' :
  posted (platform w') = posted (platform w) -> jobs w' = jobs w ->
  wire_inv w -> wire_inv w'.
Proof. intros Hp Hj [Hw Hq]. split; [now rewrite Hp|now rewrite Hj]. Qed.

Lemma wire_inv_sendMessage w this targetId message :
  wire_inv w -> wire_inv (fst (sendMessage w this targetId message)).
Proof.
  intros [Hw Hq]. destruct (heap w !! this) as [e|] eqn:He.
  - rewrite (sendMessage_spec _ _ _ _ _ He). cbn [fst]. split; [exact Hw|].
    cbn [jobs]. rewrite forallb_app, Hq. cbn.
    now rewrite encodeNestedFormData_transport_safe.
  - unfold sendMessage. cbn [heap set_promises]. rewrite He. now split.
Qed.

Lemma wire_inv_receive w : wire_inv w -> wire_inv (receive w).
Proof.
  intros Hinv. unfold receive.
  destruct (posted (platform w)) as [|[em msg] rest] eqn:Ep; [exact Hinv|].
  eapply wire_inv_queue_ext; [apply queue_ext_iter|].
  destruct Hinv as [Hw Hq]. rewrite Ep in Hw. cbn [forallb] in Hw.
  apply andb_prop in Hw as [_ Hrest]. now split.
Qed.

Lemma wire_inv_step w w' : step w w' -> wire_inv w -> wire_inv w'.
Proof.
  intros [w0 props | w0 | w0 id props | w0 this | w0 this h | w0 this h
          | w0 this targetId message | w0 | w0 event Hatt | w0 t Ht
          | w0 this targetId message | w0 | w0 event Hatt
          | w0 before j after Hj] Hinv.
  - revert Hinv. apply wire_inv_same; unfold Entity_init;
      (destruct (isInitialized (statics w0)); [reflexivity|]);
      now destruct (createMessageEmitter _ _ _).
  - revert Hinv. apply wire_inv_same; unfold Entity_destroy;
      now destruct (messageEmitter (statics w0)).
  - revert Hinv. apply wire_inv_same; unfold constructor; cbn [statics set_heap];
      (destruct (instances (statics w0) !! id);
       [destruct (default false (errorOnDuplicate props))|]); reflexivity.
  - revert Hinv. apply wire_inv_same; unfold destroy; now destruct (heap w0 !! this).
  - revert Hinv. apply wire_inv_same; unfold subscribeMessage, update_entity;
      now destruct (heap w0 !! this).
  - revert Hinv. apply wire_inv_same; unfold unsubscribe, update_entity;
      now destruct (heap w0 !! this).
  - now apply wire_inv_drain, wire_inv_sendMessage.
  - unfold deliver. destruct (posted (platform w0)) as [|[em msg] rest] eqn:Ep;
      [exact Hinv|].
    apply wire_inv_drain.
    eapply wire_inv_queue_ext; [apply queue_ext_iter|].
    destruct Hinv as [Hw Hq]. rewrite Ep in Hw. cbn [forallb] in Hw.
    apply andb_prop in Hw as [_ Hrest]. now split.
  - unfold dispatch. apply wire_inv_drain.
    eapply wire_inv_queue_ext; [apply queue_ext_onWindowMessage|exact Hinv].
  - revert Hinv. now apply wire_inv_same.
  - now apply wire_inv_sendMessage.
  - now apply wire_inv_receive.
  - eapply wire_inv_queue_ext; [apply queue_ext_onWindowMessage|exact Hinv].
  - destruct Hinv as [Hw Hq]. rewrite Hj, forallb_app in Hq.
    apply andb_prop in Hq as [Hbefore Hq]. cbn [forallb] in Hq.
    apply andb_prop in Hq as [Hsafe Hafter]. split.
    + now apply wire_ok_run_job.
    + rewrite run_job_jobs. cbn [jobs set_jobs].
      now rewrite !forallb_app, Hbefore, Hafter, job_spawns_safe.
Qed.

Lemma wire_inv_reachable w : reachable w -> wire_inv w.
Proof.
  induction 1 as [pf Hl Hp | w w' _ IH Hstep].
  - split; cbn; [now rewrite Hp|reflexivity].
  - now apply (wire_inv_step w).
Qed.

(** X18: in every reachable state, each message the library has posted
    is a well-formed envelope -- it passes isMessageData, the check the
    listener applies on receipt -- and its payload holds no File and no
    FormData at any depth. *)
Theorem posted_messages_well_formed w em msg :
  reachable w ->
  In (em, msg) (posted (platform w)) ->
  isMessageData msg = true
  /\ transport_safe (get_property "payload" msg) = true.
Proof.
  intros Hr Hin. destruct (wire_inv_reachable w Hr) as [Hw _].
  rewrite forallb_forall in Hw. specialize (Hw _ Hin).
  unfold wire_ok in Hw. cbn [snd] in Hw. now apply andb_prop in Hw.
Qed.

Lemma posted_messages_well_formed_witness :
  let form := VForm [("f", FFile (mkFile "a.txt" "text/plain" ["H"; "i"]%char))] in
  let w := drain (fst (sendMessage sample_world 0 "2" form)) in
  let msg := message_data Request "uuid-0" "1" "2" (encodeNestedFormData form) 1000 in
  posted (platform w) = [(CustomEmitter "bmCustomEventEmitter", msg)]
  /\ isMessageData msg = true
  /\ transport_safe (get_property "payload" msg) = true.
Proof.
  intros form w msg. split; [reflexivity|].
  apply (posted_messages_well_formed w (CustomEmitter "bmCustomEventEmitter") msg).
  - eapply reach_step; [|apply step_send].
    unfold sample_world. cbv zeta.
    repeat (eapply reach_step; [|constructor]).
    now apply reach_initial.
  - left. reflexivity.
Defined.


(** ** Decoding containers *)

Lemma try_map_ok g (l : list value) :
  is_ok (try_map g l) = forallb (fun x => is_ok (g x)) l.
Proof.
  induction l as [|x l IH]; cbn; [reflexivity|].
  destruct (g x) as [y|e]; cbn; [|reflexivity].
  rewrite <- IH. now destruct (try_map g l).
Qed.

Lemma try_map_first_error g (l1 : list value) x l2 e :
  forallb (fun x => is_ok (g x)) l1 = true ->
  g x = Err e ->
  try_map g (l1 ++ x :: l2) = Err e.
Proof.
  intros H1 Hx. induction l1 as [|y l1 IH]; cbn.
  - now rewrite Hx.
  - cbn in H1. apply andb_prop in H1 as [Hy H1].
    destruct (g y) as [y'|]; [|discriminate]. cbn. now rewrite (IH H1).
Qed.

Lemma try_assign_entries_ok g (o acc : props) :
  is_ok (try_assign_entries g o acc) = forallb (fun '(_, x) => is_ok (g x)) o.
Proof.
  revert acc. induction o as [|[k x] o IH]; intros acc; cbn; [reflexivity|].
  destruct (g x) as [y|e]; cbn; [apply IH|reflexivity].
Qed.

Lemma try_assign_entries_first_error g (o1 : props) k x o2 acc e :
  forallb (fun '(_, x) => is_ok (g x)) o1 = true ->
  g x = Err e ->
  try_assign_entries g (o1 ++ (k, x) :: o2) acc = Err e.
Proof.
  intros H1 Hx. revert acc. induction o1 as [|[k' y] o1 IH]; intros acc; cbn.
  - now rewrite Hx.
  - cbn in H1. apply andb_prop in H1 as [Hy H1].
    destruct (g y) as [y'|]; [|discriminate]. cbn. now apply IH.
Qed.

(** X21: decodeNestedFormData has no error handling of its own for
    containers: decoding an array returns exactly when decoding each
    element returns, decoding an object that is not an encoded form
    returns exactly when decoding each property value returns, and the
    error thrown is that of the first element or property, in
    enumeration order, whose decoding throws. *)
Theorem decode_containers_all_or_nothing :
  (forall l,
     is_ok (decodeNestedFormData (VArr l))
     = forallb (fun x => is_ok (decodeNestedFormData x)) l)
  /\ (forall l1 x l2 e,
        forallb (fun x => is_ok (decodeNestedFormData x)) l1 = true ->
        decodeNestedFormData x = Err e ->
        decodeNestedFormData (VArr (l1 ++ x :: l2)) = Err e)
  /\ (forall o,
        isEncodedFormData (VObj o) = false ->
        is_ok (decodeNestedFormData (VObj o))
        = forallb (fun '(_, x) => is_ok (decodeNestedFormData x)) o)
  /\ (forall o1 k x o2 e,
        isEncodedFormData (VObj (o1 ++ (k, x) :: o2)) = false ->
        forallb (fun '(_, x) => is_ok (decodeNestedFormData x)) o1 = true ->
        decodeNestedFormData x = Err e ->
        decodeNestedFormData (VObj (o1 ++ (k, x) :: o2)) = Err e).
Proof.
  split; [|split; [|split]].
  - intros l. cbn [decodeNestedFormData]. rewrite <- try_map_ok.
    now destruct (try_map decodeNestedFormData l).
  - intros l1 x l2 e H1 Hx. cbn [decodeNestedFormData].
    now rewrite (try_map_first_error _ l1 x l2 e H1 Hx).
  - intros o Hform. cbn [decodeNestedFormData]. rewrite Hform.
    rewrite <- (try_assign_entries_ok decodeNestedFormData o []).
    now destruct (try_assign_entries decodeNestedFormData o []).
  - intros o1 k x o2 e Hform H1 Hx. cbn [decodeNestedFormData]. rewrite Hform.
    now rewrite (try_assign_entries_first_error _ o1 k x o2 [] e H1 Hx).
Qed.

Lemma decode_containers_all_or_nothing_witness :
  decodeNestedFormData (VArr [VStr "fine"; malformed_form_payload; VNum 1])
  = Err InvalidBase64Format
  /\ decodeNestedFormData
       (VObj [("a", VStr "fine"); ("b", malformed_form_payload); ("c", VNum 1)])
     = Err InvalidBase64Format.
Proof.
  destruct decode_containers_all_or_nothing as (_ & Harr & _ & Hobj).
  split.
  - apply (Harr [VStr "fine"] malformed_form_payload [VNum 1]); reflexivity.
  - apply (Hobj [("a", VStr "fine")] "b" malformed_form_payload [("c", VNum 1)]);
      reflexivity.
Defined.

(** ** Subscribing and unsubscribing *)

Lemma filter_all {A} (P : A -> bool) (l : list A) :
  (forall x, In x l -> P x = true) -> List.filter P l = l.
Proof.
  induction l as [|x l IH]; cbn; intros H; [reflexivity|].
  rewrite (H x) by now left. f_equal. apply IH. intros y Hy. apply H. now right.
Qed.

(** X22: subscribing a handler that was not subscribed and then calling
    the closure subscribeMessage returned restores the state: the other
    handlers, their order, the pending requests and everything else. *)
Theorem subscribe_then_unsubscribe w this e handler :
  heap w !! this = Some e ->
  (forall h, In h (e_messageHandlers e) -> h_id h <> h_id handler) ->
  unsubscribe (subscribeMessage w this handler) this handler = w.
Proof.
  intros He Hnew. unfold subscribeMessage, unsubscribe, update_entity.
  rewrite He. cbn [heap set_heap].
  rewrite list_lookup_insert_eq by (now apply lookup_lt_Some in He).
  unfold set_handlers. cbn [e_messageHandlers e_id e_pendingRequests e_verbose].
  rewrite List.filter_app. cbn [List.filter]. rewrite Nat.eqb_refl. cbn [negb].
  rewrite app_nil_r, filter_all.
  - rewrite list_insert_insert_eq.
    replace (mkEntity (e_id e) (e_messageHandlers e) (e_pendingRequests e) (e_verbose e))
      with e by (now destruct e).
    rewrite list_insert_id by exact He. now destruct w.
  - intros h Hh. apply negb_true_iff, Nat.eqb_neq. now apply Hnew.
Qed.

Lemma subscribe_then_unsubscribe_witness :
  let extra := mkHandler 7 (fun _ _ => [VNull]) in
  unsubscribe (subscribeMessage sample_world 1 extra) 1 extra = sample_world.
Proof.
  intros extra.
  apply (subscribe_then_unsubscribe sample_world 1
           (mkEntity "2" [reply_hi; reply_twice] ∅ false) extra).
  - reflexivity.
  - intros h [<-|[<-|[]]]; discriminate.
Defined.

(** ** Requests that are never answered *)

(** X23: an entity cannot message itself.  A request an entity sends to
    its own id is posted, comes back to that entity and is dropped by
    the self-message guard: no handler runs, nothing is posted in
    return, and the promise stays pending. *)
Theorem send_to_self_never_answered w this e message em :
  heap w !! this = Some e ->
  Entity_getById w (e_id e) = Some this ->
  jobs w = [] ->
  posted (platform w) = [] ->
  messageEmitter (statics w) = Some em ->
  let '(w1, p) := sendMessage w this (e_id e) message in
  let w2 := deliver (drain w1) in
  promises w2 !! p = Some Pending
  /\ trace w2 = trace w
  /\ posted (platform w2) = []
  /\ jobs w2 = [].
Proof.
  intros He Hreg Hq Hposted Hem.
  pose proof (send_posts w this e (e_id e) message em He Hq Hem) as H.
  cbv zeta in H. rewrite Hreg, Hposted in H. cbn [app] in H.
  destruct (sendMessage w this (e_id e) message) as [w1 p] eqn:E.
  assert (Hp : p = length (promises w)).
  { rewrite (sendMessage_spec _ _ _ _ _ He) in E. now injection E as _ <-. }
  cbn [fst] in H. cbv zeta. rewrite H, Hp. clear H E Hp w1 p.
  set (msg := message_data _ _ _ _ _ _).
  set (w1 := mkWorld _ _ _ _ _ _).
  set (w1' := set_platform (set_posted [] (platform w1)) w1).
  assert (Hdrop : Entity_onWindowMessage w1' (VObj [("data", msg)]) = w1').
  { unfold msg. rewrite onWindowMessage_envelope.
    destruct (bool_decide _); [reflexivity|].
    unfold Entity_getById in *. cbn [statics w1' w1 set_platform]. rewrite Hreg.
    unfold handleIncomingMessage. cbn [heap w1' w1 set_platform].
    rewrite list_lookup_insert_eq by (now apply lookup_lt_Some in He).
    cbn. now rewrite String.eqb_refl. }
  assert (Hd : deliver w1 = w1').
  { unfold deliver. cbn [posted platform w1 set_posted].
    fold w1'. rewrite iter_fixed by exact Hdrop. now apply drain_idle. }
  rewrite Hd. cbn.
  split; [apply lookup_snoc|]. now repeat split.
Qed.

Lemma send_to_self_never_answered_witness :
  let '(w1, p) := sendMessage sample_world 1 "2" (VStr "Hello") in
  let w2 := deliver (drain w1) in
  promises w2 !! p = Some Pending
  /\ trace w2 = []
  /\ posted (platform w2) = []
  /\ jobs w2 = [].
Proof.
  apply (send_to_self_never_answered sample_world 1
           (mkEntity "2" [reply_hi; reply_twice] ∅ false) (VStr "Hello")
           (CustomEmitter "bmCustomEventEmitter")); reflexivity.
Defined.






(** X25: an entity whose id is listed in sourceEntityIds is not heard.
    A request it sends is posted and then dropped by the listener
    before any target is looked up, whoever the addressee: no handler
    runs, nothing is posted in return, and the promise stays pending. *)
Theorem ignored_source_never_answered w this e r targetId message em :
  heap w !! this = Some e ->
  Entity_getById w (e_id e) = Some r ->
  e_id e ∈ sourceEntityIdSet (statics w) ->
  jobs w = [] ->
  posted (platform w) = [] ->
  messageEmitter (statics w) = Some em ->
  let '(w1, p) := sendMessage w this targetId message in
  let w2 := deliver (drain w1) in
  promises w2 !! p = Some Pending
  /\ trace w2 = trace w
  /\ posted (platform w2) = []
  /\ jobs w2 = [].
Proof.
  intros He Hreg Hsrc Hq Hposted Hem.
  pose proof (send_posts w this e targetId message em He Hq Hem) as H.
  cbv zeta in H. rewrite Hreg, Hposted in H. cbn [app] in H.
  destruct (sendMessage w this targetId message) as [w1 p] eqn:E.
  assert (Hp : p = length (promises w)).
  { rewrite (sendMessage_spec _ _ _ _ _ He) in E. now injection E as _ <-. }
  cbn [fst] in H. cbv zeta. rewrite H, Hp. clear H E Hp w1 p.
  set (msg := message_data _ _ _ _ _ _).
  set (w1 := mkWorld _ _ _ _ _ _).
  set (w1' := set_platform (set_posted [] (platform w1)) w1).
  assert (Hdrop : Entity_onWindowMessage w1' (VObj [("data", msg)]) = w1').
  { apply onWindowMessage_drop. right. right. left. exact Hsrc. }
  assert (Hd : deliver w1 = w1').
  { unfold deliver. cbn [posted platform w1 set_posted].
    fold w1'. rewrite iter_fixed by exact Hdrop. now apply drain_idle. }
  rewrite Hd. cbn.
  split; [apply lookup_snoc|]. now repeat split.
Qed.

Lemma ignored_source_never_answered_witness :
  let '(w1, p) := sendMessage ignoring_world 0 "2" (VStr "Hello") in
  let w2 := deliver (drain w1) in
  promises w2 !! p = Some Pending
  /\ trace w2 = []
  /\ posted (platform w2) = []
  /\ jobs w2 = [].
Proof.
  assert (Hin : "1" ∈ sourceEntityIdSet (statics ignoring_world))
    by (apply elem_of_list_to_set; now left).
  exact (ignored_source_never_answered ignoring_world 0 (mkEntity "1" [] ∅ false) 0 "2"
           (VStr "Hello") (CustomEmitter "bmCustomEventEmitter")
           eq_refl eq_refl Hin eq_refl eq_refl eq_refl).
Defined.
